(** * Address-environment region utilities (arch/arm/src/armv7-a/arm_addrenv_utils.c)

    A shallow embedding of [arm_addrenv_create_region] and
    [arm_addrenv_destroy_region]: the two functions that build and tear down
    the level-2 page tables backing one memory region of an ARMv7-A address
    environment.

    The C functions work on three pieces of mutable state: the caller's table
    list [list[]], the physical pages holding the level-2 tables, and the page
    allocator.  The embedding threads one [machine] record through every
    operation and records every externally visible action in a trace, so that
    ordering properties can be stated next to functional ones. *)

From Stdlib Require Import ZArith List Lia Permutation.
From stdpp Require Import base numbers list.
From Equations Require Import Equations.
Local Open Scope Z_scope.

(** ** Machine integers

    ARMv7-A is an ILP32 target: [unsigned int], [size_t], [uintptr_t] and
    [uint32_t] are 32-bit unsigned, [int] is 32-bit two's complement. *)

Definition to_uint (x : Z) : Z := x mod 4294967296.

Definition to_int (x : Z) : Z := (x + 2147483648) mod 4294967296 - 2147483648.

Definition INT_MAX : Z := 2147483647.

Definition UINT_MAX : Z := 4294967295.

(** ** Constants of the port

    None of the headers ([nuttx/pgalloc.h], [mmu.h], [pgalloc.h], [errno.h])
    is among the sources; the values below are the ones the source file and the
    specification fix between them. *)

(** Modelled from the spec: the page size.  [MM_PGSHIFT] is not defined in the
    sources.  The source comment says that [listlen] sections are
    [listlen << 20] bytes, the specification that a leaf table covers
    [ENTRIES_PER_L2TABLE] pages, and the ARMv7-A small-page format has 4 KiB
    pages. *)
Definition MM_PGSHIFT : Z := 12.

Definition MM_PGSIZE : Z := Z.shiftl 1 MM_PGSHIFT.

Definition MM_PGMASK : Z := MM_PGSIZE - 1.

(** Modelled from the spec: [MM_NPAGES] is not defined in the sources; the
    specification reads it as the page count [ceil(regionsize / pagesize)]. *)
Definition MM_NPAGES (size : Z) : Z := (size + MM_PGMASK) / MM_PGSIZE.

(** Modelled from the spec: one leaf table covers one section of
    [ENTRIES_PER_L2TABLE] pages, that is [1 << (20 - MM_PGSHIFT)] entries. *)
Definition ENTRIES_PER_L2TABLE : Z := 256.

(** Modelled from the spec: the span of one leaf table, [1 << 20] bytes
    according to the comment in [arm_addrenv_create_region]. *)
Definition SECTION_SIZE : Z := 1048576.

(** Modelled from the spec: the physical-address mask of a small-page entry
    (decoding masks out the flag bits, which live below the page boundary). *)
Definition PTE_SMALL_PADDR_MASK : Z := 0xfffff000.

(** Modelled from the spec: the errno values behind the capacity error and the
    out-of-memory error; they are not defined in the sources. *)
Definition E2BIG : Z := 7.

Definition ENOMEM : Z := 12.

(** ** Events and machine state *)

Inductive event : Type :=
| EvAlloc (paddr : Z)                 (* mm_pgalloc(1) returned paddr (0: none left) *)
| EvFree (paddr : Z)                  (* mm_pgfree(paddr, 1) *)
| EvSlot (i paddr : Z)                (* list[i] = paddr *)
| EvEnter                             (* enter_critical_section() *)
| EvLeave                             (* leave_critical_section(flags) *)
| EvZero (l2table : Z)                (* memset(l2table, 0, ...) *)
| EvEntry (l2table paddr vaddr mmuflags : Z)
                                      (* set_l2_entry(l2table, paddr, vaddr, mmuflags) *)
| EvFlush (l2table : Z).              (* up_flush_dcache(l2table, ...) *)

#[global] Instance event_eq_dec : EqDecision event.
Proof. solve_decision. Defined.

(** [table_list] is the caller's array [list[]] (0 is NULL); [memory] gives,
    for the physical address of a page, the words of the level-2 table stored
    at its start; [page_source] lists what the next calls of [mm_pgalloc]
    return (0, or nothing left, is the null sentinel); [trace] records the
    events so far, oldest first. *)
Record machine : Type := Machine {
  table_list : list Z;
  memory : Z -> list Z;
  page_source : list Z;
  trace : list event
}.

(** The result of running a function: it returns, or it accesses the table
    list outside the caller's array. *)
Inductive outcome (A : Type) : Type :=
| Returned (a : A) (st : machine)
| Fault.
Arguments Returned {A} a st.
Arguments Fault {A}.

Definition emit (e : event) (st : machine) : machine :=
  Machine (table_list st) (memory st) (page_source st) (trace st ++ [e]).

(** ** External collaborators *)

Definition mm_pgalloc (st : machine) : Z * machine :=
  match page_source st with
  | [] => (0, emit (EvAlloc 0) st)
  | paddr :: rest =>
      (paddr, emit (EvAlloc paddr) (Machine (table_list st) (memory st) rest (trace st)))
  end.

Definition mm_pgfree (paddr : Z) (st : machine) : machine := emit (EvFree paddr) st.

Definition enter_critical_section (st : machine) : machine := emit EvEnter st.

Definition leave_critical_section (st : machine) : machine := emit EvLeave st.

Definition up_flush_dcache (l2table : Z) (st : machine) : machine := emit (EvFlush l2table) st.

(** ** Accesses to the table list and to a level-2 table *)

(** [list[i]] as an rvalue. *)
Definition list_read (i : Z) (st : machine) : option Z :=
  if decide (0 <= i) then table_list st !! Z.to_nat i else None.

(** [list[i] = v]. *)
Definition list_write (i v : Z) (st : machine) : option machine :=
  if decide (0 <= i < Z.of_nat (length (table_list st))) then
    Some (emit (EvSlot i v)
            (Machine (<[Z.to_nat i := v]> (table_list st)) (memory st)
                     (page_source st) (trace st)))
  else None.

Definition write_page (paddr : Z) (words : list Z) (mem : Z -> list Z) : Z -> list Z :=
  fun q => if decide (q = paddr) then words else mem q.

Definition set_memory (mem : Z -> list Z) (st : machine) : machine :=
  Machine (table_list st) mem (page_source st) (trace st).

(** [memset(l2table, 0, ENTRIES_PER_L2TABLE * sizeof(uint32_t))]. *)
Definition memset_l2table (l2table : Z) (st : machine) : machine :=
  emit (EvZero l2table)
    (set_memory (write_page l2table (replicate (Z.to_nat ENTRIES_PER_L2TABLE) 0) (memory st)) st).

(** The word [l2table[j]]. *)
Definition l2_word (l2table j : Z) (st : machine) : Z :=
  default 0 (memory st l2table !! Z.to_nat j).

(** ** The table-entry codec *)

(** Modelled from the spec: [set_l2_entry] (pgalloc.h) is not among the
    sources.  The entry is the physical address combined with the flags; it is
    stored at the table index of the virtual address, one entry per page of
    the section. *)
Definition l2_index (vaddr : Z) : Z := Z.shiftr (Z.land vaddr 0x000ff000) 12.

Definition l2_encode (paddr mmuflags : Z) : Z := Z.lor paddr mmuflags.

Definition set_l2_entry (l2table paddr vaddr mmuflags : Z) (st : machine) : machine :=
  emit (EvEntry l2table paddr vaddr mmuflags)
    (set_memory
       (write_page l2table
          (<[Z.to_nat (l2_index vaddr) := l2_encode paddr mmuflags]> (memory st l2table))
          (memory st)) st).

(** [paddr &= PTE_SMALL_PADDR_MASK], the decoding done by
    [arm_addrenv_destroy_region]. *)
Definition l2_decode (entry : Z) : Z := Z.land entry PTE_SMALL_PADDR_MASK.

(** ** arm_addrenv_create_region *)

Inductive fill_result : Type :=
| Filled (nmapped vaddr : Z) (st : machine)
| NoMem (st : machine).

(** The inner loop
    [for (j = 0; j < ENTRIES_PER_L2TABLE && nmapped < regionsize; j++)]. *)
Equations? fill_l2table (l2table regionsize mmuflags : Z) (j nmapped vaddr : Z)
    (st : machine) : fill_result by wf (Z.to_nat (ENTRIES_PER_L2TABLE - j)) lt :=
fill_l2table l2table regionsize mmuflags j nmapped vaddr st :=
  match decide (j < ENTRIES_PER_L2TABLE ∧ nmapped < regionsize) with
  | left _ =>
      let '(paddr, st1) := mm_pgalloc st in
      if decide (paddr = 0) then NoMem (leave_critical_section st1)
      else
        fill_l2table l2table regionsize mmuflags
          (to_uint (j + 1)) (to_uint (nmapped + MM_PGSIZE)) (to_uint (vaddr + MM_PGSIZE))
          (set_l2_entry l2table paddr vaddr mmuflags st1)
  | right _ => Filled nmapped vaddr st
  end.
Proof.
  unfold to_uint, ENTRIES_PER_L2TABLE in *. Z.div_mod_to_equations. lia.
Qed.

(** [nlist = (npages + ENTRIES_PER_L2TABLE - 1) / ENTRIES_PER_L2TABLE], in
    unsigned arithmetic. *)
Definition nlist_of (npages : Z) : Z :=
  to_uint (npages + ENTRIES_PER_L2TABLE - 1) / ENTRIES_PER_L2TABLE.

(** The outer loop [for (i = 0; i < nlist; i++)], followed by
    [return npages].  [arm_pgvaddr] is the identity here, since [memory] is
    keyed by the physical address of a page; [DEBUGASSERT] and the [binfo]
    and [berr] log calls have no effect on the state. *)
Equations? create_tables (npages regionsize mmuflags : Z) (i nmapped vaddr : Z)
    (st : machine) : outcome Z by wf (Z.to_nat (nlist_of npages - i)) lt :=
create_tables npages regionsize mmuflags i nmapped vaddr st :=
  match decide (i < nlist_of npages) with
  | left _ =>
      let '(paddr, st1) := mm_pgalloc st in
      if decide (paddr = 0) then Returned (- ENOMEM) st1
      else
        match list_write i paddr st1 with
        | None => Fault
        | Some st2 =>
            let st3 := enter_critical_section st2 in
            let l2table := paddr in
            let st4 := memset_l2table l2table st3 in
            match fill_l2table l2table regionsize mmuflags 0 nmapped vaddr st4 with
            | NoMem st5 => Returned (- ENOMEM) st5
            | Filled nmapped' vaddr' st5 =>
                create_tables npages regionsize mmuflags (to_uint (i + 1)) nmapped' vaddr'
                  (leave_critical_section (up_flush_dcache l2table st5))
            end
        end
  | right _ => Returned (to_int npages) st
  end.
Proof.
  unfold nlist_of, to_uint, ENTRIES_PER_L2TABLE in *. Z.div_mod_to_equations. lia.
Qed.

Definition arm_addrenv_create_region (listlen vaddr regionsize mmuflags : Z)
    (st : machine) : outcome Z :=
  let npages := to_uint (MM_NPAGES regionsize) in
  if decide (npages > to_uint (Z.shiftl listlen (20 - MM_PGSHIFT))) then
    Returned (- E2BIG) st
  else create_tables npages regionsize mmuflags 0 0 vaddr st.

(** ** arm_addrenv_destroy_region *)

(** The inner loop [for (j = 0; j < ENTRIES_PER_L2TABLE; j++)] with
    [paddr = *l2table++]; [j] is an [int]. *)
Equations? free_l2table_pages (l2table j : Z) (st : machine) : machine
    by wf (Z.to_nat (ENTRIES_PER_L2TABLE - j)) lt :=
free_l2table_pages l2table j st :=
  match decide (j < ENTRIES_PER_L2TABLE) with
  | left _ =>
      let paddr := l2_word l2table j st in
      free_l2table_pages l2table (to_int (j + 1))
        (if decide (paddr = 0) then st else mm_pgfree (l2_decode paddr) st)
  | right _ => st
  end.
Proof.
  unfold to_int, ENTRIES_PER_L2TABLE in *. Z.div_mod_to_equations. lia.
Qed.

(** The outer loop [for (i = 0; i < listlen; vaddr += SECTION_SIZE, i++)].
    [i] is an [int] and [listlen] an [unsigned int]: the comparison converts
    [i] to unsigned, the increment is a signed one (it wraps from [INT_MAX]
    to [INT_MIN], as the ARM compilers implement it), and [list[i]] is
    indexed by the signed value. *)
Equations? destroy_tables (listlen : Z) (keep : bool) (i vaddr : Z) (st : machine) :
    outcome unit by wf (Z.to_nat (to_uint listlen - to_uint i)) lt :=
destroy_tables listlen keep i vaddr st :=
  match decide (to_uint i < to_uint listlen) with
  | left _ =>
      match list_read i st with
      | None => Fault
      | Some paddr =>
          if decide (paddr = 0) then
            destroy_tables listlen keep (to_int (i + 1)) (to_uint (vaddr + SECTION_SIZE)) st
          else
            let st1 := enter_critical_section st in
            let l2table := paddr in
            let st2 := if keep then st1 else free_l2table_pages l2table 0 st1 in
            let st3 := leave_critical_section st2 in
            match list_read i st3 with
            | None => Fault
            | Some table =>
                match list_write i 0 (mm_pgfree table st3) with
                | None => Fault
                | Some st4 =>
                    destroy_tables listlen keep (to_int (i + 1))
                      (to_uint (vaddr + SECTION_SIZE)) st4
                end
            end
      end
  | right _ => Returned tt st
  end.
Proof.
  all: unfold to_int, to_uint in *; Z.div_mod_to_equations; lia.
Qed.

Definition arm_addrenv_destroy_region (listlen vaddr : Z) (keep : bool)
    (st : machine) : outcome unit :=
  destroy_tables listlen keep 0 vaddr st.

(** What [arm_addrenv_destroy_region] does to one allocated slot before it
    frees the table itself: the critical section around the release of the
    mapped pages. *)
Definition release_mapped_pages (keep : bool) (l2table : Z) (st : machine) : machine :=
  leave_critical_section
    (if keep then enter_critical_section st
     else free_l2table_pages l2table 0 (enter_critical_section st)).

(** * Vocabulary of the statements *)

Definition add_trace (events : list event) (st : machine) : machine :=
  Machine (table_list st) (memory st) (page_source st) (trace st ++ events).

(** The pages handed back to the allocator, in order. *)
Definition freed_pages (events : list event) : list Z :=
  omap (λ e, match e with EvFree p => Some p | _ => None end) events.

(** The pages the allocator granted, in order. *)
Definition allocated_pages (events : list event) : list Z :=
  omap (λ e, match e with EvAlloc p => if decide (p = 0) then None else Some p | _ => None end)
    events.

(** The leaf-table addresses stored into the table list, in order. *)
Definition published_tables (events : list event) : list Z :=
  omap (λ e, match e with EvSlot _ p => if decide (p = 0) then None else Some p | _ => None end)
    events.

(** The data pages mapped by [set_l2_entry], in order. *)
Definition mapped_by (events : list event) : list Z :=
  omap (λ e, match e with EvEntry _ paddr _ _ => Some paddr | _ => None end) events.

(** The virtual address after [n] pages. *)
Fixpoint advance (vaddr : Z) (n : nat) : Z :=
  match n with
  | O => vaddr
  | S n' => advance (to_uint (vaddr + MM_PGSIZE)) n'
  end.

(** The events of mapping the pages [pages] into [l2table] from [vaddr] on. *)
Fixpoint fill_events (l2table mmuflags vaddr : Z) (pages : list Z) : list event :=
  match pages with
  | [] => []
  | paddr :: rest =>
      EvAlloc paddr :: EvEntry l2table paddr vaddr mmuflags
        :: fill_events l2table mmuflags (to_uint (vaddr + MM_PGSIZE)) rest
  end.

(** The words of a leaf table after mapping the pages [pages] from [vaddr]
    on. *)
Fixpoint map_entries (mmuflags vaddr : Z) (pages : list Z) (words : list Z) : list Z :=
  match pages with
  | [] => words
  | paddr :: rest =>
      map_entries mmuflags (to_uint (vaddr + MM_PGSIZE)) rest
        (<[Z.to_nat (l2_index vaddr) := l2_encode paddr mmuflags]> words)
  end.

(** A built region: each leaf table with the data pages it maps.  [flat]
    lists its pages in allocation order. *)
Definition flat (built : list (Z * list Z)) : list Z :=
  concat ((λ b, b.1 :: b.2) <$> built).

(** The [ENTRIES_PER_L2TABLE] words of a leaf table, as the scan of
    [arm_addrenv_destroy_region] reads them. *)
Definition table_words (words : list Z) : list Z :=
  (λ j, default 0 (words !! j)) <$> seq 0 (Z.to_nat ENTRIES_PER_L2TABLE).

(** The pages a leaf table maps: its non-zero entries, decoded. *)
Definition mapped_pages (words : list Z) : list Z :=
  l2_decode <$> filter (λ w, w ≠ 0) (table_words words).

(** The events of tearing down the slots [slots], the first of which has
    index [i]. *)
Fixpoint destroy_events (keep : bool) (mem : Z → list Z) (i : Z) (slots : list Z) :
    list event :=
  match slots with
  | [] => []
  | paddr :: rest =>
      (if decide (paddr = 0) then []
       else EvEnter :: (if keep then [] else EvFree <$> mapped_pages (mem paddr))
              ++ [EvLeave; EvFree paddr; EvSlot i 0])
      ++ destroy_events keep mem (i + 1) rest
  end.

(** [MM_ISALIGNED(a)]: [((a) & MM_PGMASK) == 0]. *)
Definition MM_ISALIGNED (a : Z) : Prop := Z.land a MM_PGMASK = 0.

(** A physical page address: a non-null, page-aligned [uintptr_t]. *)
Definition valid_page (paddr : Z) : Prop :=
  0 < paddr <= UINT_MAX ∧ MM_ISALIGNED paddr.

(** Flags that stay out of the physical-address field of an entry. *)
Definition valid_mmuflags (mmuflags : Z) : Prop :=
  0 <= mmuflags <= UINT_MAX ∧ Z.land mmuflags PTE_SMALL_PADDR_MASK = 0.

(** The allocations [arm_addrenv_create_region] still has to make when it
    starts on slot [i]: the leaf tables left, and the data pages left. *)
Definition allocations_left (npages i : Z) : Z :=
  (nlist_of npages - i) + Z.max 0 (npages - ENTRIES_PER_L2TABLE * i).

(** The leaf table [b.1] holds exactly the entries of the data pages [b.2]. *)
Definition table_holds (mmuflags : Z) (st : machine) (b : Z * list Z) : Prop :=
  length (memory st b.1) = Z.to_nat ENTRIES_PER_L2TABLE
  ∧ filter (λ w, w ≠ 0) (memory st b.1) ≡ₚ (λ p, l2_encode p mmuflags) <$> b.2.

(** The slots of the table list that were written, in order. *)
Definition slots_written (events : list event) : list Z :=
  omap (λ e, match e with EvSlot i _ => Some i | _ => None end) events.

(** The events of one run of the inner loop of [arm_addrenv_create_region]
    on the leaf table [l2table]: page allocations, each followed by the entry
    that maps the page. *)
Inductive fill_trace (l2table mmuflags : Z) : Z → list event → Prop :=
| fill_trace_done vaddr : fill_trace l2table mmuflags vaddr []
| fill_trace_page vaddr paddr events :
    paddr ≠ 0 →
    fill_trace l2table mmuflags (to_uint (vaddr + MM_PGSIZE)) events →
    fill_trace l2table mmuflags vaddr
      (EvAlloc paddr :: EvEntry l2table paddr vaddr mmuflags :: events).

(** The events of [arm_addrenv_create_region] from slot [i] on.  For each
    slot: the leaf-table page is allocated, its address is stored in the
    slot, and then, inside one critical section, the table is zeroed and
    populated and, when every data page was granted, flushed.  The call
    stops at the first failed allocation: that of a leaf table ends it at
    once; that of a data page ends it once the section is left, and the
    table is not flushed. *)
Inductive create_trace (mmuflags : Z) : Z → list event → Prop :=
| create_trace_done i : create_trace mmuflags i []
| create_trace_table_nomem i : create_trace mmuflags i [EvAlloc 0]
| create_trace_page_nomem i l2table vaddr events :
    l2table ≠ 0 →
    fill_trace l2table mmuflags vaddr events →
    create_trace mmuflags i
      ([EvAlloc l2table; EvSlot i l2table; EvEnter; EvZero l2table]
         ++ events ++ [EvAlloc 0; EvLeave])
| create_trace_table i l2table vaddr events rest :
    l2table ≠ 0 →
    fill_trace l2table mmuflags vaddr events →
    create_trace mmuflags (i + 1) rest →
    create_trace mmuflags i
      ([EvAlloc l2table; EvSlot i l2table; EvEnter; EvZero l2table]
         ++ events ++ [EvFlush l2table; EvLeave] ++ rest).



(** What a call of [arm_addrenv_create_region] that has reached slot [i]
    does to the table list: it writes the slots [i], [i + 1], ... in order, at
    most up to slot [nlist - 1], and leaves every other slot alone; when its
    last event is a failed allocation outside a critical section (that of a
    leaf table), the slot it was about to fill is among the untouched ones. *)
Definition create_frame (npages mmuflags i : Z) (st : machine) (r : outcome Z) : Prop :=
  match r with
  | Fault => True
  | Returned a st' =>
      ∃ new,
        trace st' = trace st ++ new
        ∧ create_trace mmuflags i new
        ∧ length (table_list st') = length (table_list st)
        ∧ i + Z.of_nat (length (slots_written new)) <= Z.max i (nlist_of npages)
        ∧ (∀ k : nat,
             Z.of_nat k < i ∨ i + Z.of_nat (length (slots_written new)) <= Z.of_nat k →
             table_list st' !! k = table_list st !! k)
        ∧ (last new = Some (EvAlloc 0) →
           a = - ENOMEM ∧ i + Z.of_nat (length (slots_written new)) < nlist_of npages)
  end.


(** The critical-section discipline of a trace: sections are entered and
    left alternately, a leaf table is zeroed, written and flushed only inside
    one, the table list is written only outside, and the trace ends outside.
    [inside] tells whether the trace starts inside a critical section. *)
Fixpoint cs_discipline (inside : bool) (events : list event) : bool :=
  match events with
  | [] => negb inside
  | EvEnter :: rest => negb inside && cs_discipline true rest
  | EvLeave :: rest => inside && cs_discipline false rest
  | EvZero _ :: rest => inside && cs_discipline inside rest
  | EvEntry _ _ _ _ :: rest => inside && cs_discipline inside rest
  | EvFlush _ :: rest => inside && cs_discipline inside rest
  | EvSlot _ _ :: rest => negb inside && cs_discipline inside rest
  | EvAlloc _ :: rest => cs_discipline inside rest
  | EvFree _ :: rest => cs_discipline inside rest
  end.





(** * The nRF91 SPI master driver (arch/arm/src/nrf91/nrf91_spi.c)

    The driver reaches the SPIM peripheral through [nrf91_spi_putreg] and
    [nrf91_spi_getreg], and keeps the frequency and the mode it programmed
    last in its [struct nrf91_spidev_s].  The embedding records every access
    to the peripheral in a log, and takes the values that register reads
    return from a list of answers of the device: the driver is a transducer
    from answers to accesses.  A run that needs more answers than the list
    holds is [Starved]; this is how a busy-wait shows on a device that does
    not raise the event waited for.

    The model is that of a build without [CONFIG_NRF91_SPI_MASTER_INTERRUPTS]:
    [nrf91_spi_exchange] polls [EVENTS_END].

    The headers [hardware/nrf91_spi.h], [nuttx/spi/spi.h] and [errno.h] are not
    among the sources.  A register is identified by the name of its offset
    macro; the values of the other macros, the two build options the code
    tests and [nrf91_easydma_valid] are parameters, collected in [spim_hw]. *)

(** The registers the functions below access: [priv->base + offset]. *)
Inductive spim_reg : Type :=
| NRF91_SPIM_TASK_START_OFFSET
| NRF91_SPIM_TASK_STOP_OFFSET
| NRF91_SPIM_EVENTS_STOPPED_OFFSET
| NRF91_SPIM_EVENTS_END_OFFSET
| NRF91_SPIM_FREQUENCY_OFFSET
| NRF91_SPIM_CONFIG_OFFSET
| NRF91_SPIM_RXDPTR_OFFSET
| NRF91_SPIM_RXDMAXCNT_OFFSET
| NRF91_SPIM_RXDLIST_OFFSET
| NRF91_SPIM_TXDPTR_OFFSET
| NRF91_SPIM_TXDMAXCNT_OFFSET
| NRF91_SPIM_TXDAMOUNT_OFFSET
| NRF91_SPIM_TXDLIST_OFFSET.

#[global] Instance spim_reg_eq_dec : EqDecision spim_reg.
Proof. solve_decision. Defined.

(** The constants of the headers, the build options and
    [nrf91_easydma_valid]. *)
Class spim_hw : Type := SpimHw {
  SPIM_FREQUENCY_125KBPS : Z;
  SPIM_FREQUENCY_250KBPS : Z;
  SPIM_FREQUENCY_500KBPS : Z;
  SPIM_FREQUENCY_1MBPS : Z;
  SPIM_FREQUENCY_2MBPS : Z;
  SPIM_FREQUENCY_4MBPS : Z;
  SPIM_FREQUENCY_8MBPS : Z;
  SPIM_CONFIG_ORDER : Z;
  SPIM_CONFIG_CPHA : Z;
  SPIM_CONFIG_CPOL : Z;
  SPIM_TASKS_START : Z;
  SPIM_TASKS_STOP : Z;
  SPIDEV_MODE0 : Z;
  SPIDEV_MODE1 : Z;
  SPIDEV_MODE2 : Z;
  SPIDEV_MODE3 : Z;
  HWFEAT_LSBFIRST : Z;
  OK : Z;
  ENOSYS : Z;
  CONFIG_SPI_BITORDER : bool;
  CONFIG_DEBUG_ASSERTIONS : bool;
  nrf91_easydma_valid : Z → bool
}.

(** What the driver does to the outside. *)
Inductive access : Type :=
| Putreg (r : spim_reg) (value : Z)      (* putreg32(value, priv->base + r) *)
| Getreg (r : spim_reg) (value : Z)      (* getreg32(priv->base + r) returned value *)
| GpioWrite (pinset : Z) (value : bool). (* nrf91_gpio_write(pinset, value) *)

(** The fields of [struct nrf91_spidev_s] that the functions below read or
    write. *)
Record nrf91_spidev_s : Type := Spidev {
  sck_pin : Z;
  frequency : Z;
  mode : Z
}.

(** [priv] is the driver's structure, [device] the values the next register
    reads return, [accesses] the log so far, oldest first. *)
Record spi_world : Type := World {
  priv : nrf91_spidev_s;
  device : list Z;
  accesses : list access
}.

(** How a run ends: the function returns; it is still reading a register
    when the answers are used up; a debug assertion fails. *)
Inductive run (A : Type) : Type :=
| Done (a : A) (w : spi_world)
| Starved (w : spi_world)
| Panicked (w : spi_world).
Arguments Done {A} a w.
Arguments Starved {A} w.
Arguments Panicked {A} w.

Definition spi (A : Type) : Type := spi_world → run A.

#[global] Instance spi_ret : MRet spi := λ A a w, Done a w.

#[global] Instance spi_bind : MBind spi := λ A B f m w,
  match m w with
  | Done a w' => f a w'
  | Starved w' => Starved w'
  | Panicked w' => Panicked w'
  end.

Definition log_access (a : access) : spi unit :=
  λ w, Done tt (World (priv w) (device w) (accesses w ++ [a])).

(** [nrf91_spi_putreg(priv, offset, value)]: [putreg32(value, priv->base + offset)]. *)
Definition nrf91_spi_putreg (offset : spim_reg) (value : Z) : spi unit :=
  log_access (Putreg offset value).

(** [nrf91_spi_getreg(priv, offset)]: [getreg32(priv->base + offset)], a
    volatile read; its 32-bit value is the next answer of the device. *)
Definition nrf91_spi_getreg (offset : spim_reg) : spi Z :=
  λ w, match device w with
       | [] => Starved w
       | v :: rest =>
           Done (to_uint v) (World (priv w) rest (accesses w ++ [Getreg offset (to_uint v)]))
       end.

Definition nrf91_gpio_write (pinset : Z) (value : bool) : spi unit :=
  log_access (GpioWrite pinset value).

(** [DEBUGASSERT(f)] and [DEBUGPANIC()]: checked only in a build with
    [CONFIG_DEBUG_ASSERTIONS]. *)
Definition DEBUGASSERT `{spim_hw} (f : bool) : spi unit :=
  λ w, if CONFIG_DEBUG_ASSERTIONS && negb f then Panicked w else Done tt w.

Definition DEBUGPANIC `{spim_hw} : spi unit := DEBUGASSERT false.

(** The fields of [priv]: [priv->frequency], [priv->mode] (a [uint8_t]) and
    [priv->sck_pin]. *)
Definition get_frequency : spi Z := λ w, Done (frequency (priv w)) w.

Definition set_frequency (value : Z) : spi unit :=
  λ w, Done tt (World (Spidev (sck_pin (priv w)) value (mode (priv w)))
                      (device w) (accesses w)).

Definition get_mode : spi Z := λ w, Done (mode (priv w)) w.

Definition set_mode (value : Z) : spi unit :=
  λ w, Done tt (World (Spidev (sck_pin (priv w)) (frequency (priv w)) (value mod 256))
                      (device w) (accesses w)).

Definition get_sck_pin : spi Z := λ w, Done (sck_pin (priv w)) w.

(** ** nrf91_spi_setfrequency *)

(** The [switch (frequency)] of [nrf91_spi_setfrequency]: the register value
    of a supported frequency, [None] for the [default] label. *)
Definition frequency_switch `{spim_hw} (frequency : Z) : option Z :=
  if decide (frequency = 125000) then Some SPIM_FREQUENCY_125KBPS
  else if decide (frequency = 250000) then Some SPIM_FREQUENCY_250KBPS
  else if decide (frequency = 500000) then Some SPIM_FREQUENCY_500KBPS
  else if decide (frequency = 1000000) then Some SPIM_FREQUENCY_1MBPS
  else if decide (frequency = 2000000) then Some SPIM_FREQUENCY_2MBPS
  else if decide (frequency = 4000000) then Some SPIM_FREQUENCY_4MBPS
  else if decide (frequency = 8000000) then Some SPIM_FREQUENCY_8MBPS
  else None.

(** The result is [priv->frequency], on every path ([errout] included). *)
Definition nrf91_spi_setfrequency `{spim_hw} (frequency_req : Z) : spi Z :=
  current ← get_frequency;
  if decide (current = frequency_req) then get_frequency
  else
    let frequency_req :=
      if decide (frequency_req > 8000000) then 8000000 else frequency_req in
    match frequency_switch frequency_req with
    | Some regval =>
        _ ← nrf91_spi_putreg NRF91_SPIM_FREQUENCY_OFFSET regval;
        _ ← set_frequency frequency_req;
        get_frequency
    | None => get_frequency
    end.

(** ** nrf91_spi_setmode *)

(** The [switch (mode)] of [nrf91_spi_setmode]: [regval] with the bits of the
    mode set, [None] for the [default] label. *)
Definition mode_switch `{spim_hw} (mode_req regval : Z) : option Z :=
  if decide (mode_req = SPIDEV_MODE0) then Some regval
  else if decide (mode_req = SPIDEV_MODE1) then Some (Z.lor regval SPIM_CONFIG_CPHA)
  else if decide (mode_req = SPIDEV_MODE2) then Some (Z.lor regval SPIM_CONFIG_CPOL)
  else if decide (mode_req = SPIDEV_MODE3) then
    Some (Z.lor (Z.lor regval SPIM_CONFIG_CPHA) SPIM_CONFIG_CPOL)
  else None.

Definition nrf91_spi_setmode `{spim_hw} (mode_req : Z) : spi unit :=
  current ← get_mode;
  if decide (mode_req ≠ current) then
    regval ← nrf91_spi_getreg NRF91_SPIM_CONFIG_OFFSET;
    let regval :=
      Z.land regval (to_uint (Z.lnot (Z.lor SPIM_CONFIG_CPHA SPIM_CONFIG_CPOL))) in
    match mode_switch mode_req regval with
    | Some regval =>
        _ ← nrf91_spi_putreg NRF91_SPIM_CONFIG_OFFSET regval;
        sck ← get_sck_pin;
        _ ← nrf91_gpio_write sck
              (bool_decide (mode_req = SPIDEV_MODE2 ∨ mode_req = SPIDEV_MODE3));
        set_mode mode_req
    | None => DEBUGPANIC
    end
  else mret tt.

(** ** nrf91_spi_hwfeatures *)

(** The register is touched only in a build with [CONFIG_SPI_BITORDER]. *)
Definition nrf91_spi_hwfeatures `{spim_hw} (features : Z) : spi Z :=
  _ ← (if CONFIG_SPI_BITORDER then
         let setbits :=
           if decide (Z.land features HWFEAT_LSBFIRST ≠ 0) then SPIM_CONFIG_ORDER else 0 in
         let clrbits :=
           if decide (Z.land features HWFEAT_LSBFIRST ≠ 0) then 0 else SPIM_CONFIG_ORDER in
         regval ← nrf91_spi_getreg NRF91_SPIM_CONFIG_OFFSET;
         let regval := Z.land regval (to_uint (Z.lnot clrbits)) in
         let regval := Z.lor regval setbits in
         nrf91_spi_putreg NRF91_SPIM_CONFIG_OFFSET regval
       else mret tt);
  mret (if decide (Z.land features (Z.lnot HWFEAT_LSBFIRST) = 0) then OK else - ENOSYS).

(** ** nrf91_spi_exchange *)

(** The busy-wait [while (nrf91_spi_getreg(priv, offset) != 1);]: it reads
    the register until the device answers 1, and is starved when the answers
    run out before. *)
Fixpoint poll_event (offset : spim_reg) (dev : nrf91_spidev_s) (answers : list Z)
    (log : list access) : run unit :=
  match answers with
  | [] => Starved (World dev [] log)
  | v :: rest =>
      if decide (to_uint v = 1) then
        Done tt (World dev rest (log ++ [Getreg offset (to_uint v)]))
      else poll_event offset dev rest (log ++ [Getreg offset (to_uint v)])
  end.

Definition wait_event (offset : spim_reg) : spi unit :=
  λ w, poll_event offset (priv w) (device w) (accesses w).

(** The body of the loop [while (nwords_left > 0)]: one transfer of
    [transfer_size] words.  The value read from [TXD.AMOUNT] is only
    compared and logged. *)
Definition transfer_chunk `{spim_hw} (txbuffer rxbuffer transfer_size : Z) : spi unit :=
  _ ← (if decide (rxbuffer ≠ 0) then
         nrf91_spi_putreg NRF91_SPIM_RXDMAXCNT_OFFSET transfer_size
       else mret tt);
  _ ← (if decide (txbuffer ≠ 0) then
         nrf91_spi_putreg NRF91_SPIM_TXDMAXCNT_OFFSET transfer_size
       else mret tt);
  _ ← nrf91_spi_putreg NRF91_SPIM_TASK_START_OFFSET SPIM_TASKS_START;
  _ ← wait_event NRF91_SPIM_EVENTS_END_OFFSET;
  _ ← nrf91_spi_putreg NRF91_SPIM_EVENTS_END_OFFSET 0;
  regval ← nrf91_spi_getreg NRF91_SPIM_TXDAMOUNT_OFFSET;
  _ ← nrf91_spi_putreg NRF91_SPIM_TASK_STOP_OFFSET SPIM_TASKS_STOP;
  _ ← wait_event NRF91_SPIM_EVENTS_STOPPED_OFFSET;
  nrf91_spi_putreg NRF91_SPIM_EVENTS_STOPPED_OFFSET 0.

(** The loop [while (nwords_left > 0)]; [nwords_left] is a [size_t]. *)
Equations? transfer_loop `{spim_hw} (txbuffer rxbuffer nwords_left : Z) (w : spi_world) :
    run unit by wf (Z.to_nat nwords_left) lt :=
transfer_loop txbuffer rxbuffer nwords_left w :=
  match decide (nwords_left > 0) with
  | left _ =>
      let transfer_size := if decide (nwords_left > 255) then 255 else nwords_left in
      match transfer_chunk txbuffer rxbuffer transfer_size w with
      | Done _ w' =>
          transfer_loop txbuffer rxbuffer (to_uint (nwords_left - transfer_size)) w'
      | Starved w' => Starved w'
      | Panicked w' => Panicked w'
      end
  | right _ => Done tt w
  end.
Proof.
  unfold to_uint. destruct (decide (nwords_left > 255)); Z.div_mod_to_equations; lia.
Qed.

(** Buffers are addresses, 0 for [NULL]. *)
Definition nrf91_spi_exchange `{spim_hw} (txbuffer rxbuffer nwords : Z) : spi unit :=
  _ ← (if decide (rxbuffer ≠ 0) then
         _ ← DEBUGASSERT (nrf91_easydma_valid rxbuffer);
         nrf91_spi_putreg NRF91_SPIM_RXDPTR_OFFSET rxbuffer
       else nrf91_spi_putreg NRF91_SPIM_RXDMAXCNT_OFFSET 0);
  _ ← (if decide (txbuffer ≠ 0) then
         _ ← DEBUGASSERT (nrf91_easydma_valid txbuffer);
         nrf91_spi_putreg NRF91_SPIM_TXDPTR_OFFSET txbuffer
       else nrf91_spi_putreg NRF91_SPIM_TXDMAXCNT_OFFSET 0);
  _ ← (if decide (nwords > 255) then
         _ ← (if decide (rxbuffer ≠ 0) then
                nrf91_spi_putreg NRF91_SPIM_RXDLIST_OFFSET 1
              else mret tt);
         if decide (txbuffer ≠ 0) then nrf91_spi_putreg NRF91_SPIM_TXDLIST_OFFSET 1
         else mret tt
       else mret tt);
  _ ← transfer_loop txbuffer rxbuffer nwords;
  _ ← nrf91_spi_putreg NRF91_SPIM_RXDPTR_OFFSET 0;
  _ ← nrf91_spi_putreg NRF91_SPIM_RXDMAXCNT_OFFSET 0;
  _ ← nrf91_spi_putreg NRF91_SPIM_TXDPTR_OFFSET 0;
  _ ← nrf91_spi_putreg NRF91_SPIM_TXDMAXCNT_OFFSET 0;
  if decide (nwords > 255) then
    _ ← nrf91_spi_putreg NRF91_SPIM_RXDLIST_OFFSET 0;
    nrf91_spi_putreg NRF91_SPIM_TXDLIST_OFFSET 0
  else mret tt.

Definition nrf91_spi_sndblock `{spim_hw} (txbuffer nwords : Z) : spi unit :=
  nrf91_spi_exchange txbuffer 0 nwords.

Definition nrf91_spi_recvblock `{spim_hw} (rxbuffer nwords : Z) : spi unit :=
  nrf91_spi_exchange 0 rxbuffer nwords.

(** ** Vocabulary of the statements about the driver *)

(** The rates [nrf91_spi_setfrequency] has a register value for. *)
Definition supported_frequencies : list Z :=
  [125000; 250000; 500000; 1000000; 2000000; 4000000; 8000000].

(** The four mode labels are different values that fit [priv->mode]. *)
Definition spi_modes_wf `{spim_hw} : Prop :=
  NoDup [SPIDEV_MODE0; SPIDEV_MODE1; SPIDEV_MODE2; SPIDEV_MODE3]
  ∧ Forall (λ m, 0 <= m < 256) [SPIDEV_MODE0; SPIDEV_MODE1; SPIDEV_MODE2; SPIDEV_MODE3].

(** The register writes of a log, in order, and those to one register. *)
Definition writes (log : list access) : list (spim_reg * Z) :=
  omap (λ a, match a with Putreg r v => Some (r, v) | _ => None end) log.

Definition writes_to (r : spim_reg) (log : list access) : list Z :=
  (filter (λ p, p.1 = r) (writes log)).*2.

(** The world a run ends in, however it ends. *)
Definition world_of {A} (r : run A) : spi_world :=
  match r with
  | Done _ w => w
  | Starved w => w
  | Panicked w => w
  end.

(** An answer of the device that keeps a busy-wait going. *)
Definition busy (v : Z) : Prop := to_uint v ≠ 1.

(** The sizes of the transfers that [nwords] words are cut into. *)
Definition chunk_sizes (nwords : Z) : list Z :=
  replicate (Z.to_nat (nwords / 255)) 255
    ++ (if decide (nwords mod 255 = 0) then [] else [nwords mod 255]).

(** What the device answers during one transfer: the polls of [EVENTS_END]
    up to the one that finds it set, the value of [TXD.AMOUNT], and the polls
    of [EVENTS_STOPPED]. *)
Definition chunk_answers (a : list Z * Z * list Z) : list Z :=
  a.1.1 ++ [1] ++ [a.1.2] ++ a.2 ++ [1].

Definition chunk_answers_ok (a : list Z * Z * list Z) : Prop :=
  Forall busy a.1.1 ∧ Forall busy a.2.

(** The register writes of one transfer of [size] words. *)
Definition chunk_writes `{spim_hw} (txbuffer rxbuffer size : Z) : list (spim_reg * Z) :=
  (if decide (rxbuffer ≠ 0) then [(NRF91_SPIM_RXDMAXCNT_OFFSET, size)] else [])
    ++ (if decide (txbuffer ≠ 0) then [(NRF91_SPIM_TXDMAXCNT_OFFSET, size)] else [])
    ++ [(NRF91_SPIM_TASK_START_OFFSET, SPIM_TASKS_START);
        (NRF91_SPIM_EVENTS_END_OFFSET, 0);
        (NRF91_SPIM_TASK_STOP_OFFSET, SPIM_TASKS_STOP);
        (NRF91_SPIM_EVENTS_STOPPED_OFFSET, 0)].

(** The register writes of [nrf91_spi_exchange] before and after its
    transfers. *)
Definition setup_writes (txbuffer rxbuffer nwords : Z) : list (spim_reg * Z) :=
  (if decide (rxbuffer ≠ 0) then [(NRF91_SPIM_RXDPTR_OFFSET, rxbuffer)]
   else [(NRF91_SPIM_RXDMAXCNT_OFFSET, 0)])
    ++ (if decide (txbuffer ≠ 0) then [(NRF91_SPIM_TXDPTR_OFFSET, txbuffer)]
        else [(NRF91_SPIM_TXDMAXCNT_OFFSET, 0)])
    ++ (if decide (nwords > 255) then
          (if decide (rxbuffer ≠ 0) then [(NRF91_SPIM_RXDLIST_OFFSET, 1)] else [])
            ++ (if decide (txbuffer ≠ 0) then [(NRF91_SPIM_TXDLIST_OFFSET, 1)] else [])
        else []).

Definition teardown_writes (nwords : Z) : list (spim_reg * Z) :=
  [(NRF91_SPIM_RXDPTR_OFFSET, 0); (NRF91_SPIM_RXDMAXCNT_OFFSET, 0);
   (NRF91_SPIM_TXDPTR_OFFSET, 0); (NRF91_SPIM_TXDMAXCNT_OFFSET, 0)]
    ++ (if decide (nwords > 255) then
          [(NRF91_SPIM_RXDLIST_OFFSET, 0); (NRF91_SPIM_TXDLIST_OFFSET, 0)]
        else []).

(** A buffer passes the [DEBUGASSERT] of [nrf91_spi_exchange]. *)
Definition easydma_ok `{spim_hw} (buffer : Z) : Prop :=
  buffer ≠ 0 → CONFIG_DEBUG_ASSERTIONS = true → nrf91_easydma_valid buffer = true.

(** The calls a user of the driver makes through [struct spi_ops_s]. *)
Inductive spi_call : Type :=
| CallSetfrequency (frequency_req : Z)
| CallSetmode (mode_req : Z)
| CallHwfeatures (features : Z)
| CallExchange (txbuffer rxbuffer nwords : Z)
| CallSndblock (txbuffer nwords : Z)
| CallRecvblock (rxbuffer nwords : Z).

Definition do_call `{spim_hw} (c : spi_call) : spi unit :=
  match c with
  | CallSetfrequency frequency_req => _ ← nrf91_spi_setfrequency frequency_req; mret tt
  | CallSetmode mode_req => nrf91_spi_setmode mode_req
  | CallHwfeatures features => _ ← nrf91_spi_hwfeatures features; mret tt
  | CallExchange txbuffer rxbuffer nwords => nrf91_spi_exchange txbuffer rxbuffer nwords
  | CallSndblock txbuffer nwords => nrf91_spi_sndblock txbuffer nwords
  | CallRecvblock rxbuffer nwords => nrf91_spi_recvblock rxbuffer nwords
  end.

Fixpoint do_calls `{spim_hw} (cs : list spi_call) : spi unit :=
  match cs with
  | [] => mret tt
  | c :: cs => _ ← do_call c; do_calls cs
  end.

(** The cached frequency agrees with the [FREQUENCY] register: either none
    was ever set, or the last value written is the one of the cached rate. *)
Definition frequency_in_sync `{spim_hw} (w : spi_world) : Prop :=
  (frequency (priv w) = 0 ∧ writes_to NRF91_SPIM_FREQUENCY_OFFSET (accesses w) = [])
  ∨ (frequency (priv w) ∈ supported_frequencies
     ∧ last (writes_to NRF91_SPIM_FREQUENCY_OFFSET (accesses w))
       = frequency_switch (frequency (priv w))).

(** One assignment of the parameters, to run the model on: the bit layout of
    the SPIM's [FREQUENCY] and [CONFIG] registers, the mode labels 0 to 3, a
    build with [CONFIG_SPI_BITORDER] and without debug assertions. *)
#[global] Instance sample_hw : spim_hw := {|
  SPIM_FREQUENCY_125KBPS := 0x02000000;
  SPIM_FREQUENCY_250KBPS := 0x04000000;
  SPIM_FREQUENCY_500KBPS := 0x08000000;
  SPIM_FREQUENCY_1MBPS := 0x10000000;
  SPIM_FREQUENCY_2MBPS := 0x20000000;
  SPIM_FREQUENCY_4MBPS := 0x40000000;
  SPIM_FREQUENCY_8MBPS := 0x80000000;
  SPIM_CONFIG_ORDER := 1;
  SPIM_CONFIG_CPHA := 2;
  SPIM_CONFIG_CPOL := 4;
  SPIM_TASKS_START := 1;
  SPIM_TASKS_STOP := 1;
  SPIDEV_MODE0 := 0;
  SPIDEV_MODE1 := 1;
  SPIDEV_MODE2 := 2;
  SPIDEV_MODE3 := 3;
  HWFEAT_LSBFIRST := 16;
  OK := 0;
  ENOSYS := 38;
  CONFIG_SPI_BITORDER := true;
  CONFIG_DEBUG_ASSERTIONS := false;
  nrf91_easydma_valid := λ _, true
|}.

(** The mode label of a clock polarity and phase. *)
Definition mode_of `{spim_hw} (cpol cpha : bool) : Z :=
  match cpol, cpha with
  | false, false => SPIDEV_MODE0
  | false, true => SPIDEV_MODE1
  | true, false => SPIDEV_MODE2
  | true, true => SPIDEV_MODE3
  end.

(** A computation that leaves the cached frequency and the [FREQUENCY]
    register alone, however it ends. *)
Definition keeps_frequency {A} (m : spi A) : Prop :=
  ∀ w,
    frequency (priv (world_of (m w))) = frequency (priv w)
    ∧ writes_to NRF91_SPIM_FREQUENCY_OFFSET (accesses (world_of (m w)))
      = writes_to NRF91_SPIM_FREQUENCY_OFFSET (accesses w).

(** ** Tactics *)

Ltac unfold_consts :=
  unfold INT_MAX, UINT_MAX, ENTRIES_PER_L2TABLE, SECTION_SIZE, MM_NPAGES, MM_PGMASK,
    MM_PGSIZE, MM_PGSHIFT, E2BIG, ENOMEM in *;
  change (Z.shiftl 1 12) with 4096 in *.

(** Linear arithmetic over the wrapped integers. *)
Ltac zlia :=
  unfold nlist_of in *; unfold to_uint, to_int in *; unfold_consts;
  Z.div_mod_to_equations; lia.

(** Running the driver's monad, and equations between bit fields. *)
Ltac spi_unfold :=
  unfold mbind, spi_bind, mret, spi_ret, nrf91_spi_putreg, nrf91_gpio_write, log_access,
    get_frequency, set_frequency, get_mode, set_mode, get_sck_pin, DEBUGPANIC, DEBUGASSERT,
    wait_event in *.

Ltac solve_bits :=
  unfold to_uint; change 4294967296 with (2 ^ 32); rewrite <- ?Z.land_ones by lia;
  apply Z.bits_inj'; intros i Hi;
  repeat first [rewrite Z.land_spec | rewrite Z.lor_spec | rewrite Z.lnot_spec by lia
               | rewrite Z.testbit_ones_nonneg by lia | rewrite Z.bits_0];
  repeat match goal with
         | |- context [Z.testbit ?a i] => destruct (Z.testbit a i)
         | |- context [i <? 32] => destruct (i <? 32)
         end; reflexivity.

(** The writes of one transfer to one register. *)
Ltac chunk_select :=
  intros c; unfold chunk_writes;
  repeat match goal with
         | |- context [decide (?b ≠ 0)] => destruct (decide (b ≠ 0))
         end; try done; reflexivity.

(** * Reasoning tools *)

Lemma nlist_of_range npages : 0 <= nlist_of npages < 16777216.
Proof. zlia. Qed.

Lemma uint_counter_step n i :
  0 <= n < 4294967296 → i < n →
  (Z.to_nat (n - to_uint (i + 1)) < Z.to_nat (n - i))%nat.
Proof. intros. zlia. Qed.

(** ** One induction principle per loop *)

Section fill_l2table_rule.
Variables l2table regionsize mmuflags : Z.
Variable P : Z → Z → Z → machine → fill_result → Prop.
Hypothesis Hstop : ∀ j nm v st,
  ¬ (j < ENTRIES_PER_L2TABLE ∧ nm < regionsize) → P j nm v st (Filled nm v st).
Hypothesis Hnomem : ∀ j nm v st,
  j < ENTRIES_PER_L2TABLE → nm < regionsize → (mm_pgalloc st).1 = 0 →
  P j nm v st (NoMem (leave_critical_section (mm_pgalloc st).2)).
Hypothesis Hstep : ∀ j nm v st r,
  j < ENTRIES_PER_L2TABLE → nm < regionsize → (mm_pgalloc st).1 ≠ 0 →
  P (to_uint (j + 1)) (to_uint (nm + MM_PGSIZE)) (to_uint (v + MM_PGSIZE))
    (set_l2_entry l2table (mm_pgalloc st).1 v mmuflags (mm_pgalloc st).2) r →
  P j nm v st r.

Lemma fill_l2table_rule j nm v st :
  P j nm v st (fill_l2table l2table regionsize mmuflags j nm v st).
Proof.
  remember (Z.to_nat (ENTRIES_PER_L2TABLE - j)) as n eqn:Hn.
  revert j nm v st Hn.
  induction n as [n IH] using lt_wf_ind; intros j nm v st Hn.
  rewrite fill_l2table_equation_1.
  destruct (decide (j < ENTRIES_PER_L2TABLE ∧ nm < regionsize)) as [[Hj Hnm]|Hno].
  - destruct (mm_pgalloc st) as [paddr st1] eqn:Ha.
    destruct (decide (paddr = 0)) as [->|Hp].
    + specialize (Hnomem j nm v st Hj Hnm). rewrite Ha in Hnomem. by apply Hnomem.
    + specialize (Hstep j nm v st). rewrite Ha in Hstep. simpl in Hstep.
      apply Hstep; [done..|].
      eapply IH; [|reflexivity]. subst n. zlia.
  - by apply Hstop.
Qed.
End fill_l2table_rule.

Section create_tables_rule.
Variables npages regionsize mmuflags : Z.
Variable P : Z → Z → Z → machine → outcome Z → Prop.
Hypothesis Hdone : ∀ i nm v st,
  ¬ i < nlist_of npages → P i nm v st (Returned (to_int npages) st).
Hypothesis Hnomem : ∀ i nm v st,
  i < nlist_of npages → (mm_pgalloc st).1 = 0 →
  P i nm v st (Returned (- ENOMEM) (mm_pgalloc st).2).
Hypothesis Hfault : ∀ i nm v st,
  i < nlist_of npages → (mm_pgalloc st).1 ≠ 0 →
  list_write i (mm_pgalloc st).1 (mm_pgalloc st).2 = None →
  P i nm v st Fault.
Hypothesis Hpage_nomem : ∀ i nm v st st2 st5,
  i < nlist_of npages → (mm_pgalloc st).1 ≠ 0 →
  list_write i (mm_pgalloc st).1 (mm_pgalloc st).2 = Some st2 →
  fill_l2table (mm_pgalloc st).1 regionsize mmuflags 0 nm v
    (memset_l2table (mm_pgalloc st).1 (enter_critical_section st2)) = NoMem st5 →
  P i nm v st (Returned (- ENOMEM) st5).
Hypothesis Hstep : ∀ i nm v st st2 nm' v' st5 r,
  i < nlist_of npages → (mm_pgalloc st).1 ≠ 0 →
  list_write i (mm_pgalloc st).1 (mm_pgalloc st).2 = Some st2 →
  fill_l2table (mm_pgalloc st).1 regionsize mmuflags 0 nm v
    (memset_l2table (mm_pgalloc st).1 (enter_critical_section st2)) = Filled nm' v' st5 →
  P (to_uint (i + 1)) nm' v'
    (leave_critical_section (up_flush_dcache (mm_pgalloc st).1 st5)) r →
  P i nm v st r.

Lemma create_tables_rule i nm v st :
  P i nm v st (create_tables npages regionsize mmuflags i nm v st).
Proof.
  remember (Z.to_nat (nlist_of npages - i)) as n eqn:Hn.
  revert i nm v st Hn.
  induction n as [n IH] using lt_wf_ind; intros i nm v st Hn.
  rewrite create_tables_equation_1.
  destruct (decide (i < nlist_of npages)) as [Hi|Hi]; [|by apply Hdone].
  specialize (Hnomem i nm v st Hi). specialize (Hfault i nm v st Hi).
  specialize (Hpage_nomem i nm v st). specialize (Hstep i nm v st).
  destruct (mm_pgalloc st) as [paddr st1]; simpl in *.
  destruct (decide (paddr = 0)) as [->|Hp]; [by apply Hnomem|].
  destruct (list_write i paddr st1) as [st2|]; [|by apply Hfault].
  simpl.
  destruct (fill_l2table _ _ _ _ _ _ _) as [nm' v' st5|st5] eqn:Hfill.
  - eapply Hstep; [done..|].
    eapply IH; [|reflexivity]. subst n.
    apply uint_counter_step; [|done].
    pose proof (nlist_of_range npages). lia.
  - by eapply Hpage_nomem.
Qed.
End create_tables_rule.

Lemma int_counter_step n i :
  to_uint i < to_uint n →
  (Z.to_nat (to_uint n - to_uint (to_int (i + 1))) < Z.to_nat (to_uint n - to_uint i))%nat.
Proof. intros. zlia. Qed.

Section destroy_tables_rule.
Variable listlen : Z.
Variable keep : bool.
Variable P : Z → Z → machine → outcome unit → Prop.
Hypothesis Hdone : ∀ i v st,
  ¬ to_uint i < to_uint listlen → P i v st (Returned tt st).
Hypothesis Hread_fault : ∀ i v st,
  to_uint i < to_uint listlen → list_read i st = None → P i v st Fault.
Hypothesis Hskip : ∀ i v st r,
  to_uint i < to_uint listlen → list_read i st = Some 0 →
  P (to_int (i + 1)) (to_uint (v + SECTION_SIZE)) st r →
  P i v st r.
Hypothesis Hreread_fault : ∀ i v st paddr,
  to_uint i < to_uint listlen → list_read i st = Some paddr → paddr ≠ 0 →
  list_read i (release_mapped_pages keep paddr st) = None →
  P i v st Fault.
Hypothesis Hwrite_fault : ∀ i v st paddr table,
  to_uint i < to_uint listlen → list_read i st = Some paddr → paddr ≠ 0 →
  list_read i (release_mapped_pages keep paddr st) = Some table →
  list_write i 0 (mm_pgfree table (release_mapped_pages keep paddr st)) = None →
  P i v st Fault.
Hypothesis Hstep : ∀ i v st paddr table st4 r,
  to_uint i < to_uint listlen → list_read i st = Some paddr → paddr ≠ 0 →
  list_read i (release_mapped_pages keep paddr st) = Some table →
  list_write i 0 (mm_pgfree table (release_mapped_pages keep paddr st)) = Some st4 →
  P (to_int (i + 1)) (to_uint (v + SECTION_SIZE)) st4 r →
  P i v st r.

Lemma destroy_tables_rule i v st : P i v st (destroy_tables listlen keep i v st).
Proof.
  remember (Z.to_nat (to_uint listlen - to_uint i)) as n eqn:Hn.
  revert i v st Hn.
  induction n as [n IH] using lt_wf_ind; intros i v st Hn.
  rewrite destroy_tables_equation_1.
  destruct (decide (to_uint i < to_uint listlen)) as [Hi|Hi]; [|by apply Hdone].
  assert (Hnext : ∀ st', P (to_int (i + 1)) (to_uint (v + SECTION_SIZE)) st'
      (destroy_tables listlen keep (to_int (i + 1)) (to_uint (v + SECTION_SIZE)) st')).
  { intros st'. eapply IH; [|reflexivity]. subst n. by apply int_counter_step. }
  destruct (list_read i st) as [paddr|] eqn:Hrd; [|by apply Hread_fault].
  destruct (decide (paddr = 0)) as [->|Hp]; [by apply Hskip|].
  cbv zeta. fold (release_mapped_pages keep paddr st).
  destruct (list_read i (release_mapped_pages keep paddr st)) as [table|] eqn:Hrd2;
    [|by eapply Hreread_fault].
  destruct (list_write i 0 _) as [st4|] eqn:Hwr; [|by eapply Hwrite_fault].
  by eapply Hstep.
Qed.
End destroy_tables_rule.

(** ** Basic facts about the state *)

Lemma add_trace_nil st : add_trace [] st = st.
Proof. destruct st. unfold add_trace. simpl. by rewrite app_nil_r. Qed.

Lemma add_trace_app tr1 tr2 st : add_trace tr2 (add_trace tr1 st) = add_trace (tr1 ++ tr2) st.
Proof. unfold add_trace. simpl. by rewrite app_assoc. Qed.

Lemma emit_add_trace e st : emit e st = add_trace [e] st.
Proof. reflexivity. Qed.

Lemma table_words_lookup words (j : nat) :
  (j < Z.to_nat ENTRIES_PER_L2TABLE)%nat →
  table_words words !! j = Some (default 0 (words !! j)).
Proof.
  intros Hj. unfold table_words. rewrite list_lookup_fmap, lookup_seq_lt by done. done.
Qed.

Lemma table_words_length words : length (table_words words) = Z.to_nat ENTRIES_PER_L2TABLE.
Proof. unfold table_words. by rewrite length_fmap, length_seq. Qed.

(** ** The page scan of [arm_addrenv_destroy_region] *)

Lemma free_l2table_pages_from l2table j st :
  0 <= j <= ENTRIES_PER_L2TABLE →
  free_l2table_pages l2table j st =
  add_trace (EvFree <$> (l2_decode <$>
               filter (λ w, w ≠ 0) (drop (Z.to_nat j) (table_words (memory st l2table))))) st.
Proof.
  remember (Z.to_nat (ENTRIES_PER_L2TABLE - j)) as n eqn:Hn.
  revert j st Hn. induction n as [|n IH]; intros j st Hn Hj.
  - assert (j = ENTRIES_PER_L2TABLE) as -> by lia.
    rewrite free_l2table_pages_equation_1.
    destruct (decide _) as [?|_]; [lia|].
    rewrite drop_ge by (rewrite table_words_length; lia).
    by rewrite filter_nil, add_trace_nil.
  - rewrite free_l2table_pages_equation_1.
    destruct (decide _) as [Hlt|?]; [|lia].
    assert (to_int (j + 1) = j + 1) as -> by zlia.
    cbv zeta.
    assert (Hlk : table_words (memory st l2table) !! Z.to_nat j
                  = Some (l2_word l2table j st)).
    { rewrite table_words_lookup by lia. done. }
    rewrite (drop_S _ _ _ Hlk).
    replace (S (Z.to_nat j)) with (Z.to_nat (j + 1)) by lia.
    rewrite filter_cons.
    destruct (decide (l2_word l2table j st = 0)) as [Hz|Hnz].
    + rewrite decide_False by (intros Hc; by apply Hc).
      apply IH; lia.
    + rewrite decide_True by done.
      rewrite IH by lia.
      unfold mm_pgfree. rewrite emit_add_trace, add_trace_app. done.
Qed.

Lemma free_l2table_pages_spec l2table st :
  free_l2table_pages l2table 0 st
  = add_trace (EvFree <$> mapped_pages (memory st l2table)) st.
Proof.
  rewrite free_l2table_pages_from by (unfold_consts; lia). done.
Qed.

Lemma release_mapped_pages_spec keep paddr st :
  release_mapped_pages keep paddr st
  = add_trace (EvEnter :: (if keep then [] else EvFree <$> mapped_pages (memory st paddr))
                 ++ [EvLeave]) st.
Proof.
  unfold release_mapped_pages, leave_critical_section, enter_critical_section.
  destruct keep.
  - by rewrite !emit_add_trace, add_trace_app.
  - rewrite free_l2table_pages_spec, !emit_add_trace, !add_trace_app. done.
Qed.

Lemma list_read_Some i st paddr :
  list_read i st = Some paddr ↔ 0 <= i ∧ table_list st !! Z.to_nat i = Some paddr.
Proof.
  unfold list_read. destruct (decide (0 <= i)); split; try done.
  - by intros [_ ?].
  - by intros [? _].
Qed.

Lemma list_read_add_trace i tr st : list_read i (add_trace tr st) = list_read i st.
Proof. reflexivity. Qed.

(** ** The slot walk of [arm_addrenv_destroy_region] *)

Lemma destroy_tables_spec listlen keep i v st :
  listlen <= INT_MAX →
  Z.of_nat (length (table_list st)) = listlen →
  0 <= i <= listlen →
  destroy_tables listlen keep i v st =
  Returned tt
    (Machine
       (take (Z.to_nat i) (table_list st)
          ++ replicate (length (table_list st) - Z.to_nat i) 0)
       (memory st) (page_source st)
       (trace st ++ destroy_events keep (memory st) i (drop (Z.to_nat i) (table_list st)))).
Proof.
  intros Hmax. revert i v st.
  apply (destroy_tables_rule listlen keep
    (λ i v st r, Z.of_nat (length (table_list st)) = listlen → 0 <= i <= listlen →
       r = Returned tt
             (Machine
                (take (Z.to_nat i) (table_list st)
                   ++ replicate (length (table_list st) - Z.to_nat i) 0)
                (memory st) (page_source st)
                (trace st ++ destroy_events keep (memory st) i
                               (drop (Z.to_nat i) (table_list st)))))).
  - intros i v st Hstop Hlen Hi.
    assert (i = listlen) as -> by zlia.
    rewrite take_ge, drop_ge by lia.
    replace (length (table_list st) - Z.to_nat listlen)%nat with 0%nat by lia.
    destruct st; simpl. by rewrite !app_nil_r.
  - intros i v st Hlt Hrd Hlen Hi. exfalso.
    assert (Hi' : i < listlen) by zlia.
    unfold list_read in Hrd. rewrite decide_True in Hrd by lia.
    apply lookup_ge_None in Hrd. lia.
  - intros i v st r Hlt Hrd IH Hlen Hi.
    assert (Hi' : i < listlen) by zlia.
    apply list_read_Some in Hrd as [_ Hrd].
    assert (to_int (i + 1) = i + 1) as Hnext by zlia.
    rewrite Hnext in IH. rewrite IH by lia.
    replace (Z.to_nat (i + 1)) with (S (Z.to_nat i)) by lia.
    rewrite (take_S_r _ _ _ Hrd), (drop_S _ _ _ Hrd).
    replace (length (table_list st) - Z.to_nat i)%nat
      with (S (length (table_list st) - S (Z.to_nat i))) by lia.
    simpl. rewrite <- app_assoc. done.
  - intros i v st paddr Hlt Hrd Hp Hrd2. exfalso.
    rewrite release_mapped_pages_spec, list_read_add_trace in Hrd2. congruence.
  - intros i v st paddr table Hlt Hrd Hp Hrd2 Hwr Hlen Hi. exfalso.
    assert (Hi' : i < listlen) by zlia.
    unfold list_write in Hwr. rewrite release_mapped_pages_spec in Hwr. simpl in Hwr.
    rewrite decide_True in Hwr by lia. done.
  - intros i v st paddr table st4 r Hlt Hrd Hp Hrd2 Hwr IH Hlen Hi.
    assert (Hi' : i < listlen) by zlia.
    rewrite release_mapped_pages_spec in Hrd2, Hwr.
    rewrite list_read_add_trace in Hrd2.
    assert (table = paddr) as -> by congruence.
    apply list_read_Some in Hrd as [_ Hrd].
    unfold list_write in Hwr. simpl in Hwr. rewrite decide_True in Hwr by lia.
    injection Hwr as <-.
    assert (to_int (i + 1) = i + 1) as Hnext by zlia.
    rewrite Hnext in IH. simpl in IH.
    rewrite length_insert in IH. rewrite IH by lia.
    replace (Z.to_nat (i + 1)) with (S (Z.to_nat i)) by lia.
    rewrite drop_insert_lt by lia.
    assert (Hins : <[Z.to_nat i:=0]> (table_list st) !! Z.to_nat i = Some 0).
    { apply list_lookup_insert_eq. lia. }
    rewrite (take_S_r _ _ _ Hins), take_insert_ge by lia.
    rewrite (drop_S _ _ _ Hrd).
    replace (length (table_list st) - Z.to_nat i)%nat
      with (S (length (table_list st) - S (Z.to_nat i))) by lia.
    simpl. rewrite decide_False by done.
    f_equal. f_equal.
    + by rewrite <- app_assoc.
    + rewrite <- !app_assoc. simpl. rewrite <- !app_assoc. done.
Qed.

Lemma destroy_events_null keep mem i slots :
  Forall (λ p, p = 0) slots → destroy_events keep mem i slots = [].
Proof.
  intros H. revert i. induction H as [|p slots Hp _ IH]; intros i; simpl; [done|].
  rewrite decide_True by done. apply IH.
Qed.

Lemma destroy_tables_eq listlen keep i v st :
  destroy_tables listlen keep i v st =
  if decide (to_uint i < to_uint listlen) then
    match list_read i st with
    | None => Fault
    | Some paddr =>
        if decide (paddr = 0) then
          destroy_tables listlen keep (to_int (i + 1)) (to_uint (v + SECTION_SIZE)) st
        else
          match list_read i (release_mapped_pages keep paddr st) with
          | None => Fault
          | Some table =>
              match list_write i 0 (mm_pgfree table (release_mapped_pages keep paddr st)) with
              | None => Fault
              | Some st4 =>
                  destroy_tables listlen keep (to_int (i + 1))
                    (to_uint (v + SECTION_SIZE)) st4
              end
          end
    end
  else Returned tt st.
Proof. rewrite destroy_tables_equation_1. by destruct (decide _). Qed.

(** * The table-entry codec *)

Lemma land_paddr_mask paddr :
  0 <= paddr <= UINT_MAX → MM_ISALIGNED paddr → Z.land paddr PTE_SMALL_PADDR_MASK = paddr.
Proof.
  unfold PTE_SMALL_PADDR_MASK, UINT_MAX. intros Hr Hal.
  change (Z.land paddr 4095 = 0) in Hal.
  rewrite <- (Z.mod_small paddr (2 ^ 32)) at 2 by lia.
  rewrite <- Z.land_ones by lia.
  change (Z.ones 32) with (Z.lor 0xfffff000 4095).
  rewrite Z.land_lor_distr_r, Hal. by rewrite Z.lor_0_r.
Qed.

Lemma l2_decode_encode paddr mmuflags :
  0 <= paddr <= UINT_MAX → MM_ISALIGNED paddr → valid_mmuflags mmuflags →
  l2_decode (l2_encode paddr mmuflags) = paddr.
Proof.
  intros Hr Hal [_ Hfl]. unfold l2_decode, l2_encode.
  rewrite Z.land_lor_distr_l, Hfl, Z.lor_0_r. by apply land_paddr_mask.
Qed.

(** C7.  The table-entry codec round-trips: for a page-aligned physical
    address [paddr] and flags that stay out of the address field, masking the
    entry [paddr | mmuflags] with the physical-address mask gives back [paddr].
    Encoding is a function of its two arguments alone, and storing the entry
    changes nothing but the addressed leaf table: the table list, the page
    source and every other page are left as they were. *)
Theorem l2_entry_roundtrip paddr mmuflags :
  0 <= paddr <= UINT_MAX → MM_ISALIGNED paddr → valid_mmuflags mmuflags →
  l2_decode (l2_encode paddr mmuflags) = paddr
  ∧ ∀ l2table vaddr st,
      table_list (set_l2_entry l2table paddr vaddr mmuflags st) = table_list st
      ∧ page_source (set_l2_entry l2table paddr vaddr mmuflags st) = page_source st
      ∧ ∀ q, q ≠ l2table →
          memory (set_l2_entry l2table paddr vaddr mmuflags st) q = memory st q.
Proof.
  intros Hr Hal Hfl. split.
  - by apply l2_decode_encode.
  - intros l2table vaddr st. repeat split.
    intros q Hq. simpl. unfold write_page. by rewrite decide_False.
Qed.

Lemma l2_entry_roundtrip_witness :
  (0 <= 0x80201000 <= UINT_MAX ∧ MM_ISALIGNED 0x80201000 ∧ valid_mmuflags 0x55e)
  ∧ l2_decode (l2_encode 0x80201000 0x55e) = 0x80201000.
Proof.
  assert (H1 : 0 <= 0x80201000 <= UINT_MAX) by (unfold UINT_MAX; lia).
  assert (H2 : MM_ISALIGNED 0x80201000) by reflexivity.
  assert (H3 : valid_mmuflags 0x55e) by (split; [unfold UINT_MAX; lia | reflexivity]).
  split; [done|].
  exact (proj1 (l2_entry_roundtrip 0x80201000 0x55e H1 H2 H3)).
Defined.

(** * The capacity check *)


(** C2.  When [ceil(regionsize / pagesize)] exceeds the
    [listlen * ENTRIES_PER_L2TABLE] pages that [listlen] leaf tables hold,
    [arm_addrenv_create_region] returns [-E2BIG] in the state it was called
    in: no page was requested (page source and trace are untouched) and every
    slot of the table list is as before. *)
Theorem create_region_capacity_error listlen vaddr regionsize mmuflags st :
  0 <= listlen <= UINT_MAX → 0 <= regionsize <= UINT_MAX →
  MM_NPAGES regionsize > listlen * ENTRIES_PER_L2TABLE →
  arm_addrenv_create_region listlen vaddr regionsize mmuflags st = Returned (- E2BIG) st.
Proof.
  intros Hl Hr Hbig. unfold arm_addrenv_create_region. cbv zeta.
  rewrite decide_True; [done|].
  rewrite Z.shiftl_mul_pow2 by (unfold MM_PGSHIFT; lia).
  change (2 ^ (20 - MM_PGSHIFT)) with 256. zlia.
Qed.

Lemma create_region_capacity_error_witness :
  (0 <= 1 <= UINT_MAX ∧ 0 <= 1052672 <= UINT_MAX
   ∧ MM_NPAGES 1052672 > 1 * ENTRIES_PER_L2TABLE)
  ∧ arm_addrenv_create_region 1 0 1052672 0x55e
      (Machine [0] (λ _, []) [0x1000; 0x2000] [])
    = Returned (- E2BIG) (Machine [0] (λ _, []) [0x1000; 0x2000] []).
Proof.
  assert (H1 : 0 <= 1 <= UINT_MAX) by (unfold UINT_MAX; lia).
  assert (H2 : 0 <= 1052672 <= UINT_MAX) by (unfold UINT_MAX; lia).
  assert (H3 : MM_NPAGES 1052672 > 1 * ENTRIES_PER_L2TABLE) by reflexivity.
  split; [done|].
  exact (create_region_capacity_error 1 0 1052672 0x55e _ H1 H2 H3).
Defined.

(** * Tearing a region down *)

(** C6.  Destruction is idempotent per slot.  The events of
    [arm_addrenv_destroy_region] are those of [destroy_events]: nothing for a
    null slot, and for an allocated slot the release of its pages and of its
    leaf table followed by the reset of the slot to null.  Afterwards every
    slot of the table list is null, and a second call on that list (whatever
    its [vaddr] and [keep]) returns in the very same state, so it frees no
    page, emits no event and does not fault. *)
Theorem destroy_region_idempotent listlen vaddr keep vaddr' keep' st :
  listlen <= INT_MAX →
  Z.of_nat (length (table_list st)) = listlen →
  ∃ st',
    arm_addrenv_destroy_region listlen vaddr keep st = Returned tt st'
    ∧ trace st' = trace st ++ destroy_events keep (memory st) 0 (table_list st)
    ∧ table_list st' = replicate (length (table_list st)) 0
    ∧ arm_addrenv_destroy_region listlen vaddr' keep' st' = Returned tt st'.
Proof.
  intros Hmax Hlen. unfold arm_addrenv_destroy_region.
  rewrite destroy_tables_spec by (done || lia).
  change (Z.to_nat 0) with 0%nat. rewrite take_0, drop_0, Nat.sub_0_r. simpl.
  eexists. split; [done|]. simpl. split; [done|]. split; [done|].
  rewrite destroy_tables_spec; simpl; rewrite ?length_replicate; [|done..|lia].
  change (Z.to_nat 0) with 0%nat. rewrite ?take_0, ?drop_0, ?Nat.sub_0_r. simpl.
  rewrite (destroy_events_null keep' _ 0 (replicate _ 0)) by (by apply Forall_replicate).
  by rewrite app_nil_r.
Qed.

Lemma destroy_region_idempotent_witness :
  (2 <= INT_MAX
   ∧ Z.of_nat (length (table_list (Machine [0x5000; 0] (λ _, [0x6003]) [] []))) = 2)
  ∧ ∃ st',
      arm_addrenv_destroy_region 2 0x100000 false (Machine [0x5000; 0] (λ _, [0x6003]) [] [])
      = Returned tt st'
      ∧ trace st' = [] ++ [EvEnter; EvFree 0x6000; EvLeave; EvFree 0x5000; EvSlot 0 0]
      ∧ table_list st' = replicate 2 0
      ∧ arm_addrenv_destroy_region 2 0 true st' = Returned tt st'.
Proof.
  assert (H1 : 2 <= INT_MAX) by (unfold INT_MAX; lia).
  assert (H2 : Z.of_nat (length (table_list (Machine [0x5000; 0] (λ _, [0x6003]) [] []))) = 2)
    by reflexivity.
  split; [done|].
  exact (destroy_region_idempotent 2 0x100000 false 0 true _ H1 H2).
Defined.

(** C10.  [arm_addrenv_destroy_region] does not depend on [vaddr]: two calls
    that differ in [vaddr] alone have the same outcome, that is the same
    frees in the same order (the trace), the same final table list, or the
    same fault. *)
Theorem destroy_region_vaddr_irrelevant listlen vaddr1 vaddr2 keep st :
  arm_addrenv_destroy_region listlen vaddr1 keep st
  = arm_addrenv_destroy_region listlen vaddr2 keep st.
Proof.
  unfold arm_addrenv_destroy_region. generalize 0 as i. intros i.
  symmetry. revert vaddr2. revert i vaddr1 st.
  apply (destroy_tables_rule listlen keep
           (λ i v st r, ∀ v', destroy_tables listlen keep i v' st = r)).
  - intros j v s Hstop v'. rewrite destroy_tables_eq. by rewrite decide_False.
  - intros j v s Hlt Hrd v'. rewrite destroy_tables_eq, decide_True, Hrd; done.
  - intros j v s r Hlt Hrd IH v'.
    rewrite destroy_tables_eq, decide_True, Hrd, decide_True by done. apply IH.
  - intros j v s paddr Hlt Hrd Hp Hrd2 v'.
    rewrite destroy_tables_eq, decide_True, Hrd, decide_False, Hrd2; done.
  - intros j v s paddr table Hlt Hrd Hp Hrd2 Hwr v'.
    rewrite destroy_tables_eq, decide_True, Hrd, decide_False, Hrd2, Hwr; done.
  - intros j v s paddr table st4 r Hlt Hrd Hp Hrd2 Hwr IH v'.
    rewrite destroy_tables_eq, decide_True, Hrd, decide_False, Hrd2, Hwr by done.
    apply IH.
Qed.

(** * Building a region *)

(** ** The inner loop *)

Lemma mm_pgalloc_cons paddr rest st :
  page_source st = paddr :: rest →
  mm_pgalloc st
  = (paddr, Machine (table_list st) (memory st) rest (trace st ++ [EvAlloc paddr])).
Proof. unfold mm_pgalloc. by intros ->. Qed.

Lemma mm_pgalloc_nil st :
  page_source st = [] → mm_pgalloc st = (0, add_trace [EvAlloc 0] st).
Proof. unfold mm_pgalloc. by intros ->. Qed.

Lemma fill_l2table_filled l2table regionsize mmuflags pages :
  ∀ j nmapped vaddr st rest,
    page_source st = pages ++ rest →
    Forall (λ p, p ≠ 0) pages →
    0 <= j → 0 <= nmapped <= UINT_MAX → regionsize <= UINT_MAX →
    j + Z.of_nat (length pages) <= ENTRIES_PER_L2TABLE →
    (∀ d, 0 <= d < Z.of_nat (length pages) → nmapped + MM_PGSIZE * d < regionsize) →
    (j + Z.of_nat (length pages) = ENTRIES_PER_L2TABLE
     ∨ regionsize <= to_uint (nmapped + MM_PGSIZE * Z.of_nat (length pages))) →
    ∃ st',
      fill_l2table l2table regionsize mmuflags j nmapped vaddr st
      = Filled (to_uint (nmapped + MM_PGSIZE * Z.of_nat (length pages)))
               (advance vaddr (length pages)) st'
      ∧ table_list st' = table_list st
      ∧ page_source st' = rest
      ∧ trace st' = trace st ++ fill_events l2table mmuflags vaddr pages
      ∧ memory st' l2table = map_entries mmuflags vaddr pages (memory st l2table)
      ∧ ∀ q, q ≠ l2table → memory st' q = memory st q.
Proof.
  induction pages as [|p pages IH]; intros j nm v st rest Hsrc Hnz Hj Hnm Hrs Hfit Hlt Hstop.
  - simpl in *. rewrite fill_l2table_equation_1.
    assert (to_uint (nm + MM_PGSIZE * Z.of_nat 0) = nm) as Hnm0 by zlia.
    rewrite Hnm0 in *.
    rewrite decide_False by lia.
    exists st. rewrite app_nil_r. done.
  - apply Forall_cons_1 in Hnz as [Hp Hnz]. simpl length in *.
    rewrite fill_l2table_equation_1.
    assert (Hlt0 : nm < regionsize) by (specialize (Hlt 0); lia).
    rewrite decide_True by (split; [lia|done]).
    rewrite (mm_pgalloc_cons p (pages ++ rest)) by done.
    rewrite decide_False by done.
    assert (Hnm1 : to_uint (nm + MM_PGSIZE) = nm + MM_PGSIZE ∨ pages = []).
    { destruct pages as [|p' pages]; [by right|left].
      specialize (Hlt 1). simpl length in Hlt. zlia. }
    assert (to_uint (j + 1) = j + 1) as -> by zlia.
    edestruct (IH (j + 1) (to_uint (nm + MM_PGSIZE)) (to_uint (v + MM_PGSIZE))
                 (set_l2_entry l2table p v mmuflags
                    (Machine (table_list st) (memory st) (pages ++ rest)
                       (trace st ++ [EvAlloc p]))) rest)
      as (st' & Hrun & Hl & Hs & Ht & Hm & Hfr); try done.
    + lia.
    + zlia.
    + lia.
    + intros d Hd. destruct Hnm1 as [->| ->]; [|simpl in Hd; lia].
      specialize (Hlt (d + 1)). lia.
    + destruct Hstop as [Hstop|Hstop]; [left; lia|right].
      replace (to_uint (to_uint (nm + MM_PGSIZE) + MM_PGSIZE * Z.of_nat (length pages)))
        with (to_uint (nm + MM_PGSIZE * Z.of_nat (S (length pages)))); [done|]. zlia.
    + exists st'. rewrite Hrun. split.
      { f_equal. zlia. }
      split; [done|]. split; [done|]. split.
      { rewrite Ht. simpl. rewrite <- !app_assoc. done. }
      split.
      { rewrite Hm. simpl. unfold write_page. by rewrite decide_True. }
      intros q Hq. rewrite Hfr by done. simpl. unfold write_page. by rewrite decide_False.
Qed.

Lemma fill_l2table_nomem l2table regionsize mmuflags pages :
  ∀ j nmapped vaddr st,
    page_source st = pages →
    Forall (λ p, p ≠ 0) pages →
    0 <= j → 0 <= nmapped <= UINT_MAX → regionsize <= UINT_MAX →
    j + Z.of_nat (length pages) < ENTRIES_PER_L2TABLE →
    (∀ d, 0 <= d <= Z.of_nat (length pages) → nmapped + MM_PGSIZE * d < regionsize) →
    ∃ st',
      fill_l2table l2table regionsize mmuflags j nmapped vaddr st = NoMem st'
      ∧ table_list st' = table_list st
      ∧ page_source st' = []
      ∧ trace st' = trace st ++ fill_events l2table mmuflags vaddr pages
                      ++ [EvAlloc 0; EvLeave]
      ∧ memory st' l2table = map_entries mmuflags vaddr pages (memory st l2table)
      ∧ ∀ q, q ≠ l2table → memory st' q = memory st q.
Proof.
  induction pages as [|p pages IH]; intros j nm v st Hsrc Hnz Hj Hnm Hrs Hfit Hlt.
  - simpl in *. rewrite fill_l2table_equation_1.
    assert (Hlt0 : nm < regionsize) by (specialize (Hlt 0); lia).
    rewrite decide_True by (split; [lia|done]).
    rewrite mm_pgalloc_nil by done. rewrite decide_True by done.
    eexists. split; [done|]. simpl. rewrite Hsrc, <- app_assoc. done.
  - apply Forall_cons_1 in Hnz as [Hp Hnz]. simpl length in *.
    rewrite fill_l2table_equation_1.
    assert (Hlt0 : nm < regionsize) by (specialize (Hlt 0); lia).
    rewrite decide_True by (split; [lia|done]).
    rewrite (mm_pgalloc_cons p pages) by done.
    rewrite decide_False by done.
    assert (Hnm1 : to_uint (nm + MM_PGSIZE) = nm + MM_PGSIZE).
    { specialize (Hlt 1). zlia. }
    assert (to_uint (j + 1) = j + 1) as -> by zlia.
    edestruct (IH (j + 1) (to_uint (nm + MM_PGSIZE)) (to_uint (v + MM_PGSIZE))
                 (set_l2_entry l2table p v mmuflags
                    (Machine (table_list st) (memory st) pages (trace st ++ [EvAlloc p]))))
      as (st' & Hrun & Hl & Hs & Ht & Hm & Hfr); try done.
    + lia.
    + zlia.
    + lia.
    + intros d Hd. rewrite Hnm1. specialize (Hlt (d + 1)). lia.
    + exists st'. rewrite Hrun. split; [done|].
      split; [done|]. split; [done|]. split.
      { rewrite Ht. simpl. rewrite <- !app_assoc. done. }
      split.
      { rewrite Hm. simpl. unfold write_page. by rewrite decide_True. }
      intros q Hq. rewrite Hfr by done. simpl. unfold write_page. by rewrite decide_False.
Qed.

(** ** The contents of a leaf table *)

Lemma l2_index_spec vaddr : l2_index vaddr = (vaddr / 4096) mod 256.
Proof.
  unfold l2_index. rewrite Z.shiftr_land.
  change (Z.shiftr 0xff000 12) with (Z.ones 8).
  rewrite Z.land_ones, Z.shiftr_div_pow2 by lia. done.
Qed.

Lemma l2_index_range vaddr : 0 <= l2_index vaddr < ENTRIES_PER_L2TABLE.
Proof. rewrite l2_index_spec. zlia. Qed.

Lemma l2_index_next vaddr d :
  l2_index (to_uint (vaddr + MM_PGSIZE) + MM_PGSIZE * d)
  = l2_index (vaddr + MM_PGSIZE * (d + 1)).
Proof. rewrite !l2_index_spec. zlia. Qed.

Lemma l2_index_apart vaddr d :
  0 < d < ENTRIES_PER_L2TABLE → l2_index (vaddr + MM_PGSIZE * d) ≠ l2_index vaddr.
Proof. rewrite !l2_index_spec. zlia. Qed.

Lemma l2_encode_nonzero paddr mmuflags : paddr ≠ 0 → l2_encode paddr mmuflags ≠ 0.
Proof. unfold l2_encode. intros Hp Hz. apply Z.lor_eq_0_iff in Hz. tauto. Qed.

Lemma filter_insert_zero (words : list Z) (i : nat) (entry : Z) :
  words !! i = Some 0 → entry ≠ 0 →
  filter (λ w, w ≠ 0) (<[i:=entry]> words) ≡ₚ entry :: filter (λ w, w ≠ 0) words.
Proof.
  revert i. induction words as [|w words IH]; intros i Hlk He; [done|].
  destruct i as [|i]; simpl in *.
  - injection Hlk as ->. rewrite filter_cons_True by done.
    by rewrite (filter_cons_False _ 0) by (intros Hc; by apply Hc).
  - rewrite !(filter_cons _ w). destruct (decide (w ≠ 0)).
    + rewrite IH by done. apply Permutation_swap.
    + by apply IH.
Qed.

Lemma map_entries_spec mmuflags pages :
  ∀ vaddr words,
    length words = Z.to_nat ENTRIES_PER_L2TABLE →
    Forall (λ p, p ≠ 0) pages →
    Z.of_nat (length pages) <= ENTRIES_PER_L2TABLE →
    (∀ d, 0 <= d < Z.of_nat (length pages) →
          words !! Z.to_nat (l2_index (vaddr + MM_PGSIZE * d)) = Some 0) →
    length (map_entries mmuflags vaddr pages words) = Z.to_nat ENTRIES_PER_L2TABLE
    ∧ filter (λ w, w ≠ 0) (map_entries mmuflags vaddr pages words)
      ≡ₚ filter (λ w, w ≠ 0) words ++ ((λ p, l2_encode p mmuflags) <$> pages).
Proof.
  induction pages as [|p pages IH]; intros v words Hlen Hnz Hfit Hzero.
  - simpl. by rewrite app_nil_r.
  - apply Forall_cons_1 in Hnz as [Hp Hnz]. simpl length in *. simpl.
    assert (Hv : words !! Z.to_nat (l2_index v) = Some 0).
    { specialize (Hzero 0). rewrite Z.mul_0_r, Z.add_0_r in Hzero. apply Hzero. lia. }
    destruct (IH (to_uint (v + MM_PGSIZE))
                (<[Z.to_nat (l2_index v) := l2_encode p mmuflags]> words))
      as [Hlen' Hperm]; try done.
    + by rewrite length_insert.
    + lia.
    + intros d Hd. rewrite l2_index_next.
      rewrite list_lookup_insert_ne.
      * apply Hzero. lia.
      * pose proof (l2_index_apart v (d + 1)) as Hne.
        pose proof (l2_index_range v). pose proof (l2_index_range (v + MM_PGSIZE * (d + 1))).
        unfold ENTRIES_PER_L2TABLE in *. lia.
    + split; [done|]. rewrite Hperm.
      rewrite filter_insert_zero by (done || by apply l2_encode_nonzero).
      simpl. by rewrite Permutation_middle.
Qed.

Lemma table_words_full words :
  length words = Z.to_nat ENTRIES_PER_L2TABLE → table_words words = words.
Proof.
  intros Hlen. apply list_eq. intros j.
  destruct (decide (j < Z.to_nat ENTRIES_PER_L2TABLE)%nat) as [Hj|Hj].
  - rewrite table_words_lookup by done.
    destruct (lookup_lt_is_Some_2 words j) as [w Hw]; [lia|]. by rewrite Hw.
  - rewrite !(proj2 (lookup_ge_None _ _)); [done|lia|].
    rewrite table_words_length. lia.
Qed.

Lemma filter_nonzero_replicate n : filter (λ w : Z, w ≠ 0) (replicate n 0) = [].
Proof.
  induction n as [|n IH]; [done|]. simpl.
  rewrite filter_cons_False; [done|]. intros Hc. by apply Hc.
Qed.

Lemma mapped_pages_of_table mmuflags words pages :
  length words = Z.to_nat ENTRIES_PER_L2TABLE →
  filter (λ w, w ≠ 0) words ≡ₚ (λ p, l2_encode p mmuflags) <$> pages →
  Forall valid_page pages → valid_mmuflags mmuflags →
  mapped_pages words ≡ₚ pages.
Proof.
  intros Hlen Hperm Hpages Hfl. unfold mapped_pages.
  rewrite table_words_full, Hperm by done.
  assert (Heq : l2_decode ∘ (λ p, l2_encode p mmuflags) <$> pages = pages).
  { rewrite <- (list_fmap_id pages) at 2. apply Forall_fmap_ext.
    eapply Forall_impl; [exact Hpages|].
    intros p [Hr Hal]. simpl. apply l2_decode_encode; [lia|done..]. }
  by rewrite <- list_fmap_compose, Heq.
Qed.

(** ** What the events of the inner loop say *)

Lemma allocated_pages_fill_events l2table mmuflags pages :
  ∀ vaddr, Forall (λ p, p ≠ 0) pages →
    allocated_pages (fill_events l2table mmuflags vaddr pages) = pages.
Proof.
  unfold allocated_pages.
  induction pages as [|p pages IH]; intros v Hnz; [done|].
  apply Forall_cons_1 in Hnz as [Hp Hnz]. simpl.
  rewrite decide_False by done. simpl. f_equal. by apply IH.
Qed.

Lemma published_tables_fill_events l2table mmuflags pages :
  ∀ vaddr, published_tables (fill_events l2table mmuflags vaddr pages) = [].
Proof.
  unfold published_tables.
  induction pages as [|p pages IH]; intros v; [done|].
  simpl. destruct (decide (p = 0)); simpl; apply IH.
Qed.

Lemma mapped_by_fill_events l2table mmuflags pages :
  ∀ vaddr, mapped_by (fill_events l2table mmuflags vaddr pages) = pages.
Proof.
  unfold mapped_by.
  induction pages as [|p pages IH]; intros v; [done|].
  simpl. destruct (decide (p = 0)); simpl; by rewrite IH.
Qed.

Lemma flat_cons t pages built : flat ((t, pages) :: built) = t :: pages ++ flat built.
Proof. reflexivity. Qed.

Lemma elem_of_flat_table (built : list (Z * list Z)) t :
  t ∈ (fst <$> built) → t ∈ flat built.
Proof.
  unfold flat. induction built as [|b built IH]; simpl; [done|].
  intros [->|Hin]%elem_of_cons.
  - apply elem_of_cons. by left.
  - apply elem_of_cons. right. apply elem_of_app. right. by apply IH.
Qed.

Lemma elem_of_drop_1 (x : Z) n (l : list Z) : x ∈ drop n l → x ∈ l.
Proof. intros Hin. rewrite <- (take_drop n l). apply elem_of_app. by right. Qed.

Lemma NoDup_drop_1 n (l : list Z) : NoDup l → NoDup (drop n l).
Proof. intros Hnd. exact (sublist_NoDup _ _ Hnd (sublist_drop l n)). Qed.

(** ** The outer loop *)

Section create_tables_run.
Variables regionsize mmuflags npages : Z.
Hypothesis Hrs : 0 <= regionsize <= UINT_MAX.
Hypothesis Hnp : npages = MM_NPAGES regionsize.

Lemma npages_range : 0 <= npages <= 1048576.
Proof. subst npages. zlia. Qed.

Lemma below_npages c : 0 <= c < npages → MM_PGSIZE * c < regionsize.
Proof. subst npages. intros. zlia. Qed.

Lemma at_npages : regionsize <= MM_PGSIZE * npages.
Proof. subst npages. zlia. Qed.

Lemma nlist_of_spec : nlist_of npages = (npages + 255) / 256.
Proof. pose proof npages_range. clear Hnp. zlia. Qed.

Lemma create_tables_run (k : nat) :
  ∀ i nmapped vaddr st,
    Z.of_nat k = nlist_of npages - i → 0 <= i →
    (i < nlist_of npages → nmapped = MM_PGSIZE * ENTRIES_PER_L2TABLE * i) →
    nlist_of npages <= Z.of_nat (length (table_list st)) →
    Forall (λ p, p ≠ 0) (page_source st) →
    ∃ r st' built new,
      create_tables npages regionsize mmuflags i nmapped vaddr st = Returned r st'
      ∧ trace st' = trace st ++ new
      ∧ length (table_list st') = length (table_list st)
      ∧ table_list st'
        = take (Z.to_nat i) (table_list st) ++ (fst <$> built)
            ++ drop (Z.to_nat i + length built) (table_list st)
      ∧ page_source st = flat built ++ page_source st'
      ∧ allocated_pages new = flat built
      ∧ published_tables new = fst <$> built
      ∧ mapped_by new = concat (snd <$> built)
      ∧ (NoDup (page_source st) → Forall (table_holds mmuflags st') built)
      ∧ (∀ q, q ∉ (fst <$> built) → memory st' q = memory st q)
      ∧ (allocations_left npages i <= Z.of_nat (length (page_source st)) →
         r = to_int npages ∧ Z.of_nat (length built) = nlist_of npages - i
         ∧ Z.of_nat (length (flat built)) = allocations_left npages i)
      ∧ (Z.of_nat (length (page_source st)) < allocations_left npages i →
         r = - ENOMEM ∧ page_source st' = []).
Proof.
  pose proof npages_range as Hnpr. pose proof nlist_of_spec as Hnl.
  induction k as [|k IH]; intros i nm v st Hk Hi Hnm Hlist Hnz.
  - rewrite create_tables_equation_1. rewrite decide_False by lia.
    exists (to_int npages), st, [], []. simpl.
    rewrite app_nil_r, Nat.add_0_r, take_drop.
    repeat split; try done.
    all: unfold allocations_left in *; simpl length in *; try lia.
    all: zlia.
  - assert (Hlt : i < nlist_of npages) by lia.
    specialize (Hnm Hlt).
    rewrite create_tables_equation_1. rewrite decide_True by done.
    destruct (page_source st) as [|t src] eqn:Hsrc.
    { rewrite mm_pgalloc_nil by done. rewrite decide_True by done.
      exists (- ENOMEM), (add_trace [EvAlloc 0] st), [], [EvAlloc 0]. simpl.
      rewrite Nat.add_0_r, take_drop, Hsrc.
      repeat split; try done.
      all: exfalso; unfold allocations_left in *; simpl length in *; lia. }
    apply Forall_cons_1 in Hnz as [Ht Hnz].
    rewrite (mm_pgalloc_cons t src) by done.
    rewrite decide_False by done.
    unfold list_write. simpl table_list. rewrite decide_True by lia.
    cbv zeta.
    match goal with |- context [fill_l2table _ _ _ _ _ _ ?s] => set (st4 := s) end.
    assert (Hst4 : table_list st4 = <[Z.to_nat i := t]> (table_list st)
                   ∧ page_source st4 = src
                   ∧ trace st4 = trace st ++ [EvAlloc t; EvSlot i t; EvEnter; EvZero t]
                   ∧ memory st4 t = replicate (Z.to_nat ENTRIES_PER_L2TABLE) 0
                   ∧ ∀ q, q ≠ t → memory st4 q = memory st q).
    { subst st4. simpl. rewrite <- !app_assoc. repeat split; try done.
      - unfold write_page. by rewrite decide_True.
      - intros q Hq. unfold write_page. by rewrite decide_False. }
    destruct Hst4 as (Hl4 & Hs4 & Ht4 & Hm4 & Hf4).
    set (m := Z.to_nat (Z.min ENTRIES_PER_L2TABLE (npages - ENTRIES_PER_L2TABLE * i))).
    assert (Hm : 1 <= Z.of_nat m <= ENTRIES_PER_L2TABLE
                 ∧ Z.of_nat m = Z.min ENTRIES_PER_L2TABLE (npages - ENTRIES_PER_L2TABLE * i)).
    { subst m. clear - Hlt Hi Hnl Hnpr. zlia. }
    destruct Hm as [Hm1 Hm2].
    assert (Hnmr : 0 <= nm <= UINT_MAX).
    { clear - Hnm Hlt Hi Hnl Hnpr. zlia. }
    assert (Hwords : ∀ pages : list Z,
               Forall (λ p, p ≠ 0) pages → (length pages <= m)%nat →
               length (map_entries mmuflags v pages (memory st4 t))
               = Z.to_nat ENTRIES_PER_L2TABLE
               ∧ filter (λ w, w ≠ 0) (map_entries mmuflags v pages (memory st4 t))
                 ≡ₚ (λ p, l2_encode p mmuflags) <$> pages).
    { intros pages Hpnz Hplen. rewrite Hm4.
      destruct (map_entries_spec mmuflags pages v
                  (replicate (Z.to_nat ENTRIES_PER_L2TABLE) 0)) as [Hlen Hperm].
      - by rewrite length_replicate.
      - done.
      - lia.
      - intros d Hd. apply lookup_replicate_2.
        pose proof (l2_index_range (v + MM_PGSIZE * d)). lia.
      - split; [done|]. by rewrite Hperm, filter_nonzero_replicate. }
    destruct (decide (m <= length src)%nat) as [Henough|Hshort].
    + (* the table is filled *)
      destruct (fill_l2table_filled t regionsize mmuflags (take m src) 0 nm v st4 (drop m src))
        as (st5 & Hrun & Hl5 & Hs5 & Ht5 & Hm5 & Hf5).
      * by rewrite Hs4, take_drop.
      * by apply Forall_take.
      * done.
      * done.
      * lia.
      * rewrite length_take. lia.
      * intros d Hd. rewrite length_take in Hd. rewrite Hnm.
        pose proof (below_npages (ENTRIES_PER_L2TABLE * i + d)) as Hb.
        unfold ENTRIES_PER_L2TABLE in *. lia.
      * rewrite length_take. replace (Z.of_nat (m `min` length src)) with (Z.of_nat m) by lia.
        destruct (decide (Z.of_nat m = ENTRIES_PER_L2TABLE)) as [Hfull|Hpart]; [left; lia|right].
        pose proof at_npages as Hat. rewrite Hnm. clear - Hat Hm1 Hm2 Hpart Hi Hnpr Hrs.
        zlia.
      * rewrite Hrun.
        rewrite length_take in *.
        replace (m `min` length src)%nat with m in * by lia.
        match goal with |- context [create_tables _ _ _ _ _ _ ?s] => set (st6 := s) end.
        assert (Hst6 : table_list st6 = <[Z.to_nat i := t]> (table_list st)
                       ∧ page_source st6 = drop m src
                       ∧ trace st6 = trace st ++ [EvAlloc t; EvSlot i t; EvEnter; EvZero t]
                                       ++ fill_events t mmuflags v (take m src)
                                       ++ [EvFlush t; EvLeave]
                       ∧ memory st6 = memory st5).
        { subst st6. simpl. rewrite Hl5, Hs5, Ht5, Hl4, Ht4, <- !app_assoc. done. }
        destruct Hst6 as (Hl6 & Hs6 & Ht6 & Hm6).
        assert (to_uint (i + 1) = i + 1) as -> by (clear - Hlt Hi Hnl Hnpr; zlia).
        destruct (IH (i + 1) (to_uint (nm + MM_PGSIZE * Z.of_nat m)) (advance v m) st6)
          as (r & st' & built & new & Hcr & Htr & Hln & Htl & Hps & Hal & Hpub & Hmap & Hok
              & Hfr & Hsucc & Hfail).
        { lia. }
        { lia. }
        { intros Hlt'. rewrite Hnm. clear - Hlt' Hm1 Hm2 Hi Hnl Hnpr. zlia. }
        { rewrite Hl6, length_insert. done. }
        { rewrite Hs6. by apply Forall_drop. }
        destruct (Hwords (take m src)) as [Hlen5 Hperm5].
        { by apply Forall_take. }
        { rewrite length_take. lia. }
        exists r, st', ((t, take m src) :: built),
          ([EvAlloc t; EvSlot i t; EvEnter; EvZero t]
             ++ fill_events t mmuflags v (take m src) ++ [EvFlush t; EvLeave] ++ new).
        rewrite Hcr. split; [done|]. split.
        { rewrite Htr, Ht6, <- !app_assoc. done. }
        split.
        { by rewrite Hln, Hl6, length_insert. }
        split.
        { rewrite Htl, Hl6.
          replace (Z.to_nat (i + 1)) with (S (Z.to_nat i)) by lia.
          assert (Hins : <[Z.to_nat i:=t]> (table_list st) !! Z.to_nat i = Some t).
          { apply list_lookup_insert_eq. lia. }
          rewrite (take_S_r _ _ _ Hins), take_insert_ge by lia.
          rewrite drop_insert_lt by lia.
          simpl. rewrite <- app_assoc. simpl.
          by rewrite Nat.add_succ_r. }
        split.
        { rewrite Hs6 in Hps. rewrite flat_cons. simpl.
          by rewrite <- app_assoc, <- Hps, take_drop. }
        split.
        { unfold allocated_pages in *. rewrite !omap_app. simpl.
          rewrite decide_False by done. simpl.
          fold (allocated_pages (fill_events t mmuflags v (take m src))).
          rewrite allocated_pages_fill_events by (by apply Forall_take).
          by rewrite Hal, flat_cons. }
        split.
        { unfold published_tables in *. rewrite !omap_app. simpl.
          rewrite decide_False by done. simpl.
          fold (published_tables (fill_events t mmuflags v (take m src))).
          rewrite published_tables_fill_events. simpl. by rewrite Hpub. }
        split.
        { unfold mapped_by in *. rewrite !omap_app. simpl.
          fold (mapped_by (fill_events t mmuflags v (take m src))).
          rewrite mapped_by_fill_events. simpl. by rewrite Hmap. }
        split.
        { intros Hnd.
          pose proof (NoDup_cons_1_1 _ _ Hnd) as Htn. apply NoDup_cons_1_2 in Hnd.
          assert (Htnot : t ∉ (fst <$> built)).
          { intros Hin. apply elem_of_flat_table in Hin. apply Htn.
            apply (elem_of_drop_1 _ m). rewrite <- Hs6, Hps. apply elem_of_app. by left. }
          constructor.
          - unfold table_holds. simpl. rewrite Hfr, Hm6, Hm5 by done. done.
          - apply Hok. rewrite Hs6. by apply NoDup_drop_1. }
        split.
        { intros q Hq. simpl in Hq. apply not_elem_of_cons in Hq as [Hqt Hq].
          rewrite Hfr, Hm6, Hf5, Hf4 by done. done. }
        assert (Hleft : allocations_left npages i
                        = 1 + Z.of_nat m + allocations_left npages (i + 1)).
        { unfold allocations_left. clear - Hlt Hm1 Hm2 Hi Hnl Hnpr. zlia. }
        assert (Hlen_src : length src = (m + length (drop m src))%nat).
        { rewrite length_drop. lia. }
        split.
        { intros Hge. destruct Hsucc as (-> & Hbuilt & Hcount).
          - rewrite Hs6. simpl in Hge. lia.
          - split; [done|]. split; [simpl; lia|]. rewrite flat_cons. simpl.
            rewrite length_app, length_take. lia. }
        { intros Hless. apply Hfail. rewrite Hs6. simpl in Hless. lia. }
    + (* the page source runs out inside the table *)
      destruct (fill_l2table_nomem t regionsize mmuflags src 0 nm v st4)
        as (st5 & Hrun & Hl5 & Hs5 & Ht5 & Hm5 & Hf5).
      * done.
      * done.
      * done.
      * done.
      * lia.
      * lia.
      * intros d Hd. rewrite Hnm.
        pose proof (below_npages (ENTRIES_PER_L2TABLE * i + d)) as Hb.
        unfold ENTRIES_PER_L2TABLE in *. lia.
      * rewrite Hrun.
        destruct (Hwords src) as [Hlen5 Hperm5]; [done|lia|].
        exists (- ENOMEM), st5, [(t, src)],
          ([EvAlloc t; EvSlot i t; EvEnter; EvZero t]
             ++ fill_events t mmuflags v src ++ [EvAlloc 0; EvLeave]).
        split; [done|]. split.
        { rewrite Ht5, Ht4, <- !app_assoc. done. }
        split.
        { by rewrite Hl5, Hl4, length_insert. }
        split.
        { rewrite Hl5, Hl4. simpl.
          assert (Hlk : is_Some (table_list st !! Z.to_nat i)).
          { apply lookup_lt_is_Some. lia. }
          destruct Hlk as [old Hold].
          rewrite insert_take_drop by lia.
          by replace (Z.to_nat i + 1)%nat with (S (Z.to_nat i)) by lia. }
        split.
        { unfold flat. simpl. by rewrite Hs5, !app_nil_r. }
        split.
        { unfold allocated_pages in *. rewrite !omap_app. simpl.
          rewrite decide_False by done. simpl.
          fold (allocated_pages (fill_events t mmuflags v src)).
          rewrite allocated_pages_fill_events by done.
          unfold flat. simpl. by rewrite !app_nil_r. }
        split.
        { unfold published_tables in *. rewrite !omap_app. simpl.
          rewrite decide_False by done. simpl.
          fold (published_tables (fill_events t mmuflags v src)).
          by rewrite published_tables_fill_events. }
        split.
        { unfold mapped_by in *. rewrite !omap_app. simpl.
          fold (mapped_by (fill_events t mmuflags v src)).
          rewrite mapped_by_fill_events. simpl. by rewrite !app_nil_r. }
        split.
        { intros _. constructor; [|done].
          unfold table_holds. simpl. rewrite Hm5. done. }
        split.
        { intros q Hq. simpl in Hq. apply not_elem_of_cons in Hq as [Hqt _].
          rewrite Hf5, Hf4 by done. done. }
        assert (Hleft : 1 + Z.of_nat m <= allocations_left npages i).
        { unfold allocations_left. clear - Hlt Hm1 Hm2 Hi Hnl Hnpr. zlia. }
        split.
        { intros Hge. simpl in Hge. lia. }
        { intros _. done. }
Qed.
End create_tables_run.

(** ** The whole call *)

Lemma capacity_gives_slots listlen regionsize :
  0 <= listlen <= UINT_MAX → 0 <= regionsize <= UINT_MAX →
  MM_NPAGES regionsize <= to_uint (Z.shiftl listlen (20 - MM_PGSHIFT)) →
  nlist_of (MM_NPAGES regionsize) <= listlen
  ∧ to_uint (MM_NPAGES regionsize) = MM_NPAGES regionsize
  ∧ to_int (MM_NPAGES regionsize) = MM_NPAGES regionsize
  ∧ 0 <= MM_NPAGES regionsize
  ∧ regionsize <= listlen * ENTRIES_PER_L2TABLE * MM_PGSIZE.
Proof.
  intros Hl Hr. rewrite Z.shiftl_mul_pow2 by (unfold MM_PGSHIFT; lia).
  change (2 ^ (20 - MM_PGSHIFT)) with 256. intros Hcap. zlia.
Qed.

Lemma create_region_run listlen vaddr regionsize mmuflags st :
  0 <= listlen <= UINT_MAX → 0 <= regionsize <= UINT_MAX →
  Z.of_nat (length (table_list st)) = listlen →
  MM_NPAGES regionsize <= to_uint (Z.shiftl listlen (20 - MM_PGSHIFT)) →
  Forall (λ p, p ≠ 0) (page_source st) →
  ∃ r st' built new,
    arm_addrenv_create_region listlen vaddr regionsize mmuflags st = Returned r st'
    ∧ trace st' = trace st ++ new
    ∧ length (table_list st') = length (table_list st)
    ∧ table_list st' = (fst <$> built) ++ drop (length built) (table_list st)
    ∧ page_source st = flat built ++ page_source st'
    ∧ allocated_pages new = flat built
    ∧ published_tables new = fst <$> built
    ∧ mapped_by new = concat (snd <$> built)
    ∧ (NoDup (page_source st) → Forall (table_holds mmuflags st') built)
    ∧ (nlist_of (MM_NPAGES regionsize) + MM_NPAGES regionsize
         <= Z.of_nat (length (page_source st)) →
       r = MM_NPAGES regionsize
       ∧ Z.of_nat (length built) = nlist_of (MM_NPAGES regionsize)
       ∧ Z.of_nat (length (flat built))
         = nlist_of (MM_NPAGES regionsize) + MM_NPAGES regionsize)
    ∧ (Z.of_nat (length (page_source st))
         < nlist_of (MM_NPAGES regionsize) + MM_NPAGES regionsize →
       r = - ENOMEM ∧ page_source st' = []).
Proof.
  intros Hl Hr Hlen Hcap Hnz.
  destruct (capacity_gives_slots listlen regionsize Hl Hr Hcap)
    as (Hslots & Hu & Hs & Hnp0 & _).
  unfold arm_addrenv_create_region. cbv zeta. rewrite Hu.
  rewrite decide_False by lia.
  destruct (create_tables_run regionsize mmuflags (MM_NPAGES regionsize) Hr eq_refl
              (Z.to_nat (nlist_of (MM_NPAGES regionsize))) 0 0 vaddr st)
    as (r & st' & built & new & Hrun & Htr & Hln & Htl & Hps & Hal & Hpub & Hmap & Hok & _
        & Hsucc & Hfail); try done.
  - pose proof (nlist_of_range (MM_NPAGES regionsize)). lia.
  - lia.
  - assert (Hleft : allocations_left (MM_NPAGES regionsize) 0
                    = nlist_of (MM_NPAGES regionsize) + MM_NPAGES regionsize).
    { unfold allocations_left. lia. }
    rewrite Hleft, Hs in *. rewrite Z.sub_0_r in Hsucc.
    exists r, st', built, new. rewrite Hrun. done.
Qed.


Lemma flat_tables_pages built : (fst <$> built) ++ concat (snd <$> built) ≡ₚ flat built.
Proof.
  induction built as [|[t pages] built IH]; [done|].
  rewrite flat_cons. simpl. rewrite <- IH.
  apply Permutation_cons; [done|].
  rewrite !app_assoc. apply Permutation_app_tail. apply Permutation_app_comm.
Qed.

Lemma freed_pages_app tr1 tr2 : freed_pages (tr1 ++ tr2) = freed_pages tr1 ++ freed_pages tr2.
Proof. apply omap_app. Qed.

Lemma freed_pages_fmap pages : freed_pages (EvFree <$> pages) = pages.
Proof. induction pages as [|p pages IH]; [done|]. simpl. f_equal. apply IH. Qed.

Lemma freed_pages_destroy_events keep mem slots :
  ∀ i, freed_pages (destroy_events keep mem i slots)
       = concat ((λ p, if decide (p = 0) then []
                       else (if keep then [] else mapped_pages (mem p)) ++ [p]) <$> slots).
Proof.
  induction slots as [|p slots IH]; intros i; [done|].
  simpl. rewrite freed_pages_app, IH. f_equal.
  destruct (decide (p = 0)); [done|].
  simpl. rewrite freed_pages_app. simpl. destruct keep; simpl; [done|].
  by rewrite freed_pages_fmap.
Qed.

Lemma freed_pages_null_slots (keep : bool) (mem : Z → list Z) (n : nat) :
  concat ((λ p, if decide (p = 0) then []
                else (if keep then [] else mapped_pages (mem p)) ++ [p]) <$> replicate n 0)
  = [].
Proof. induction n as [|n IH]; [done|]. simpl. exact IH. Qed.

Lemma freed_pages_built_keep (built : list (Z * list Z)) :
  Forall (λ p, p ≠ 0) (fst <$> built) →
  concat ((λ p : Z, if decide (p = 0) then [] else [] ++ [p]) <$> (fst <$> built))
  = fst <$> built.
Proof.
  induction built as [|[t pages] built IH]; intros Hnz; [done|].
  simpl in *. apply Forall_cons_1 in Hnz as [Ht Hnz].
  rewrite decide_False by done. simpl. f_equal. by apply IH.
Qed.

Lemma freed_pages_built mmuflags st built :
  valid_mmuflags mmuflags →
  Forall valid_page (flat built) →
  Forall (table_holds mmuflags st) built →
  concat ((λ p, if decide (p = 0) then [] else mapped_pages (memory st p) ++ [p])
            <$> (fst <$> built))
  ≡ₚ flat built.
Proof.
  intros Hfl. induction built as [|[t pages] built IH]; intros Hvalid Hok; [done|].
  rewrite flat_cons in *. simpl.
  apply Forall_cons_1 in Hvalid as [[Ht _] Hvalid].
  apply Forall_app in Hvalid as [Hpages Hvalid].
  apply Forall_cons_1 in Hok as [[Hlen Hperm] Hok]. simpl in *.
  rewrite decide_False by lia.
  rewrite IH by done.
  rewrite (mapped_pages_of_table mmuflags _ pages) by done.
  rewrite <- app_assoc. simpl. by rewrite <- Permutation_middle.
Qed.

Lemma built_tables_decode mmuflags st (built : list (Z * list Z)) :
  valid_mmuflags mmuflags →
  Forall valid_page (flat built) →
  Forall (table_holds mmuflags st) built →
  concat ((λ t, mapped_pages (memory st t)) <$> (fst <$> built))
  ≡ₚ concat (snd <$> built).
Proof.
  intros Hfl. induction built as [|[t pages] built IH]; intros Hvalid Hok; [done|].
  rewrite flat_cons in Hvalid.
  apply Forall_cons_1 in Hvalid as [_ Hvalid].
  apply Forall_app in Hvalid as [Hpages Hvalid].
  apply Forall_cons_1 in Hok as [[Hlen Hperm] Hok]. simpl in Hlen, Hperm.
  rewrite !fmap_cons. cbn [concat fst snd].
  rewrite IH by done.
  by rewrite (mapped_pages_of_table mmuflags _ pages) by done.
Qed.



(** * Tearing down what was built *)

Lemma null_list_replicate (l : list Z) :
  Forall (λ p, p = 0) l → l = replicate (length l) 0.
Proof. induction 1 as [|p l -> _ IH]; [done|]. simpl. by rewrite <- IH. Qed.

Lemma destroy_region_built listlen vaddr keep st (built : list (Z * list Z)) n :
  listlen <= INT_MAX →
  Z.of_nat (length (table_list st)) = listlen →
  table_list st = (fst <$> built) ++ replicate n 0 →
  ∃ st' del,
    arm_addrenv_destroy_region listlen vaddr keep st = Returned tt st'
    ∧ trace st' = trace st ++ del
    ∧ freed_pages del
      = concat ((λ p, if decide (p = 0) then []
                      else (if keep then [] else mapped_pages (memory st p)) ++ [p])
                  <$> (fst <$> built))
    ∧ table_list st' = replicate (Z.to_nat listlen) 0.
Proof.
  intros Hmax Hlen Hlist. unfold arm_addrenv_destroy_region.
  rewrite destroy_tables_spec by (done || lia).
  change (Z.to_nat 0) with 0%nat. rewrite take_0, drop_0, Nat.sub_0_r.
  eexists _, _. split; [done|]. simpl. split; [done|]. split.
  - rewrite freed_pages_destroy_events, Hlist, fmap_app, concat_app.
    by rewrite freed_pages_null_slots, app_nil_r.
  - f_equal. lia.
Qed.

(** C3.  When the page source grants the pages [page_source st] and then
    returns the null sentinel before the region is complete,
    [arm_addrenv_create_region] returns [-ENOMEM] having consumed every granted
    page, as a leaf table or as a mapped data page; a following
    [arm_addrenv_destroy_region] with [keep = false] frees exactly those
    pages, data pages and leaf tables, and leaves every slot null. *)
Theorem create_nomem_then_destroy listlen vaddr vaddr' regionsize mmuflags st :
  0 <= listlen <= INT_MAX → 0 <= regionsize <= UINT_MAX →
  Z.of_nat (length (table_list st)) = listlen →
  Forall (λ p, p = 0) (table_list st) →
  MM_NPAGES regionsize <= to_uint (Z.shiftl listlen (20 - MM_PGSHIFT)) →
  valid_mmuflags mmuflags →
  Forall valid_page (page_source st) → NoDup (page_source st) →
  Z.of_nat (length (page_source st))
    < nlist_of (MM_NPAGES regionsize) + MM_NPAGES regionsize →
  ∃ st1 new st2 del,
    arm_addrenv_create_region listlen vaddr regionsize mmuflags st
    = Returned (- ENOMEM) st1
    ∧ trace st1 = trace st ++ new
    ∧ allocated_pages new = page_source st
    ∧ published_tables new ++ mapped_by new ≡ₚ page_source st
    ∧ arm_addrenv_destroy_region listlen vaddr' false st1 = Returned tt st2
    ∧ trace st2 = trace st1 ++ del
    ∧ freed_pages del ≡ₚ published_tables new ++ mapped_by new
    ∧ table_list st2 = replicate (Z.to_nat listlen) 0.
Proof.
  intros Hl Hr Hlen Hnull Hcap Hfl Hvalid Hnd Hshort.
  assert (Hnz : Forall (λ p, p ≠ 0) (page_source st)).
  { eapply Forall_impl; [exact Hvalid|]. intros p [Hp _]. simpl. lia. }
  destruct (create_region_run listlen vaddr regionsize mmuflags st)
    as (r & st1 & built & new & Hrun & Htr & Hln & Htl & Hps & Hal & Hpub & Hmap & Hok & _
        & Hfail); try done.
  { unfold INT_MAX, UINT_MAX in *. lia. }
  destruct (Hfail Hshort) as [-> Hempty].
  rewrite Hempty, app_nil_r in Hps.
  rewrite (null_list_replicate _ Hnull), drop_replicate in Htl.
  destruct (destroy_region_built listlen vaddr' false st1 built _ (proj2 Hl)
              ltac:(by rewrite Hln) Htl)
    as (st2 & del & Hdes & Htr2 & Hfreed & Htl2).
  exists st1, new, st2, del.
  split; [done|]. split; [done|]. split; [by rewrite Hal, Hps|].
  split; [by rewrite Hpub, Hmap, Hps, flat_tables_pages|].
  split; [done|]. split; [done|]. split; [|done].
  rewrite Hfreed, Hpub, Hmap, flat_tables_pages.
  apply (freed_pages_built mmuflags); [done|by rewrite <- Hps|by apply Hok].
Qed.

(** C5.  After a successful [arm_addrenv_create_region],
    [arm_addrenv_destroy_region] with [keep = true] frees the leaf tables, all
    of them and nothing else: none of the mapped data pages is freed, and
    every slot of the table list is null again. *)
Theorem create_then_destroy_keep listlen vaddr vaddr' regionsize mmuflags st :
  0 <= listlen <= INT_MAX → 0 <= regionsize <= UINT_MAX →
  Z.of_nat (length (table_list st)) = listlen →
  Forall (λ p, p = 0) (table_list st) →
  MM_NPAGES regionsize <= to_uint (Z.shiftl listlen (20 - MM_PGSHIFT)) →
  Forall (λ p, p ≠ 0) (page_source st) → NoDup (page_source st) →
  nlist_of (MM_NPAGES regionsize) + MM_NPAGES regionsize
    <= Z.of_nat (length (page_source st)) →
  ∃ st1 new st2 del,
    arm_addrenv_create_region listlen vaddr regionsize mmuflags st
    = Returned (MM_NPAGES regionsize) st1
    ∧ trace st1 = trace st ++ new
    ∧ arm_addrenv_destroy_region listlen vaddr' true st1 = Returned tt st2
    ∧ trace st2 = trace st1 ++ del
    ∧ freed_pages del = published_tables new
    ∧ Z.of_nat (length (published_tables new)) = nlist_of (MM_NPAGES regionsize)
    ∧ Forall (λ p, p ∉ freed_pages del) (mapped_by new)
    ∧ table_list st2 = replicate (Z.to_nat listlen) 0.
Proof.
  intros Hl Hr Hlen Hnull Hcap Hnz Hnd Henough.
  destruct (create_region_run listlen vaddr regionsize mmuflags st)
    as (r & st1 & built & new & Hrun & Htr & Hln & Htl & Hps & Hal & Hpub & Hmap & _
        & Hsucc & _); try done.
  { unfold INT_MAX, UINT_MAX in *. lia. }
  destruct (Hsucc Henough) as (-> & Hbuilt & _).
  rewrite (null_list_replicate _ Hnull), drop_replicate in Htl.
  destruct (destroy_region_built listlen vaddr' true st1 built _ (proj2 Hl)
              ltac:(by rewrite Hln) Htl)
    as (st2 & del & Hdes & Htr2 & Hfreed & Htl2).
  assert (Htabs : Forall (λ p, p ≠ 0) (fst <$> built)).
  { apply Forall_forall. intros t Hin%elem_of_flat_table.
    rewrite Forall_forall in Hnz. apply Hnz.
    rewrite Hps. apply elem_of_app. by left. }
  rewrite freed_pages_built_keep in Hfreed by done.
  exists st1, new, st2, del.
  split; [done|]. split; [done|]. split; [done|]. split; [done|].
  split; [by rewrite Hfreed, Hpub|].
  split; [by rewrite Hpub, length_fmap|].
  split; [|done].
  rewrite Hfreed, Hmap.
  assert (Hnd' : NoDup ((fst <$> built) ++ concat (snd <$> built))).
  { rewrite flat_tables_pages. rewrite Hps in Hnd. by apply NoDup_app in Hnd as [? _]. }
  apply NoDup_app in Hnd' as (_ & Hdisj & _).
  apply Forall_forall. intros p Hp Ht. by apply (Hdisj p).
Qed.

Lemma create_nomem_then_destroy_witness :
  (0 <= 2 <= INT_MAX ∧ 0 <= 12288 <= UINT_MAX
   ∧ Z.of_nat (length (table_list
       (Machine [0; 0] (λ _, []) [0x10000; 0x11000; 0x12000] []))) = 2
   ∧ Forall (λ p, p = 0) [0; 0]
   ∧ MM_NPAGES 12288 <= to_uint (Z.shiftl 2 (20 - MM_PGSHIFT))
   ∧ valid_mmuflags 0x55e
   ∧ Forall valid_page [0x10000; 0x11000; 0x12000]
   ∧ NoDup [0x10000; 0x11000; 0x12000]
   ∧ Z.of_nat 3 < nlist_of (MM_NPAGES 12288) + MM_NPAGES 12288)
  ∧ ∃ st1 new st2 del,
      arm_addrenv_create_region 2 0x200000 12288 0x55e
        (Machine [0; 0] (λ _, []) [0x10000; 0x11000; 0x12000] [])
      = Returned (- ENOMEM) st1
      ∧ trace st1 = [] ++ new
      ∧ allocated_pages new = [0x10000; 0x11000; 0x12000]
      ∧ published_tables new ++ mapped_by new ≡ₚ [0x10000; 0x11000; 0x12000]
      ∧ arm_addrenv_destroy_region 2 0 false st1 = Returned tt st2
      ∧ trace st2 = trace st1 ++ del
      ∧ freed_pages del ≡ₚ published_tables new ++ mapped_by new
      ∧ table_list st2 = replicate (Z.to_nat 2) 0.
Proof.
  assert (H1 : 0 <= 2 <= INT_MAX) by (unfold INT_MAX; lia).
  assert (H2 : 0 <= 12288 <= UINT_MAX) by (unfold UINT_MAX; lia).
  assert (H3 : Z.of_nat (length (table_list
       (Machine [0; 0] (λ _, []) [0x10000; 0x11000; 0x12000] []))) = 2) by reflexivity.
  assert (H4 : Forall (λ p, p = 0) [0; 0]) by (repeat constructor).
  assert (H5 : MM_NPAGES 12288 <= to_uint (Z.shiftl 2 (20 - MM_PGSHIFT)))
    by (vm_compute; discriminate).
  assert (H6 : valid_mmuflags 0x55e) by (split; [unfold UINT_MAX; lia | reflexivity]).
  assert (H7 : Forall valid_page [0x10000; 0x11000; 0x12000])
    by (repeat constructor; unfold UINT_MAX; lia).
  assert (H8 : NoDup [0x10000; 0x11000; 0x12000])
    by (apply (bool_decide_unpack _); vm_compute; exact I).
  assert (H9 : Z.of_nat 3 < nlist_of (MM_NPAGES 12288) + MM_NPAGES 12288)
    by (vm_compute; reflexivity).
  split; [done|].
  exact (create_nomem_then_destroy 2 0x200000 0 12288 0x55e _ H1 H2 H3 H4 H5 H6 H7 H8 H9).
Defined.

Lemma create_then_destroy_keep_witness :
  (0 <= 2 <= INT_MAX ∧ 0 <= 8193 <= UINT_MAX
   ∧ Z.of_nat (length (table_list
       (Machine [0; 0] (λ _, []) [0x10000; 0x11000; 0x12000; 0x13000] []))) = 2
   ∧ Forall (λ p, p = 0) [0; 0]
   ∧ MM_NPAGES 8193 <= to_uint (Z.shiftl 2 (20 - MM_PGSHIFT))
   ∧ Forall (λ p, p ≠ 0) [0x10000; 0x11000; 0x12000; 0x13000]
   ∧ NoDup [0x10000; 0x11000; 0x12000; 0x13000]
   ∧ nlist_of (MM_NPAGES 8193) + MM_NPAGES 8193 <= Z.of_nat 4)
  ∧ ∃ st1 new st2 del,
      arm_addrenv_create_region 2 0x200000 8193 0x55e
        (Machine [0; 0] (λ _, []) [0x10000; 0x11000; 0x12000; 0x13000] [])
      = Returned (MM_NPAGES 8193) st1
      ∧ trace st1 = [] ++ new
      ∧ arm_addrenv_destroy_region 2 0 true st1 = Returned tt st2
      ∧ trace st2 = trace st1 ++ del
      ∧ freed_pages del = published_tables new
      ∧ Z.of_nat (length (published_tables new)) = nlist_of (MM_NPAGES 8193)
      ∧ Forall (λ p, p ∉ freed_pages del) (mapped_by new)
      ∧ table_list st2 = replicate (Z.to_nat 2) 0.
Proof.
  assert (H1 : 0 <= 2 <= INT_MAX) by (unfold INT_MAX; lia).
  assert (H2 : 0 <= 8193 <= UINT_MAX) by (unfold UINT_MAX; lia).
  assert (H3 : Z.of_nat (length (table_list
       (Machine [0; 0] (λ _, []) [0x10000; 0x11000; 0x12000; 0x13000] []))) = 2)
    by reflexivity.
  assert (H4 : Forall (λ p, p = 0) [0; 0]) by (repeat constructor).
  assert (H5 : MM_NPAGES 8193 <= to_uint (Z.shiftl 2 (20 - MM_PGSHIFT)))
    by (vm_compute; discriminate).
  assert (H6 : Forall (λ p, p ≠ 0) [0x10000; 0x11000; 0x12000; 0x13000])
    by (repeat constructor; discriminate).
  assert (H7 : NoDup [0x10000; 0x11000; 0x12000; 0x13000])
    by (apply (bool_decide_unpack _); vm_compute; exact I).
  assert (H8 : nlist_of (MM_NPAGES 8193) + MM_NPAGES 8193 <= Z.of_nat 4)
    by (vm_compute; discriminate).
  split; [done|].
  exact (create_then_destroy_keep 2 0x200000 0 8193 0x55e _ H1 H2 H3 H4 H5 H6 H7 H8).
Defined.

(** * The order of events in a call, and the slots it writes *)

Lemma mm_pgalloc_effects st :
  table_list (mm_pgalloc st).2 = table_list st
  ∧ trace (mm_pgalloc st).2 = trace st ++ [EvAlloc (mm_pgalloc st).1].
Proof. unfold mm_pgalloc. by destruct (page_source st). Qed.

Lemma list_write_Some i v st st2 :
  list_write i v st = Some st2 →
  0 <= i < Z.of_nat (length (table_list st))
  ∧ table_list st2 = <[Z.to_nat i := v]> (table_list st)
  ∧ trace st2 = trace st ++ [EvSlot i v].
Proof.
  unfold list_write. destruct (decide _) as [Hi|]; [|done].
  intros [= <-]. done.
Qed.

Lemma fill_l2table_general l2table regionsize mmuflags j nmapped vaddr st :
  ∃ events,
    fill_trace l2table mmuflags vaddr events
    ∧ match fill_l2table l2table regionsize mmuflags j nmapped vaddr st with
      | Filled _ _ st' =>
          table_list st' = table_list st ∧ trace st' = trace st ++ events
      | NoMem st' =>
          table_list st' = table_list st
          ∧ trace st' = trace st ++ events ++ [EvAlloc 0; EvLeave]
      end.
Proof.
  apply (fill_l2table_rule l2table regionsize mmuflags
    (λ j nm v st r, ∃ events,
       fill_trace l2table mmuflags v events
       ∧ match r with
         | Filled _ _ st' =>
             table_list st' = table_list st ∧ trace st' = trace st ++ events
         | NoMem st' =>
             table_list st' = table_list st
             ∧ trace st' = trace st ++ events ++ [EvAlloc 0; EvLeave]
         end)).
  - intros j' nm v s _. exists []. split; [constructor|]. by rewrite app_nil_r.
  - intros j' nm v s _ _ Hz. exists []. split; [constructor|]. simpl.
    destruct (mm_pgalloc_effects s) as [Hl Ht]. rewrite Hl, Ht, Hz, <- app_assoc. done.
  - intros j' nm v s r _ _ Hnz (events & Hft & Hr).
    exists (EvAlloc (mm_pgalloc s).1 :: EvEntry l2table (mm_pgalloc s).1 v mmuflags :: events).
    split; [by constructor|].
    destruct (mm_pgalloc_effects s) as [Hl Ht].
    destruct r as [nm' v' st'|st']; destruct Hr as [Hrl Hrt]; simpl in Hrl, Hrt;
      rewrite Hrl, Hrt, Hl, Ht, <- !app_assoc; done.
Qed.

Lemma slots_written_fill_trace l2table mmuflags vaddr events :
  fill_trace l2table mmuflags vaddr events → slots_written events = [].
Proof. induction 1; [done|]. simpl. done. Qed.

Lemma slots_written_app tr1 tr2 :
  slots_written (tr1 ++ tr2) = slots_written tr1 ++ slots_written tr2.
Proof. apply omap_app. Qed.

Lemma last_two (l : list event) x y : last (l ++ [x; y]) = Some y.
Proof. change (l ++ [x; y]) with (l ++ [x] ++ [y]). by rewrite app_assoc, last_snoc. Qed.

Lemma create_tables_general npages regionsize mmuflags i nmapped vaddr st :
  0 <= i →
  create_frame npages mmuflags i st
    (create_tables npages regionsize mmuflags i nmapped vaddr st).
Proof.
  revert i nmapped vaddr st.
  apply (create_tables_rule npages regionsize mmuflags
           (λ i nm v st r, 0 <= i → create_frame npages mmuflags i st r)).
  - intros i nm v st Hstop Hi. exists []. rewrite app_nil_r. simpl.
    repeat split; try done; [constructor|lia].
  - intros i nm v st Hlt Hz Hi.
    destruct (mm_pgalloc_effects st) as [Hl Ht]. rewrite Hz in Ht.
    exists [EvAlloc 0]. simpl. rewrite Hl.
    repeat split; try done; [constructor|lia|lia].
  - done.
  - intros i nm v st st2 st5 Hlt Hnz Hwr Hfill Hi.
    destruct (mm_pgalloc_effects st) as [Hl Ht].
    destruct (list_write_Some _ _ _ _ Hwr) as (Hir & Hl2 & Ht2).
    destruct (fill_l2table_general (mm_pgalloc st).1 regionsize mmuflags 0 nm v
                (memset_l2table (mm_pgalloc st).1 (enter_critical_section st2)))
      as (events & Hft & Hr).
    rewrite Hfill in Hr. destruct Hr as [Hl5 Ht5]. simpl in Hl5, Ht5.
    exists ([EvAlloc (mm_pgalloc st).1; EvSlot i (mm_pgalloc st).1; EvEnter;
             EvZero (mm_pgalloc st).1] ++ events ++ [EvAlloc 0; EvLeave]).
    assert (Hsw : slots_written
                    ([EvAlloc (mm_pgalloc st).1; EvSlot i (mm_pgalloc st).1; EvEnter;
                      EvZero (mm_pgalloc st).1] ++ events ++ [EvAlloc 0; EvLeave]) = [i]).
    { rewrite !slots_written_app, (slots_written_fill_trace _ _ _ _ Hft). done. }
    rewrite Hsw. simpl length.
    split.
    { rewrite Ht5, Ht2, Ht, <- !app_assoc. done. }
    split; [by econstructor|].
    split; [by rewrite Hl5, Hl2, length_insert, Hl|].
    split; [lia|].
    split.
    { intros k Hk. rewrite Hl5, Hl2, Hl. apply list_lookup_insert_ne. lia. }
    { intros Hlast. exfalso.
      rewrite app_assoc, last_two in Hlast. done. }
  - intros i nm v st st2 nm' v' st5 r Hlt Hnz Hwr Hfill IH Hi.
    destruct (mm_pgalloc_effects st) as [Hl Ht].
    destruct (list_write_Some _ _ _ _ Hwr) as (Hir & Hl2 & Ht2).
    destruct (fill_l2table_general (mm_pgalloc st).1 regionsize mmuflags 0 nm v
                (memset_l2table (mm_pgalloc st).1 (enter_critical_section st2)))
      as (events & Hft & Hr).
    rewrite Hfill in Hr. destruct Hr as [Hl5 Ht5]. simpl in Hl5, Ht5.
    assert (Hnext : to_uint (i + 1) = i + 1).
    { pose proof (nlist_of_range npages). clear - Hlt Hi H. zlia. }
    rewrite Hnext in IH. specialize (IH ltac:(lia)).
    destruct r as [a st'|]; [|done].
    destruct IH as (new & Htr & Hct & Hlen & Hmax & Hframe & Hlast).
    simpl in Htr, Hlen, Hframe.
    exists ([EvAlloc (mm_pgalloc st).1; EvSlot i (mm_pgalloc st).1; EvEnter;
             EvZero (mm_pgalloc st).1] ++ events ++ [EvFlush (mm_pgalloc st).1; EvLeave]
              ++ new).
    assert (Hsw : slots_written
                    ([EvAlloc (mm_pgalloc st).1; EvSlot i (mm_pgalloc st).1; EvEnter;
                      EvZero (mm_pgalloc st).1] ++ events
                       ++ [EvFlush (mm_pgalloc st).1; EvLeave] ++ new)
                  = i :: slots_written new).
    { rewrite !slots_written_app, (slots_written_fill_trace _ _ _ _ Hft). done. }
    rewrite Hsw. simpl length.
    split.
    { rewrite Htr, Ht5, Ht2, Ht, <- !app_assoc. done. }
    split; [by econstructor|].
    split; [by rewrite Hlen, Hl5, Hl2, length_insert, Hl|].
    split; [lia|].
    split.
    { intros k Hk. rewrite Hframe by lia. rewrite Hl5, Hl2, Hl.
      apply list_lookup_insert_ne. lia. }
    { intros Hlast'.
      destruct new as [|e new].
      - exfalso. rewrite app_nil_r, app_assoc, last_two in Hlast'. done.
      - rewrite !app_assoc, last_app_cons in Hlast'.
        destruct (Hlast Hlast') as [-> Hlt']. split; [done|]. lia. }
Qed.

Lemma create_trace_slots mmuflags i new :
  create_trace mmuflags i new →
  slots_written new = seqZ i (Z.of_nat (length (slots_written new))).
Proof.
  induction 1 as [i|i|i t v events Ht Hft|i t v events rest Ht Hft Hct IH].
  - done.
  - done.
  - rewrite !slots_written_app, (slots_written_fill_trace _ _ _ _ Hft). simpl.
    rewrite seqZ_cons by lia. by rewrite seqZ_nil by lia.
  - rewrite !slots_written_app, (slots_written_fill_trace _ _ _ _ Hft). simpl.
    rewrite seqZ_cons by lia. f_equal. rewrite IH at 1. f_equal; lia.
Qed.

(** A call whose table list has room for [nlist] slots never leaves the
    array. *)
Lemma create_tables_no_fault npages regionsize mmuflags i nmapped vaddr st :
  0 <= i → nlist_of npages <= Z.of_nat (length (table_list st)) →
  create_tables npages regionsize mmuflags i nmapped vaddr st ≠ Fault.
Proof.
  revert i nmapped vaddr st.
  apply (create_tables_rule npages regionsize mmuflags
           (λ i nm v st r,
              0 <= i → nlist_of npages <= Z.of_nat (length (table_list st)) → r ≠ Fault)).
  - done.
  - done.
  - intros i nm v st Hlt Hnz Hwr Hi Hroom. exfalso.
    destruct (mm_pgalloc_effects st) as [Hl _].
    unfold list_write in Hwr. rewrite Hl, decide_True in Hwr by lia. done.
  - done.
  - intros i nm v st st2 nm' v' st5 r Hlt Hnz Hwr Hfill IH Hi Hroom.
    destruct (mm_pgalloc_effects st) as [Hl _].
    destruct (list_write_Some _ _ _ _ Hwr) as (_ & Hl2 & _).
    destruct (fill_l2table_general (mm_pgalloc st).1 regionsize mmuflags 0 nm v
                (memset_l2table (mm_pgalloc st).1 (enter_critical_section st2)))
      as (events & _ & Hr).
    rewrite Hfill in Hr. destruct Hr as [Hl5 _]. simpl in Hl5.
    apply IH.
    + pose proof (nlist_of_range npages) as Hnl. clear - Hlt Hi Hnl. zlia.
    + simpl. by rewrite Hl5, Hl2, length_insert, Hl.
Qed.

Lemma capacity_gives_room listlen npages :
  0 <= listlen →
  ¬ to_uint npages > to_uint (Z.shiftl listlen (20 - MM_PGSHIFT)) →
  nlist_of (to_uint npages) <= listlen.
Proof.
  intros Hl. rewrite Z.shiftl_mul_pow2 by (unfold MM_PGSHIFT; lia).
  change (2 ^ (20 - MM_PGSHIFT)) with 256. intros Hcap. zlia.
Qed.




(** ** A failed leaf-table allocation *)

Lemma slots_written_fill_events l2table mmuflags pages :
  ∀ vaddr, slots_written (fill_events l2table mmuflags vaddr pages) = [].
Proof. induction pages as [|p pages IH]; intros v; [done|]. simpl. apply IH. Qed.

Section table_allocation_fails.
Variables regionsize mmuflags npages : Z.
Hypothesis Hrs : 0 <= regionsize <= UINT_MAX.
Hypothesis Hnp : npages = MM_NPAGES regionsize.

(** The page source grants the pages of [k] full leaf tables, each table
    page followed by its [ENTRIES_PER_L2TABLE] data pages, and refuses the
    next request, which is the one for the leaf table of slot [i + k]. *)
Lemma create_tables_table_nomem (k : nat) :
  ∀ i nmapped vaddr st granted refused,
    0 <= i → i + Z.of_nat k < nlist_of npages →
    nmapped = MM_PGSIZE * ENTRIES_PER_L2TABLE * i →
    nlist_of npages <= Z.of_nat (length (table_list st)) →
    page_source st = granted ++ refused →
    Z.of_nat (length granted) = Z.of_nat k * (1 + ENTRIES_PER_L2TABLE) →
    Forall (λ p, p ≠ 0) granted →
    head refused = None ∨ head refused = Some 0 →
    ∃ st' new,
      create_tables npages regionsize mmuflags i nmapped vaddr st = Returned (- ENOMEM) st'
      ∧ trace st' = trace st ++ new
      ∧ slots_written new = seqZ i (Z.of_nat k)
      ∧ length (table_list st') = length (table_list st)
      ∧ ∀ j : nat, i + Z.of_nat k <= Z.of_nat j →
          table_list st' !! j = table_list st !! j.
Proof.
  pose proof (npages_range regionsize npages Hrs Hnp) as Hnpr.
  pose proof (nlist_of_spec regionsize npages Hrs Hnp) as Hnl.
  induction k as [|k IH];
    intros i nm v st granted refused Hi Hlt Hnm Hlist Hsrc Hlen Hnz Hbad.
  - destruct granted; [|simpl in Hlen; lia]. simpl in Hsrc.
    rewrite create_tables_equation_1, decide_True by lia.
    assert (Hz : (mm_pgalloc st).1 = 0).
    { unfold mm_pgalloc. rewrite Hsrc. destruct refused as [|p rest]; [done|].
      destruct Hbad as [Hb|Hb]; [done|]. by injection Hb as ->. }
    destruct (mm_pgalloc_effects st) as [Hl Ht].
    destruct (mm_pgalloc st) as [paddr st1]. simpl in Hz, Hl, Ht. subst paddr.
    rewrite decide_True by done.
    exists st1, [EvAlloc 0]. split; [done|]. split; [done|]. split; [done|].
    split; [by rewrite Hl|]. intros j _. by rewrite Hl.
  - unfold ENTRIES_PER_L2TABLE in Hlen.
    destruct granted as [|t granted]; [simpl in Hlen; lia|].
    apply Forall_cons_1 in Hnz as [Ht Hnz]. simpl in Hsrc.
    assert (Hlen' : Z.of_nat (length granted)
                    = ENTRIES_PER_L2TABLE + Z.of_nat k * (1 + ENTRIES_PER_L2TABLE)).
    { simpl length in Hlen. unfold ENTRIES_PER_L2TABLE. lia. }
    set (m := Z.to_nat ENTRIES_PER_L2TABLE).
    assert (Hm : Z.of_nat m = ENTRIES_PER_L2TABLE) by done.
    assert (Hpages : length (take m granted) = m).
    { rewrite length_take. unfold ENTRIES_PER_L2TABLE in *. lia. }
    rewrite create_tables_equation_1, decide_True by lia.
    rewrite (mm_pgalloc_cons t (granted ++ refused)) by done.
    rewrite decide_False by done.
    unfold list_write. simpl table_list. rewrite decide_True by lia.
    cbv zeta.
    match goal with |- context [fill_l2table _ _ _ _ _ _ ?s] => set (st4 := s) end.
    assert (Hst4 : table_list st4 = <[Z.to_nat i := t]> (table_list st)
                   ∧ page_source st4 = granted ++ refused
                   ∧ trace st4 = trace st ++ [EvAlloc t; EvSlot i t; EvEnter; EvZero t]).
    { subst st4. simpl. rewrite <- !app_assoc. done. }
    destruct Hst4 as (Hl4 & Hs4 & Ht4).
    assert (Hnmr : 0 <= nm <= UINT_MAX) by (clear - Hnm Hlt Hi Hnl Hnpr; zlia).
    destruct (fill_l2table_filled t regionsize mmuflags (take m granted) 0 nm v st4
                (drop m granted ++ refused))
      as (st5 & Hrun & Hl5 & Hs5 & Ht5 & _).
    { by rewrite Hs4, app_assoc, take_drop. }
    { by apply Forall_take. }
    { done. }
    { done. }
    { lia. }
    { rewrite Hpages. lia. }
    { intros d Hd. rewrite Hpages in Hd. rewrite Hnm.
      pose proof (below_npages regionsize npages Hnp (ENTRIES_PER_L2TABLE * i + d)) as Hb.
      assert (ENTRIES_PER_L2TABLE * i + d < npages)
        by (clear - Hd Hm Hlt Hi Hnl Hnpr; zlia).
      unfold ENTRIES_PER_L2TABLE in *. lia. }
    { left. rewrite Hpages. lia. }
    rewrite Hrun, Hpages.
    match goal with |- context [create_tables _ _ _ _ _ _ ?s] => set (st6 := s) end.
    assert (Hst6 : table_list st6 = <[Z.to_nat i := t]> (table_list st)
                   ∧ page_source st6 = drop m granted ++ refused
                   ∧ trace st6 = trace st ++ [EvAlloc t; EvSlot i t; EvEnter; EvZero t]
                                   ++ fill_events t mmuflags v (take m granted)
                                   ++ [EvFlush t; EvLeave]).
    { subst st6. simpl. rewrite Hl5, Hs5, Ht5, Hl4, Ht4, <- !app_assoc. done. }
    destruct Hst6 as (Hl6 & Hs6 & Ht6).
    assert (to_uint (i + 1) = i + 1) as -> by (clear - Hlt Hi Hnl Hnpr; zlia).
    destruct (IH (i + 1) (to_uint (nm + MM_PGSIZE * Z.of_nat m)) (advance v m) st6
                (drop m granted) refused)
      as (st' & new & Hcr & Htr & Hsw & Hln & Hfr).
    { lia. }
    { lia. }
    { rewrite Hnm, Hm. clear - Hlt Hi Hnl Hnpr. zlia. }
    { by rewrite Hl6, length_insert. }
    { done. }
    { rewrite length_drop. lia. }
    { by apply Forall_drop. }
    { done. }
    exists st', ([EvAlloc t; EvSlot i t; EvEnter; EvZero t]
                   ++ fill_events t mmuflags v (take m granted)
                   ++ [EvFlush t; EvLeave] ++ new).
    split; [done|]. split.
    { rewrite Htr, Ht6, <- !app_assoc. done. }
    split.
    { rewrite !slots_written_app, slots_written_fill_events, Hsw. simpl.
      rewrite (seqZ_cons i) by lia. f_equal. f_equal; lia. }
    split.
    { by rewrite Hln, Hl6, length_insert. }
    intros j Hj. rewrite Hfr by lia. rewrite Hl6.
    apply list_lookup_insert_ne. lia.
Qed.
End table_allocation_fails.

(** C9.  A call of [arm_addrenv_create_region] on a table list of [listlen]
    slots returns, having written the slots [0 .. m - 1] of the table list,
    in order, for some [m <= nlist] where
    [nlist = ceil(ceil(regionsize / pagesize) / ENTRIES_PER_L2TABLE)], computed
    as the code does; every slot from [m] on, in particular every slot at
    index [nlist] or beyond, is left unchanged.  When the allocation of the
    leaf-table page for a slot [i < nlist] fails, that is when the call
    passes its capacity check and the page source grants the pages of the
    [i] full leaf tables before it (each table page and its
    [ENTRIES_PER_L2TABLE] data pages) and refuses the next request, then the
    call returns [-ENOMEM] having written the slots before [i] only: slot [i]
    is left unchanged. *)
Theorem create_region_frame listlen vaddr regionsize mmuflags st :
  Z.of_nat (length (table_list st)) = listlen →
  ∃ a st' new m,
    arm_addrenv_create_region listlen vaddr regionsize mmuflags st = Returned a st'
    ∧ trace st' = trace st ++ new
    ∧ slots_written new = seqZ 0 m
    ∧ 0 <= m <= nlist_of (to_uint (MM_NPAGES regionsize))
    ∧ length (table_list st') = length (table_list st)
    ∧ (∀ k : nat, m <= Z.of_nat k → table_list st' !! k = table_list st !! k)
    ∧ (∀ i granted refused,
         0 <= regionsize <= UINT_MAX →
         MM_NPAGES regionsize <= to_uint (Z.shiftl listlen (20 - MM_PGSHIFT)) →
         0 <= i < nlist_of (MM_NPAGES regionsize) →
         page_source st = granted ++ refused →
         Z.of_nat (length granted) = i * (1 + ENTRIES_PER_L2TABLE) →
         Forall (λ p, p ≠ 0) granted →
         head refused = None ∨ head refused = Some 0 →
         a = - ENOMEM ∧ m = i
         ∧ table_list st' !! Z.to_nat i = table_list st !! Z.to_nat i).
Proof.
  intros Hlen.
  pose proof (nlist_of_range (to_uint (MM_NPAGES regionsize))) as Hnl.
  unfold arm_addrenv_create_region. cbv zeta.
  destruct (decide _) as [Hbig|Hfit].
  - exists (- E2BIG), st, [], 0. rewrite app_nil_r.
    split; [done|]. split; [done|]. split; [done|]. split; [lia|].
    split; [done|]. split; [done|].
    intros i granted refused Hrs Hcap. exfalso. clear - Hbig Hrs Hcap.
    assert (to_uint (MM_NPAGES regionsize) = MM_NPAGES regionsize) as Hu by zlia.
    rewrite Hu in Hbig. lia.
  - pose proof (create_tables_general (to_uint (MM_NPAGES regionsize)) regionsize mmuflags
                  0 0 vaddr st ltac:(lia)) as Hgen.
    pose proof (create_tables_no_fault (to_uint (MM_NPAGES regionsize)) regionsize mmuflags
                  0 0 vaddr st ltac:(lia)) as Hret.
    destruct (create_tables _ _ _ _ _ _ _) as [a st'|] eqn:Hrun.
    + destruct Hgen as (new & Htr & Hct & Hlen' & Hmax & Hframe & _).
      exists a, st', new, (Z.of_nat (length (slots_written new))).
      split; [done|]. split; [done|].
      split; [by apply (create_trace_slots mmuflags)|].
      split; [lia|]. split; [done|]. split.
      * intros k Hk. apply Hframe. lia.
      * intros i granted refused Hrs Hcap Hi Hsrc Hgr Hnz Hbad.
        assert (to_uint (MM_NPAGES regionsize) = MM_NPAGES regionsize) as Hu
          by (clear - Hrs; zlia).
        rewrite Hu in Hrun, Hfit.
        assert (nlist_of (MM_NPAGES regionsize) <= Z.of_nat (length (table_list st)))
          as Hroom.
        { rewrite Hlen, <- Hu. apply capacity_gives_room; [lia|]. by rewrite Hu. }
        assert (0 + Z.of_nat (Z.to_nat i) < nlist_of (MM_NPAGES regionsize)) as Hbelow by lia.
        assert (0 = MM_PGSIZE * ENTRIES_PER_L2TABLE * 0) as Hstart by lia.
        assert (Z.of_nat (length granted)
                = Z.of_nat (Z.to_nat i) * (1 + ENTRIES_PER_L2TABLE)) as Hgr'
          by (rewrite Z2Nat.id by lia; exact Hgr).
        destruct (create_tables_table_nomem regionsize mmuflags (MM_NPAGES regionsize)
                    Hrs eq_refl (Z.to_nat i) 0 0 vaddr st granted refused
                    (Z.le_refl 0) Hbelow Hstart Hroom Hsrc Hgr' Hnz Hbad)
          as (st2 & new2 & Hrun2 & Htr2 & Hsw2 & _ & _).
        rewrite Hrun in Hrun2. injection Hrun2 as -> <-.
        rewrite Htr in Htr2. apply app_inv_head in Htr2 as ->.
        rewrite Hsw2, length_seqZ. rewrite !Z2Nat.id by lia.
        split; [done|]. split; [done|].
        apply Hframe. rewrite Hsw2, length_seqZ. lia.
    + exfalso. apply Hret; [|done]. rewrite Hlen. apply capacity_gives_room; [lia|done].
Qed.

Lemma create_region_frame_witness :
  (Z.of_nat (length (table_list
      (Machine [0x5000; 0x7000; 0x8000] (λ _, [])
         ((λ k, 0x100000 + 4096 * k) <$> seqZ 0 257) []))) = 3
   ∧ 0 <= 1052672 <= UINT_MAX
   ∧ MM_NPAGES 1052672 <= to_uint (Z.shiftl 3 (20 - MM_PGSHIFT))
   ∧ 0 <= 1 < nlist_of (MM_NPAGES 1052672)
   ∧ (λ k, 0x100000 + 4096 * k) <$> seqZ 0 257
     = ((λ k, 0x100000 + 4096 * k) <$> seqZ 0 257) ++ []
   ∧ Z.of_nat (length ((λ k, 0x100000 + 4096 * k) <$> seqZ 0 257))
     = 1 * (1 + ENTRIES_PER_L2TABLE)
   ∧ Forall (λ p, p ≠ 0) ((λ k, 0x100000 + 4096 * k) <$> seqZ 0 257)
   ∧ (head (@nil Z) = None ∨ head (@nil Z) = Some 0))
  ∧ ∃ a st' new m,
      arm_addrenv_create_region 3 0x200000 1052672 0x55e
        (Machine [0x5000; 0x7000; 0x8000] (λ _, [])
           ((λ k, 0x100000 + 4096 * k) <$> seqZ 0 257) [])
      = Returned a st'
      ∧ trace st' = [] ++ new
      ∧ slots_written new = seqZ 0 m
      ∧ 0 <= m <= nlist_of (to_uint (MM_NPAGES 1052672))
      ∧ length (table_list st') = 3%nat
      ∧ (∀ k : nat, m <= Z.of_nat k →
           table_list st' !! k = [0x5000; 0x7000; 0x8000] !! k)
      ∧ a = - ENOMEM ∧ m = 1
      ∧ table_list st' !! Z.to_nat 1 = Some 0x7000.
Proof.
  assert (H1 : Z.of_nat (length (table_list
      (Machine [0x5000; 0x7000; 0x8000] (λ _, [])
         ((λ k, 0x100000 + 4096 * k) <$> seqZ 0 257) []))) = 3) by reflexivity.
  assert (H2 : 0 <= 1052672 <= UINT_MAX) by (unfold UINT_MAX; lia).
  assert (H3 : MM_NPAGES 1052672 <= to_uint (Z.shiftl 3 (20 - MM_PGSHIFT)))
    by (vm_compute; discriminate).
  assert (H4 : 0 <= 1 < nlist_of (MM_NPAGES 1052672)) by (vm_compute; split; [discriminate|reflexivity]).
  assert (H5 : (λ k, 0x100000 + 4096 * k) <$> seqZ 0 257
               = ((λ k, 0x100000 + 4096 * k) <$> seqZ 0 257) ++ [])
    by (symmetry; apply app_nil_r).
  assert (H6 : Z.of_nat (length ((λ k, 0x100000 + 4096 * k) <$> seqZ 0 257))
               = 1 * (1 + ENTRIES_PER_L2TABLE))
    by (rewrite length_fmap, length_seqZ; reflexivity).
  assert (H7 : Forall (λ p, p ≠ 0) ((λ k, 0x100000 + 4096 * k) <$> seqZ 0 257)).
  { apply Forall_fmap, Forall_forall. intros k Hk%elem_of_seqZ. simpl. lia. }
  assert (H8 : head (@nil Z) = None ∨ head (@nil Z) = Some 0) by (by left).
  split.
  { exact (conj H1 (conj H2 (conj H3 (conj H4 (conj H5 (conj H6 (conj H7 H8))))))). }
  destruct (create_region_frame 3 0x200000 1052672 0x55e _ H1)
    as (a & st' & new & m & Hrun & Htr & Hsw & Hm & Hlen & Hframe & Hfail).
  destruct (Hfail 1 _ [] H2 H3 H4 H5 H6 H7 H8) as (Ha & Hm1 & Hslot).
  exists a, st', new, m.
  exact (conj Hrun (conj Htr (conj Hsw (conj Hm (conj Hlen (conj Hframe
           (conj Ha (conj Hm1 Hslot)))))))).
Defined.

(** * The slot walk of the destructor, slot by slot *)






(** * Further properties of the region functions *)

(** ** The walk of [arm_addrenv_destroy_region] *)



(** ** What a successful call consumes and leaves behind *)



(** ** The leaf tables hold what was mapped *)

(** X3.  Whether the call succeeds or runs out of memory, the leaf tables it
    stored in the table list hold exactly the data pages it mapped: scanning
    the published tables and decoding their non-zero entries gives back the
    pages passed to [set_l2_entry], each once. *)
Theorem create_region_tables_decode listlen vaddr regionsize mmuflags st :
  0 <= listlen <= UINT_MAX → 0 <= regionsize <= UINT_MAX →
  Z.of_nat (length (table_list st)) = listlen →
  MM_NPAGES regionsize <= to_uint (Z.shiftl listlen (20 - MM_PGSHIFT)) →
  valid_mmuflags mmuflags →
  Forall valid_page (page_source st) → NoDup (page_source st) →
  ∃ a st' new,
    arm_addrenv_create_region listlen vaddr regionsize mmuflags st = Returned a st'
    ∧ trace st' = trace st ++ new
    ∧ concat ((λ t, mapped_pages (memory st' t)) <$> published_tables new)
      ≡ₚ mapped_by new.
Proof.
  intros Hl Hr Hlen Hcap Hfl Hvalid Hnd.
  assert (Hnz : Forall (λ p, p ≠ 0) (page_source st)).
  { eapply Forall_impl; [exact Hvalid|]. intros p [Hp _]. simpl. lia. }
  destruct (create_region_run listlen vaddr regionsize mmuflags st)
    as (r & st' & built & new & Hrun & Htr & _ & _ & Hps & _ & Hpub & Hmap & Hok & _);
    try done.
  exists r, st', new. split; [done|]. split; [done|].
  rewrite Hpub, Hmap. apply (built_tables_decode mmuflags); [done| |by apply Hok].
  rewrite Hps in Hvalid. by apply Forall_app in Hvalid as [? _].
Qed.

Lemma create_region_tables_decode_witness :
  (0 <= 2 <= UINT_MAX ∧ 0 <= 12288 <= UINT_MAX
   ∧ Z.of_nat (length (table_list
       (Machine [0; 0] (λ _, []) [0x10000; 0x11000; 0x12000] []))) = 2
   ∧ MM_NPAGES 12288 <= to_uint (Z.shiftl 2 (20 - MM_PGSHIFT))
   ∧ valid_mmuflags 0x55e
   ∧ Forall valid_page [0x10000; 0x11000; 0x12000]
   ∧ NoDup [0x10000; 0x11000; 0x12000])
  ∧ ∃ a st' new,
      arm_addrenv_create_region 2 0xff000 12288 0x55e
        (Machine [0; 0] (λ _, []) [0x10000; 0x11000; 0x12000] [])
      = Returned a st'
      ∧ trace st' = [] ++ new
      ∧ concat ((λ t, mapped_pages (memory st' t)) <$> published_tables new)
        ≡ₚ mapped_by new.
Proof.
  assert (H1 : 0 <= 2 <= UINT_MAX) by (unfold UINT_MAX; lia).
  assert (H2 : 0 <= 12288 <= UINT_MAX) by (unfold UINT_MAX; lia).
  assert (H3 : Z.of_nat (length (table_list
       (Machine [0; 0] (λ _, []) [0x10000; 0x11000; 0x12000] []))) = 2) by reflexivity.
  assert (H5 : MM_NPAGES 12288 <= to_uint (Z.shiftl 2 (20 - MM_PGSHIFT)))
    by (vm_compute; discriminate).
  assert (H6 : valid_mmuflags 0x55e) by (split; [unfold UINT_MAX; lia | reflexivity]).
  assert (H7 : Forall valid_page [0x10000; 0x11000; 0x12000])
    by (repeat constructor; unfold UINT_MAX; lia).
  assert (H8 : NoDup [0x10000; 0x11000; 0x12000])
    by (apply (bool_decide_unpack _); vm_compute; exact I).
  split; [done|].
  exact (create_region_tables_decode 2 0xff000 12288 0x55e _ H1 H2 H3 H5 H6 H7 H8).
Defined.

(** X4.  A successful call followed by [arm_addrenv_destroy_region] with
    [keep = false] gives back every page the call took from the page source,
    leaf tables and data pages alike, each once, and leaves every slot
    null: building and tearing down a region leaks nothing. *)
Theorem create_then_destroy_all listlen vaddr vaddr' regionsize mmuflags st :
  0 <= listlen <= INT_MAX → 0 <= regionsize <= UINT_MAX →
  Z.of_nat (length (table_list st)) = listlen →
  Forall (λ p, p = 0) (table_list st) →
  MM_NPAGES regionsize <= to_uint (Z.shiftl listlen (20 - MM_PGSHIFT)) →
  valid_mmuflags mmuflags →
  Forall valid_page (page_source st) → NoDup (page_source st) →
  nlist_of (MM_NPAGES regionsize) + MM_NPAGES regionsize
    <= Z.of_nat (length (page_source st)) →
  ∃ st1 new st2 del,
    arm_addrenv_create_region listlen vaddr regionsize mmuflags st
    = Returned (MM_NPAGES regionsize) st1
    ∧ trace st1 = trace st ++ new
    ∧ arm_addrenv_destroy_region listlen vaddr' false st1 = Returned tt st2
    ∧ trace st2 = trace st1 ++ del
    ∧ freed_pages del ≡ₚ allocated_pages new
    ∧ table_list st2 = replicate (Z.to_nat listlen) 0.
Proof.
  intros Hl Hr Hlen Hnull Hcap Hfl Hvalid Hnd Henough.
  assert (Hnz : Forall (λ p, p ≠ 0) (page_source st)).
  { eapply Forall_impl; [exact Hvalid|]. intros p [Hp _]. simpl. lia. }
  destruct (create_region_run listlen vaddr regionsize mmuflags st)
    as (r & st1 & built & new & Hrun & Htr & Hln & Htl & Hps & Hal & Hpub & Hmap & Hok
        & Hsucc & _); try done.
  { unfold INT_MAX, UINT_MAX in *. lia. }
  destruct (Hsucc Henough) as (-> & _ & _).
  rewrite (null_list_replicate _ Hnull), drop_replicate in Htl.
  destruct (destroy_region_built listlen vaddr' false st1 built _ (proj2 Hl)
              ltac:(by rewrite Hln) Htl)
    as (st2 & del & Hdes & Htr2 & Hfreed & Htl2).
  exists st1, new, st2, del.
  split; [done|]. split; [done|]. split; [done|]. split; [done|]. split; [|done].
  rewrite Hfreed, Hal.
  apply (freed_pages_built mmuflags); [done| |by apply Hok].
  rewrite Hps in Hvalid. by apply Forall_app in Hvalid as [? _].
Qed.

Lemma create_then_destroy_all_witness :
  (0 <= 2 <= INT_MAX ∧ 0 <= 8193 <= UINT_MAX
   ∧ Z.of_nat (length (table_list
       (Machine [0; 0] (λ _, []) [0x10000; 0x11000; 0x12000; 0x13000] []))) = 2
   ∧ Forall (λ p, p = 0) [0; 0]
   ∧ MM_NPAGES 8193 <= to_uint (Z.shiftl 2 (20 - MM_PGSHIFT))
   ∧ valid_mmuflags 0x55e
   ∧ Forall valid_page [0x10000; 0x11000; 0x12000; 0x13000]
   ∧ NoDup [0x10000; 0x11000; 0x12000; 0x13000]
   ∧ nlist_of (MM_NPAGES 8193) + MM_NPAGES 8193 <= Z.of_nat 4)
  ∧ ∃ st1 new st2 del,
      arm_addrenv_create_region 2 0x200000 8193 0x55e
        (Machine [0; 0] (λ _, []) [0x10000; 0x11000; 0x12000; 0x13000] [])
      = Returned (MM_NPAGES 8193) st1
      ∧ trace st1 = [] ++ new
      ∧ arm_addrenv_destroy_region 2 0 false st1 = Returned tt st2
      ∧ trace st2 = trace st1 ++ del
      ∧ freed_pages del ≡ₚ allocated_pages new
      ∧ table_list st2 = replicate (Z.to_nat 2) 0.
Proof.
  assert (H1 : 0 <= 2 <= INT_MAX) by (unfold INT_MAX; lia).
  assert (H2 : 0 <= 8193 <= UINT_MAX) by (unfold UINT_MAX; lia).
  assert (H3 : Z.of_nat (length (table_list
       (Machine [0; 0] (λ _, []) [0x10000; 0x11000; 0x12000; 0x13000] []))) = 2)
    by reflexivity.
  assert (H4 : Forall (λ p, p = 0) [0; 0]) by (repeat constructor).
  assert (H5 : MM_NPAGES 8193 <= to_uint (Z.shiftl 2 (20 - MM_PGSHIFT)))
    by (vm_compute; discriminate).
  assert (H6 : valid_mmuflags 0x55e) by (split; [unfold UINT_MAX; lia | reflexivity]).
  assert (H7 : Forall valid_page [0x10000; 0x11000; 0x12000; 0x13000])
    by (repeat constructor; unfold UINT_MAX; lia).
  assert (H8 : NoDup [0x10000; 0x11000; 0x12000; 0x13000])
    by (apply (bool_decide_unpack _); vm_compute; exact I).
  assert (H9 : nlist_of (MM_NPAGES 8193) + MM_NPAGES 8193 <= Z.of_nat 4)
    by (vm_compute; discriminate).
  split; [done|].
  exact (create_then_destroy_all 2 0x200000 0 8193 0x55e _ H1 H2 H3 H4 H5 H6 H7 H8 H9).
Defined.

(** ** Critical sections *)

Lemma cs_discipline_fill_trace l2table mmuflags vaddr events :
  fill_trace l2table mmuflags vaddr events →
  ∀ rest, cs_discipline true (events ++ rest) = cs_discipline true rest.
Proof. induction 1 as [|vaddr paddr events _ _ IH]; intros rest; [done|]. simpl. apply IH. Qed.

Lemma cs_discipline_create_trace mmuflags i new :
  create_trace mmuflags i new → cs_discipline false new = true.
Proof.
  induction 1 as [| |i l2table vaddr events _ Hft|i l2table vaddr events rest _ Hft _ IH];
    try done.
  - cbn [app cs_discipline negb andb].
    by rewrite (cs_discipline_fill_trace _ _ _ _ Hft).
  - cbn [app cs_discipline negb andb].
    rewrite (cs_discipline_fill_trace _ _ _ _ Hft). simpl. exact IH.
Qed.

(** X5.  Every call of [arm_addrenv_create_region] on a table list of
    [listlen] slots returns with its critical sections balanced: sections
    are entered and left alternately and the last one is left before the
    return, also when a data-page allocation fails inside one; a leaf table
    is zeroed, populated and flushed only inside a section, and the table
    list is written only outside. *)
Theorem create_region_critical_sections listlen vaddr regionsize mmuflags st :
  Z.of_nat (length (table_list st)) = listlen →
  ∃ a st' new,
    arm_addrenv_create_region listlen vaddr regionsize mmuflags st = Returned a st'
    ∧ trace st' = trace st ++ new
    ∧ cs_discipline false new = true.
Proof.
  intros Hlen. unfold arm_addrenv_create_region. cbv zeta.
  destruct (decide _) as [Hbig|Hfit].
  - exists (- E2BIG), st, []. by rewrite app_nil_r.
  - pose proof (create_tables_general (to_uint (MM_NPAGES regionsize)) regionsize mmuflags
                  0 0 vaddr st ltac:(lia)) as Hgen.
    pose proof (create_tables_no_fault (to_uint (MM_NPAGES regionsize)) regionsize mmuflags
                  0 0 vaddr st ltac:(lia)) as Hret.
    destruct (create_tables _ _ _ _ _ _ _) as [a st'|].
    + destruct Hgen as (new & Htr & Hct & _). exists a, st', new.
      split; [done|]. split; [done|]. by apply (cs_discipline_create_trace mmuflags 0).
    + exfalso. apply Hret; [|done]. rewrite Hlen. apply capacity_gives_room; [lia|done].
Qed.

Lemma create_region_critical_sections_witness :
  Z.of_nat (length (table_list (Machine [0; 0] (λ _, []) [0x10000; 0x11000] []))) = 2
  ∧ ∃ a st' new,
      arm_addrenv_create_region 2 0x200000 8192 0x55e
        (Machine [0; 0] (λ _, []) [0x10000; 0x11000] [])
      = Returned a st'
      ∧ trace st' = [] ++ new
      ∧ cs_discipline false new = true.
Proof.
  split; [reflexivity|].
  exact (create_region_critical_sections 2 0x200000 8192 0x55e
           (Machine [0; 0] (λ _, []) [0x10000; 0x11000] []) eq_refl).
Defined.









(** ** The return value *)

(** X7.  On a table list of [listlen] slots and a page source that never
    hands out the null page, the return value of
    [arm_addrenv_create_region] is decided by the capacity check and by the
    number of free pages alone, and takes one of three forms: [-E2BIG] with
    the state untouched when the check fails; [-ENOMEM] with the page source
    used up when fewer than [nlist + npages] pages are free; the page count
    [npages >= 0] otherwise. *)
Theorem create_region_result listlen vaddr regionsize mmuflags st :
  0 <= listlen <= UINT_MAX → 0 <= regionsize <= UINT_MAX →
  Z.of_nat (length (table_list st)) = listlen →
  Forall (λ p, p ≠ 0) (page_source st) →
  ∃ a st',
    arm_addrenv_create_region listlen vaddr regionsize mmuflags st = Returned a st'
    ∧ ((MM_NPAGES regionsize > to_uint (Z.shiftl listlen (20 - MM_PGSHIFT))
        ∧ a = - E2BIG ∧ st' = st)
       ∨ (MM_NPAGES regionsize <= to_uint (Z.shiftl listlen (20 - MM_PGSHIFT))
          ∧ Z.of_nat (length (page_source st))
            < nlist_of (MM_NPAGES regionsize) + MM_NPAGES regionsize
          ∧ a = - ENOMEM ∧ page_source st' = [])
       ∨ (MM_NPAGES regionsize <= to_uint (Z.shiftl listlen (20 - MM_PGSHIFT))
          ∧ nlist_of (MM_NPAGES regionsize) + MM_NPAGES regionsize
            <= Z.of_nat (length (page_source st))
          ∧ a = MM_NPAGES regionsize ∧ 0 <= a)).
Proof.
  intros Hl Hr Hlen Hnz.
  destruct (decide (MM_NPAGES regionsize > to_uint (Z.shiftl listlen (20 - MM_PGSHIFT))))
    as [Hbig|Hfit].
  - exists (- E2BIG), st. split; [|by left].
    unfold arm_addrenv_create_region. cbv zeta. rewrite decide_True; [done|].
    replace (to_uint (MM_NPAGES regionsize)) with (MM_NPAGES regionsize); [done|zlia].
  - destruct (create_region_run listlen vaddr regionsize mmuflags st)
      as (r & st' & built & new & Hrun & _ & _ & _ & _ & _ & _ & _ & _ & Hsucc & Hfail);
      try done.
    exists r, st'. split; [done|]. right.
    destruct (decide (nlist_of (MM_NPAGES regionsize) + MM_NPAGES regionsize
                      <= Z.of_nat (length (page_source st)))) as [Henough|Hshort].
    + right. destruct (Hsucc Henough) as (-> & _). repeat split; try lia. zlia.
    + left. destruct (Hfail ltac:(lia)) as (-> & Hsrc). repeat split; try done; lia.
Qed.

Lemma create_region_result_witness :
  (0 <= 2 <= UINT_MAX ∧ 0 <= 8193 <= UINT_MAX
   ∧ Z.of_nat (length (table_list
       (Machine [0; 0] (λ _, []) [0x10000; 0x11000; 0x12000] []))) = 2
   ∧ Forall (λ p, p ≠ 0) [0x10000; 0x11000; 0x12000])
  ∧ ∃ a st',
      arm_addrenv_create_region 2 0x200000 8193 0x55e
        (Machine [0; 0] (λ _, []) [0x10000; 0x11000; 0x12000] [])
      = Returned a st'
      ∧ ((MM_NPAGES 8193 > to_uint (Z.shiftl 2 (20 - MM_PGSHIFT))
          ∧ a = - E2BIG
          ∧ st' = Machine [0; 0] (λ _, []) [0x10000; 0x11000; 0x12000] [])
         ∨ (MM_NPAGES 8193 <= to_uint (Z.shiftl 2 (20 - MM_PGSHIFT))
            ∧ Z.of_nat (length (page_source
                (Machine [0; 0] (λ _, []) [0x10000; 0x11000; 0x12000] [])))
              < nlist_of (MM_NPAGES 8193) + MM_NPAGES 8193
            ∧ a = - ENOMEM ∧ page_source st' = [])
         ∨ (MM_NPAGES 8193 <= to_uint (Z.shiftl 2 (20 - MM_PGSHIFT))
            ∧ nlist_of (MM_NPAGES 8193) + MM_NPAGES 8193
              <= Z.of_nat (length (page_source
                   (Machine [0; 0] (λ _, []) [0x10000; 0x11000; 0x12000] [])))
            ∧ a = MM_NPAGES 8193 ∧ 0 <= a)).
Proof.
  assert (H1 : 0 <= 2 <= UINT_MAX) by (unfold UINT_MAX; lia).
  assert (H2 : 0 <= 8193 <= UINT_MAX) by (unfold UINT_MAX; lia).
  assert (H3 : Z.of_nat (length (table_list
       (Machine [0; 0] (λ _, []) [0x10000; 0x11000; 0x12000] []))) = 2) by reflexivity.
  assert (H4 : Forall (λ p, p ≠ 0) [0x10000; 0x11000; 0x12000])
    by (repeat constructor; discriminate).
  split; [done|].
  exact (create_region_result 2 0x200000 8193 0x55e _ H1 H2 H3 H4).
Defined.

(** X8.  The capacity check is made in 32-bit arithmetic:
    [listlen << (20 - MM_PGSHIFT)] keeps only the low 24 bits of [listlen].
    A region of more pages than [(listlen mod 2^24) * ENTRIES_PER_L2TABLE] is
    refused with [-E2BIG] and the state untouched, also when the [listlen]
    leaf tables would hold it; with [listlen = 2^24] every non-empty region
    is refused. *)
Theorem create_region_capacity_wraps listlen vaddr regionsize mmuflags st :
  0 <= listlen <= UINT_MAX → 0 <= regionsize <= UINT_MAX →
  MM_NPAGES regionsize > (listlen mod 16777216) * ENTRIES_PER_L2TABLE →
  arm_addrenv_create_region listlen vaddr regionsize mmuflags st = Returned (- E2BIG) st.
Proof.
  intros Hl Hr Hbig. unfold arm_addrenv_create_region. cbv zeta.
  rewrite decide_True; [done|].
  rewrite Z.shiftl_mul_pow2 by (unfold MM_PGSHIFT; lia).
  change (2 ^ (20 - MM_PGSHIFT)) with 256. zlia.
Qed.

Lemma create_region_capacity_wraps_witness :
  (0 <= 16777216 <= UINT_MAX ∧ 0 <= 1 <= UINT_MAX
   ∧ MM_NPAGES 1 > (16777216 mod 16777216) * ENTRIES_PER_L2TABLE)
  ∧ arm_addrenv_create_region 16777216 0 1 0x55e
      (Machine [] (λ _, []) [0x1000; 0x2000] [])
    = Returned (- E2BIG) (Machine [] (λ _, []) [0x1000; 0x2000] []).
Proof.
  assert (H1 : 0 <= 16777216 <= UINT_MAX) by (unfold UINT_MAX; lia).
  assert (H2 : 0 <= 1 <= UINT_MAX) by (unfold UINT_MAX; lia).
  assert (H3 : MM_NPAGES 1 > (16777216 mod 16777216) * ENTRIES_PER_L2TABLE) by reflexivity.
  split; [done|].
  exact (create_region_capacity_wraps 16777216 0 1 0x55e _ H1 H2 H3).
Defined.

(** X9.  An empty region needs nothing: for [regionsize = 0] the call
    returns 0 without allocating a page or touching the table list, whatever
    [listlen] is, also for [listlen = 0] and for an exhausted page source. *)
Theorem create_region_empty listlen vaddr mmuflags st :
  arm_addrenv_create_region listlen vaddr 0 mmuflags st = Returned 0 st.
Proof.
  unfold arm_addrenv_create_region. cbv zeta.
  change (to_uint (MM_NPAGES 0)) with 0.
  rewrite decide_False by (unfold to_uint; Z.div_mod_to_equations; lia).
  rewrite create_tables_equation_1.
  by rewrite decide_False by (vm_compute; discriminate).
Qed.

(** ** No clean-up on failure *)

Lemma freed_pages_fill_trace l2table mmuflags vaddr events :
  fill_trace l2table mmuflags vaddr events → freed_pages events = [].
Proof. induction 1; done. Qed.

Lemma freed_pages_create_trace mmuflags i new :
  create_trace mmuflags i new → freed_pages new = [].
Proof.
  induction 1 as [| |i l2table vaddr events _ Hft|i l2table vaddr events rest _ Hft _ IH];
    try done.
  - rewrite !freed_pages_app, (freed_pages_fill_trace _ _ _ _ Hft). done.
  - rewrite !freed_pages_app, (freed_pages_fill_trace _ _ _ _ Hft), IH. done.
Qed.

(** X10.  [arm_addrenv_create_region] never gives a page back: whatever it
    returns, also [-ENOMEM] after a part of the region was built, no page is
    freed during the call.  The pages taken so far stay allocated; releasing
    them is left to [arm_addrenv_destroy_region]. *)
Theorem create_region_never_frees listlen vaddr regionsize mmuflags st :
  Z.of_nat (length (table_list st)) = listlen →
  ∃ a st' new,
    arm_addrenv_create_region listlen vaddr regionsize mmuflags st = Returned a st'
    ∧ trace st' = trace st ++ new
    ∧ freed_pages new = [].
Proof.
  intros Hlen. unfold arm_addrenv_create_region. cbv zeta.
  destruct (decide _) as [Hbig|Hfit].
  - exists (- E2BIG), st, []. by rewrite app_nil_r.
  - pose proof (create_tables_general (to_uint (MM_NPAGES regionsize)) regionsize mmuflags
                  0 0 vaddr st ltac:(lia)) as Hgen.
    pose proof (create_tables_no_fault (to_uint (MM_NPAGES regionsize)) regionsize mmuflags
                  0 0 vaddr st ltac:(lia)) as Hret.
    destruct (create_tables _ _ _ _ _ _ _) as [a st'|].
    + destruct Hgen as (new & Htr & Hct & _). exists a, st', new.
      split; [done|]. split; [done|]. by apply (freed_pages_create_trace mmuflags 0).
    + exfalso. apply Hret; [|done]. rewrite Hlen. apply capacity_gives_room; [lia|done].
Qed.

Lemma create_region_never_frees_witness :
  Z.of_nat (length (table_list (Machine [0; 0] (λ _, []) [0x10000; 0x11000] []))) = 2
  ∧ ∃ a st' new,
      arm_addrenv_create_region 2 0x200000 12288 0x55e
        (Machine [0; 0] (λ _, []) [0x10000; 0x11000] [])
      = Returned a st'
      ∧ trace st' = [] ++ new
      ∧ freed_pages new = [].
Proof.
  split; [reflexivity|].
  exact (create_region_never_frees 2 0x200000 12288 0x55e
           (Machine [0; 0] (λ _, []) [0x10000; 0x11000] []) eq_refl).
Defined.

(** * The SPI driver: reasoning tools *)

Lemma bind_unfold {A B} (m : spi A) (f : A → spi B) w :
  (m ≫= f) w
  = match m w with
    | Done a w' => f a w'
    | Starved w' => Starved w'
    | Panicked w' => Panicked w'
    end.
Proof. reflexivity. Qed.

Lemma ret_unfold {A} (a : A) w : (mret a : spi A) w = Done a w.
Proof. reflexivity. Qed.

Lemma writes_app l1 l2 : writes (l1 ++ l2) = writes l1 ++ writes l2.
Proof. apply omap_app. Qed.

Lemma writes_to_app r l1 l2 : writes_to r (l1 ++ l2) = writes_to r l1 ++ writes_to r l2.
Proof. unfold writes_to. by rewrite writes_app, filter_app, fmap_app. Qed.

Lemma writes_getregs r (vs : list Z) : writes (Getreg r <$> vs) = [].
Proof. induction vs as [|v vs IH]; [done|]. simpl. exact IH. Qed.

Lemma poll_event_done offset dev pe rest log :
  Forall busy pe →
  poll_event offset dev (pe ++ 1 :: rest) log
  = Done tt (World dev rest
               (log ++ (Getreg offset <$> (to_uint <$> pe)) ++ [Getreg offset 1])).
Proof.
  intros Hpe. revert log. induction Hpe as [|v pe Hv _ IH]; intros log.
  - cbn [poll_event app fmap list_fmap]. by rewrite decide_True by done.
  - cbn [poll_event app]. rewrite decide_False by done. rewrite IH.
    rewrite !fmap_cons. by rewrite <- app_assoc.
Qed.

Lemma poll_event_starved offset dev answers log :
  Forall busy answers →
  poll_event offset dev answers log
  = Starved (World dev [] (log ++ (Getreg offset <$> (to_uint <$> answers)))).
Proof.
  intros Hb. revert log. induction Hb as [|v answers Hv _ IH]; intros log.
  - simpl. by rewrite app_nil_r.
  - cbn [poll_event]. rewrite decide_False by done. rewrite IH.
    rewrite !fmap_cons. by rewrite <- app_assoc.
Qed.

Lemma transfer_chunk_run `{spim_hw} txbuffer rxbuffer size a rest w :
  chunk_answers_ok a → device w = chunk_answers a ++ rest →
  ∃ new,
    transfer_chunk txbuffer rxbuffer size w
    = Done tt (World (priv w) rest (accesses w ++ new))
    ∧ writes new = chunk_writes txbuffer rxbuffer size.
Proof.
  destruct w as [dev answers log], a as [[pe amount] ps].
  intros [Hpe Hps] Hdev. unfold chunk_answers in Hdev. simpl in *.
  repeat (rewrite <- app_assoc in Hdev; simpl in Hdev). subst answers.
  unfold transfer_chunk, chunk_writes.
  destruct (decide (rxbuffer ≠ 0)), (decide (txbuffer ≠ 0)).
  all: eexists; split;
    [unfold mbind, spi_bind, mret, spi_ret, nrf91_spi_getreg; spi_unfold; cbn;
     rewrite poll_event_done by done; cbn;
     rewrite poll_event_done by done; cbn;
     rewrite <- !app_assoc; reflexivity
    |rewrite ?writes_app, ?writes_getregs; reflexivity].
Qed.

Lemma chunk_sizes_nil n : n <= 0 → 0 <= n → chunk_sizes n = [].
Proof. intros. by replace n with 0 by lia. Qed.

Lemma chunk_sizes_step n :
  0 < n →
  chunk_sizes n
  = (if decide (n > 255) then 255 else n)
      :: chunk_sizes (n - (if decide (n > 255) then 255 else n)).
Proof.
  intros Hn. unfold chunk_sizes. destruct (decide (n > 255)) as [Hbig|Hsmall].
  - assert (n / 255 = (n - 255) / 255 + 1) as -> by (Z.div_mod_to_equations; lia).
    assert (n mod 255 = (n - 255) mod 255) as -> by (Z.div_mod_to_equations; lia).
    rewrite Z2Nat.inj_add by (try apply Z.div_pos; lia).
    rewrite Nat.add_comm. reflexivity.
  - rewrite Z.sub_diag. change (0 / 255) with 0. change (0 mod 255) with 0.
    rewrite (decide_True (P := 0 = 0)) by done. simpl.
    destruct (decide (n = 255)) as [->|Hn'].
    + reflexivity.
    + rewrite Z.div_small, Z.mod_small by lia. by rewrite decide_False by lia.
Qed.

Lemma transfer_loop_run `{spim_hw} txbuffer rxbuffer answers :
  ∀ nwords rest w,
    0 <= nwords <= UINT_MAX →
    length answers = length (chunk_sizes nwords) →
    Forall chunk_answers_ok answers →
    device w = concat (chunk_answers <$> answers) ++ rest →
    ∃ new,
      transfer_loop txbuffer rxbuffer nwords w
      = Done tt (World (priv w) rest (accesses w ++ new))
      ∧ writes new = concat (chunk_writes txbuffer rxbuffer <$> chunk_sizes nwords).
Proof.
  induction answers as [|a answers IH]; intros nwords rest w Hn Hlen Hok Hdev.
  - assert (nwords = 0) as ->.
    { destruct (decide (0 < nwords)) as [Hpos|]; [|lia].
      rewrite (chunk_sizes_step _ Hpos) in Hlen. done. }
    exists []. rewrite transfer_loop_equation_1. simpl in Hdev. subst rest.
    destruct w. by rewrite app_nil_r.
  - assert (0 < nwords) as Hpos.
    { destruct (decide (0 < nwords)); [done|].
      rewrite chunk_sizes_nil in Hlen by lia. done. }
    rewrite (chunk_sizes_step _ Hpos) in Hlen |- *.
    rewrite transfer_loop_equation_1. rewrite decide_True by lia. cbv zeta.
    set (size := if decide (nwords > 255) then 255 else nwords) in *.
    assert (1 <= size <= nwords) as Hsize by (unfold size; destruct (decide _); lia).
    apply Forall_cons_1 in Hok as [Ha Hok].
    rewrite fmap_cons in Hdev. cbn [concat] in Hdev. rewrite <- app_assoc in Hdev.
    destruct (transfer_chunk_run txbuffer rxbuffer size a _ w Ha Hdev) as (new1 & -> & Hw1).
    replace (to_uint (nwords - size)) with (nwords - size)
      by (unfold to_uint, UINT_MAX in *; rewrite Z.mod_small; lia).
    destruct (IH (nwords - size) rest
                (World (priv w) (concat (chunk_answers <$> answers) ++ rest)
                   (accesses w ++ new1)))
      as (new2 & -> & Hw2); try done.
    { unfold UINT_MAX in *. lia. }
    { simpl in Hlen. lia. }
    exists (new1 ++ new2). cbn [priv accesses]. rewrite <- app_assoc. split; [done|].
    rewrite writes_app, Hw1, Hw2. by rewrite fmap_cons.
Qed.

Lemma debugassert_pass `{spim_hw} buffer :
  easydma_ok buffer → buffer ≠ 0 →
  CONFIG_DEBUG_ASSERTIONS && negb (nrf91_easydma_valid buffer) = false.
Proof.
  intros Hok Hb. unfold easydma_ok in Hok.
  destruct CONFIG_DEBUG_ASSERTIONS; [|done]. by rewrite Hok.
Qed.

Lemma exchange_run `{spim_hw} txbuffer rxbuffer nwords answers rest w :
  0 <= nwords <= UINT_MAX →
  easydma_ok txbuffer → easydma_ok rxbuffer →
  length answers = length (chunk_sizes nwords) →
  Forall chunk_answers_ok answers →
  device w = concat (chunk_answers <$> answers) ++ rest →
  ∃ new,
    nrf91_spi_exchange txbuffer rxbuffer nwords w
    = Done tt (World (priv w) rest (accesses w ++ new))
    ∧ writes new
      = setup_writes txbuffer rxbuffer nwords
          ++ concat (chunk_writes txbuffer rxbuffer <$> chunk_sizes nwords)
          ++ teardown_writes nwords.
Proof.
  intros Hn Htx Hrx Hlen Hok Hdev.
  destruct w as [dev answers0 log]. simpl in Hdev. subst answers0.
  unfold nrf91_spi_exchange, setup_writes, teardown_writes.
  destruct (decide (rxbuffer ≠ 0)), (decide (txbuffer ≠ 0)), (decide (nwords > 255)).
  all: unfold mbind, spi_bind, mret, spi_ret; spi_unfold; cbn.
  all: rewrite ?debugassert_pass by done; cbn.
  all: match goal with
       | |- context [transfer_loop ?t ?r ?n ?w] =>
           destruct (transfer_loop_run t r answers n rest w) as (new & -> & Hw); [done..|]
       end.
  all: cbn; eexists; split; [rewrite <- !app_assoc; reflexivity|].
  all: rewrite ?writes_app, Hw; cbn; rewrite <- ?app_assoc; reflexivity.
Qed.

(** ** Bit fields of the CONFIG register *)

(** Replacing the field [mask] of a 32-bit register value by [bits]. *)
Lemma field_written v mask bits :
  Z.land bits mask = bits →
  Z.land (Z.lor (Z.land (to_uint v) (to_uint (Z.lnot mask))) bits) mask = bits.
Proof.
  intros Hbits. rewrite <- Hbits. solve_bits.
Qed.

Lemma field_kept v mask bits :
  Z.land bits mask = bits →
  Z.land (Z.lor (Z.land (to_uint v) (to_uint (Z.lnot mask))) bits) (Z.lnot mask)
  = Z.land (to_uint v) (Z.lnot mask).
Proof.
  intros Hbits. rewrite <- Hbits. solve_bits.
Qed.

(** * The SPI driver: configuration calls *)

Lemma frequency_switch_Some `{spim_hw} f regval :
  frequency_switch f = Some regval → f ∈ supported_frequencies.
Proof.
  unfold frequency_switch, supported_frequencies.
  repeat (destruct (decide _) as [->|?];
    [intros _; rewrite !elem_of_cons; repeat first [left; reflexivity | right]|]).
  done.
Qed.

Lemma frequency_switch_None `{spim_hw} f :
  frequency_switch f = None → f ∉ supported_frequencies.
Proof.
  unfold frequency_switch, supported_frequencies.
  repeat (destruct (decide _) as [->|?]; [done|]). intros _.
  rewrite !not_elem_of_cons. repeat split; try done. apply not_elem_of_nil.
Qed.

Lemma setfrequency_outcome `{spim_hw} frequency_req w :
  ∃ w',
    nrf91_spi_setfrequency frequency_req w = Done (frequency (priv w')) w'
    ∧ ((w' = w
        ∧ (frequency_req = frequency (priv w)
           ∨ Z.min frequency_req 8000000 ∉ supported_frequencies))
       ∨ (frequency_req ≠ frequency (priv w)
          ∧ Z.min frequency_req 8000000 ∈ supported_frequencies
          ∧ ∃ regval,
              frequency_switch (Z.min frequency_req 8000000) = Some regval
              ∧ w' = World (Spidev (sck_pin (priv w)) (Z.min frequency_req 8000000)
                              (mode (priv w)))
                       (device w)
                       (accesses w ++ [Putreg NRF91_SPIM_FREQUENCY_OFFSET regval]))).
Proof.
  unfold nrf91_spi_setfrequency. unfold mbind, spi_bind, mret, spi_ret. spi_unfold. cbn.
  destruct (decide (frequency (priv w) = frequency_req)) as [Heq|Hne].
  { exists w. split; [done|]. left. auto. }
  replace (if decide (frequency_req > 8000000) then 8000000 else frequency_req)
    with (Z.min frequency_req 8000000) by (destruct (decide _); lia).
  destruct (frequency_switch _) as [regval|] eqn:Hsw.
  - exists (World (Spidev (sck_pin (priv w)) (Z.min frequency_req 8000000) (mode (priv w)))
              (device w) (accesses w ++ [Putreg NRF91_SPIM_FREQUENCY_OFFSET regval])).
    split; [done|]. right. split; [done|].
    split; [by eapply frequency_switch_Some|]. by exists regval.
  - exists w. split; [done|]. left. split; [done|]. right.
    by apply frequency_switch_None.
Qed.

(** X11.  [nrf91_spi_setfrequency] always returns, and what it returns is
    the frequency in effect after the call.  That is the previous frequency,
    or the request cut down to 8 MHz when this is one of the seven supported
    rates.  A request that is not supported changes nothing and writes
    nothing: the caller sees the failure only by the old frequency coming
    back.  A request above 8 MHz that differs from the cached frequency
    programs 8 MHz, also when 8 MHz is in effect already. *)
Theorem setfrequency_result `{spim_hw} frequency_req w :
  ∃ w',
    nrf91_spi_setfrequency frequency_req w = Done (frequency (priv w')) w'
    ∧ device w' = device w
    ∧ (frequency (priv w') = frequency (priv w)
       ∨ frequency (priv w') = Z.min frequency_req 8000000
         ∧ frequency (priv w') ∈ supported_frequencies)
    ∧ (Z.min frequency_req 8000000 ∉ supported_frequencies → w' = w)
    ∧ (frequency_req > 8000000 → frequency_req ≠ frequency (priv w) →
       frequency (priv w') = 8000000
       ∧ accesses w'
         = accesses w ++ [Putreg NRF91_SPIM_FREQUENCY_OFFSET SPIM_FREQUENCY_8MBPS]).
Proof.
  destruct (setfrequency_outcome frequency_req w) as (w' & Hrun & [[-> Hsame]|Hset]).
  - exists w. split; [done|]. split; [done|]. split; [by left|]. split; [done|].
    intros Hbig Hne. destruct Hsame as [?|Hun]; [done|].
    rewrite Z.min_r in Hun by lia. exfalso. apply Hun.
    unfold supported_frequencies. rewrite !elem_of_cons.
    repeat first [left; reflexivity | right].
  - destruct Hset as (Hne & Hsup & regval & Hsw & ->).
    eexists. split; [exact Hrun|]. simpl. split; [done|]. split; [by right|].
    split; [done|]. intros Hbig _. rewrite Z.min_r in Hsw |- * by lia.
    split; [done|]. by injection Hsw as <-.
Qed.

Lemma sample_modes_wf : spi_modes_wf.
Proof.
  split; [apply (bool_decide_unpack _); vm_compute; exact I|].
  repeat constructor; simpl; lia.
Qed.

Lemma modes_distinct `{spim_hw} :
  NoDup [SPIDEV_MODE0; SPIDEV_MODE1; SPIDEV_MODE2; SPIDEV_MODE3] →
  SPIDEV_MODE0 ≠ SPIDEV_MODE1 ∧ SPIDEV_MODE0 ≠ SPIDEV_MODE2 ∧ SPIDEV_MODE0 ≠ SPIDEV_MODE3
  ∧ SPIDEV_MODE1 ≠ SPIDEV_MODE2 ∧ SPIDEV_MODE1 ≠ SPIDEV_MODE3
  ∧ SPIDEV_MODE2 ≠ SPIDEV_MODE3.
Proof.
  intros Hnd.
  apply NoDup_cons in Hnd as [H0 Hnd]. apply NoDup_cons in Hnd as [H1 Hnd].
  apply NoDup_cons in Hnd as [H2 _].
  repeat rewrite not_elem_of_cons in H0. repeat rewrite not_elem_of_cons in H1.
  repeat rewrite not_elem_of_cons in H2.
  destruct H0 as (? & ? & ? & _), H1 as (? & ? & _), H2 as (? & _). done.
Qed.

Lemma mode_switch_of `{spim_hw} cpol cpha regval :
  NoDup [SPIDEV_MODE0; SPIDEV_MODE1; SPIDEV_MODE2; SPIDEV_MODE3] →
  mode_switch (mode_of cpol cpha) regval
  = Some (Z.lor regval (Z.lor (if cpha then SPIM_CONFIG_CPHA else 0)
                              (if cpol then SPIM_CONFIG_CPOL else 0))).
Proof.
  intros (? & ? & ? & ? & ? & ?)%modes_distinct.
  unfold mode_switch, mode_of. destruct cpol, cpha.
  - rewrite !decide_False by congruence. rewrite decide_True by done.
    by rewrite Z.lor_assoc.
  - rewrite !decide_False by congruence. rewrite decide_True by done.
    by rewrite Z.lor_0_l.
  - rewrite decide_False by congruence. rewrite decide_True by done.
    by rewrite Z.lor_0_r.
  - rewrite decide_True by done. by rewrite !Z.lor_0_r.
Qed.

Lemma mode_of_range `{spim_hw} cpol cpha :
  Forall (λ m, 0 <= m < 256) [SPIDEV_MODE0; SPIDEV_MODE1; SPIDEV_MODE2; SPIDEV_MODE3] →
  mode_of cpol cpha mod 256 = mode_of cpol cpha.
Proof.
  intros Hr. apply Z.mod_small.
  apply Forall_cons_1 in Hr as [? Hr]. apply Forall_cons_1 in Hr as [? Hr].
  apply Forall_cons_1 in Hr as [? Hr]. apply Forall_cons_1 in Hr as [? _].
  by destruct cpol, cpha.
Qed.

Lemma mode_of_clock `{spim_hw} cpol cpha :
  NoDup [SPIDEV_MODE0; SPIDEV_MODE1; SPIDEV_MODE2; SPIDEV_MODE3] →
  bool_decide (mode_of cpol cpha = SPIDEV_MODE2 ∨ mode_of cpol cpha = SPIDEV_MODE3) = cpol.
Proof.
  intros (? & ? & ? & ? & ? & ?)%modes_distinct.
  destruct cpol, cpha; simpl.
  - apply bool_decide_eq_true. by right.
  - apply bool_decide_eq_true. by left.
  - apply bool_decide_eq_false. intros [?|?]; congruence.
  - apply bool_decide_eq_false. intros [?|?]; congruence.
Qed.

(** X12.  Changing to one of the four modes reads [CONFIG] once and writes
    it back once: the CPHA and CPOL bits of the value written are exactly
    those of the mode, every other bit is as it was read; the SCK pin is then
    driven to the level of CPOL and the mode is cached. *)
Theorem setmode_config `{spim_hw} cpol cpha v rest w :
  spi_modes_wf →
  mode_of cpol cpha ≠ mode (priv w) →
  device w = v :: rest →
  ∃ regval,
    nrf91_spi_setmode (mode_of cpol cpha) w
    = Done tt
        (World (Spidev (sck_pin (priv w)) (frequency (priv w)) (mode_of cpol cpha)) rest
           (accesses w ++ [Getreg NRF91_SPIM_CONFIG_OFFSET (to_uint v);
                           Putreg NRF91_SPIM_CONFIG_OFFSET regval;
                           GpioWrite (sck_pin (priv w)) cpol]))
    ∧ Z.land regval (Z.lor SPIM_CONFIG_CPHA SPIM_CONFIG_CPOL)
      = Z.lor (if cpha then SPIM_CONFIG_CPHA else 0) (if cpol then SPIM_CONFIG_CPOL else 0)
    ∧ Z.land regval (Z.lnot (Z.lor SPIM_CONFIG_CPHA SPIM_CONFIG_CPOL))
      = Z.land (to_uint v) (Z.lnot (Z.lor SPIM_CONFIG_CPHA SPIM_CONFIG_CPOL)).
Proof.
  intros [Hnd Hrange] Hne Hdev.
  assert (Hbits : Z.land (Z.lor (if cpha then SPIM_CONFIG_CPHA else 0)
                            (if cpol then SPIM_CONFIG_CPOL else 0))
                    (Z.lor SPIM_CONFIG_CPHA SPIM_CONFIG_CPOL)
                  = Z.lor (if cpha then SPIM_CONFIG_CPHA else 0)
                      (if cpol then SPIM_CONFIG_CPOL else 0)).
  { destruct cpha, cpol; solve_bits. }
  eexists. split; [|split; [by apply field_written|by apply field_kept]].
  unfold nrf91_spi_setmode. unfold mbind, spi_bind, mret, spi_ret, nrf91_spi_getreg.
  spi_unfold. cbn. rewrite decide_True by done. rewrite Hdev.
  rewrite (mode_switch_of _ _ _ Hnd). cbn.
  rewrite (mode_of_clock _ _ Hnd), (mode_of_range _ _ Hrange).
  by rewrite <- !app_assoc.
Qed.

Lemma setmode_config_witness :
  (spi_modes_wf
   ∧ mode_of true true ≠ mode (priv (World (Spidev 17 0 0) [1] []))
   ∧ device (World (Spidev 17 0 0) [1] []) = [1])
  ∧ ∃ regval,
      nrf91_spi_setmode (mode_of true true) (World (Spidev 17 0 0) [1] [])
      = Done tt
          (World (Spidev 17 0 (mode_of true true)) []
             ([] ++ [Getreg NRF91_SPIM_CONFIG_OFFSET (to_uint 1);
                     Putreg NRF91_SPIM_CONFIG_OFFSET regval;
                     GpioWrite 17 true]))
      ∧ Z.land regval (Z.lor SPIM_CONFIG_CPHA SPIM_CONFIG_CPOL)
        = Z.lor SPIM_CONFIG_CPHA SPIM_CONFIG_CPOL
      ∧ Z.land regval (Z.lnot (Z.lor SPIM_CONFIG_CPHA SPIM_CONFIG_CPOL))
        = Z.land (to_uint 1) (Z.lnot (Z.lor SPIM_CONFIG_CPHA SPIM_CONFIG_CPOL)).
Proof.
  assert (H2 : mode_of true true ≠ mode (priv (World (Spidev 17 0 0) [1] [])))
    by discriminate.
  split; [split; [exact sample_modes_wf|split; [exact H2|reflexivity]]|].
  exact (setmode_config true true 1 [] (World (Spidev 17 0 0) [1] [])
           sample_modes_wf H2 eq_refl).
Defined.

(** X13.  Setting one of the four modes twice is the same as setting it
    once: the second call finds the mode cached and touches neither the
    structure nor the device. *)
Theorem setmode_idempotent `{spim_hw} cpol cpha w :
  spi_modes_wf →
  (_ ← nrf91_spi_setmode (mode_of cpol cpha); nrf91_spi_setmode (mode_of cpol cpha)) w
  = nrf91_spi_setmode (mode_of cpol cpha) w.
Proof.
  intros [Hnd Hrange].
  unfold nrf91_spi_setmode. unfold mbind, spi_bind, mret, spi_ret, nrf91_spi_getreg.
  spi_unfold. cbn.
  destruct (decide (mode_of cpol cpha ≠ mode (priv w))) as [Hne|Heq]; cbn.
  - destruct (device w) as [|v rest]; [done|].
    rewrite (mode_switch_of _ _ _ Hnd). cbn.
    rewrite (mode_of_range _ _ Hrange). by rewrite decide_False by (intros ?; done).
  - by rewrite decide_False by done.
Qed.

Lemma setmode_idempotent_witness :
  spi_modes_wf
  ∧ ((_ ← nrf91_spi_setmode (mode_of true false); nrf91_spi_setmode (mode_of true false))
       (World (Spidev 17 0 0) [0; 5] [])
     = nrf91_spi_setmode (mode_of true false) (World (Spidev 17 0 0) [0; 5] [])).
Proof.
  split; [exact sample_modes_wf|].
  exact (setmode_idempotent true false (World (Spidev 17 0 0) [0; 5] []) sample_modes_wf).
Defined.

(** X14.  A mode that is none of the four labels changes nothing: [CONFIG]
    is read but not written, the SCK pin is not driven and the cached mode
    stays; in a build with debug assertions the call panics at that point
    instead of returning. *)
Theorem setmode_invalid `{spim_hw} mode_req v rest w :
  mode_req ∉ [SPIDEV_MODE0; SPIDEV_MODE1; SPIDEV_MODE2; SPIDEV_MODE3] →
  mode_req ≠ mode (priv w) →
  device w = v :: rest →
  nrf91_spi_setmode mode_req w
  = (if CONFIG_DEBUG_ASSERTIONS then Panicked else Done tt)
      (World (priv w) rest (accesses w ++ [Getreg NRF91_SPIM_CONFIG_OFFSET (to_uint v)])).
Proof.
  intros Hbad Hne Hdev. repeat rewrite not_elem_of_cons in Hbad.
  destruct Hbad as (? & ? & ? & ? & _).
  unfold nrf91_spi_setmode, mode_switch.
  unfold mbind, spi_bind, mret, spi_ret, nrf91_spi_getreg. spi_unfold. cbn.
  rewrite decide_True by done. rewrite Hdev. rewrite !decide_False by done. cbn.
  by destruct CONFIG_DEBUG_ASSERTIONS.
Qed.

Lemma setmode_invalid_witness :
  ((4 ∉ [SPIDEV_MODE0; SPIDEV_MODE1; SPIDEV_MODE2; SPIDEV_MODE3])
   ∧ 4 ≠ mode (priv (World (Spidev 17 0 0) [6] []))
   ∧ device (World (Spidev 17 0 0) [6] []) = [6])
  ∧ nrf91_spi_setmode 4 (World (Spidev 17 0 0) [6] [])
    = (if CONFIG_DEBUG_ASSERTIONS then Panicked else Done tt)
        (World (Spidev 17 0 0) [] ([] ++ [Getreg NRF91_SPIM_CONFIG_OFFSET (to_uint 6)])).
Proof.
  assert (H1 : 4 ∉ [SPIDEV_MODE0; SPIDEV_MODE1; SPIDEV_MODE2; SPIDEV_MODE3]).
  { repeat rewrite not_elem_of_cons. repeat split; try discriminate. apply not_elem_of_nil. }
  assert (H2 : 4 ≠ mode (priv (World (Spidev 17 0 0) [6] []))) by discriminate.
  split; [split; [exact H1|split; [exact H2|reflexivity]]|].
  exact (setmode_invalid 4 6 [] (World (Spidev 17 0 0) [6] []) H1 H2 eq_refl).
Defined.

(** X15.  In a build with [CONFIG_SPI_BITORDER], [nrf91_spi_hwfeatures]
    rewrites [CONFIG] with the ORDER bit set exactly when [HWFEAT_LSBFIRST]
    is requested and every other bit as read, and it does so also when it
    goes on to refuse the request: the result is [OK] when no feature other
    than [HWFEAT_LSBFIRST] is asked for, [-ENOSYS] otherwise. *)
Theorem hwfeatures_bit_order `{spim_hw} features v rest w :
  CONFIG_SPI_BITORDER = true →
  device w = v :: rest →
  ∃ regval,
    nrf91_spi_hwfeatures features w
    = Done (if decide (Z.land features (Z.lnot HWFEAT_LSBFIRST) = 0) then OK else - ENOSYS)
        (World (priv w) rest
           (accesses w ++ [Getreg NRF91_SPIM_CONFIG_OFFSET (to_uint v);
                           Putreg NRF91_SPIM_CONFIG_OFFSET regval]))
    ∧ Z.land regval SPIM_CONFIG_ORDER
      = (if decide (Z.land features HWFEAT_LSBFIRST ≠ 0) then SPIM_CONFIG_ORDER else 0)
    ∧ Z.land regval (Z.lnot SPIM_CONFIG_ORDER)
      = Z.land (to_uint v) (Z.lnot SPIM_CONFIG_ORDER).
Proof.
  intros Hcfg Hdev. eexists. split.
  - unfold nrf91_spi_hwfeatures. rewrite Hcfg.
    unfold mbind, spi_bind, mret, spi_ret, nrf91_spi_getreg. spi_unfold. cbn.
    rewrite Hdev. cbn. by rewrite <- !app_assoc.
  - destruct (decide (Z.land features HWFEAT_LSBFIRST ≠ 0)); split; solve_bits.
Qed.

Lemma hwfeatures_bit_order_witness :
  (CONFIG_SPI_BITORDER = true ∧ device (World (Spidev 17 0 0) [6] []) = [6])
  ∧ ∃ regval,
      nrf91_spi_hwfeatures 17 (World (Spidev 17 0 0) [6] [])
      = Done (if decide (Z.land 17 (Z.lnot HWFEAT_LSBFIRST) = 0) then OK else - ENOSYS)
          (World (Spidev 17 0 0) []
             ([] ++ [Getreg NRF91_SPIM_CONFIG_OFFSET (to_uint 6);
                     Putreg NRF91_SPIM_CONFIG_OFFSET regval]))
      ∧ Z.land regval SPIM_CONFIG_ORDER
        = (if decide (Z.land 17 HWFEAT_LSBFIRST ≠ 0) then SPIM_CONFIG_ORDER else 0)
      ∧ Z.land regval (Z.lnot SPIM_CONFIG_ORDER)
        = Z.land (to_uint 6) (Z.lnot SPIM_CONFIG_ORDER).
Proof.
  split; [split; reflexivity|].
  exact (hwfeatures_bit_order 17 6 [] (World (Spidev 17 0 0) [6] []) eq_refl eq_refl).
Defined.

(** * The SPI driver: transfers *)

Lemma chunk_sizes_bounds n : 0 <= n → Forall (λ c, 1 <= c <= 255) (chunk_sizes n).
Proof.
  intros Hn. unfold chunk_sizes. apply Forall_app. split.
  - apply Forall_replicate. lia.
  - destruct (decide _); constructor; [|constructor].
    pose proof (Z.mod_pos_bound n 255). lia.
Qed.

Lemma foldr_add_replicate k c base :
  foldr Z.add base (replicate k c) = Z.of_nat k * c + base.
Proof. induction k as [|k IH]; [simpl; lia|]. cbn [replicate foldr]. rewrite IH. lia. Qed.

Lemma chunk_sizes_sum n : 0 <= n → foldr Z.add 0 (chunk_sizes n) = n.
Proof.
  intros Hn. unfold chunk_sizes. rewrite foldr_app, foldr_add_replicate.
  rewrite Z2Nat.id by (apply Z.div_pos; lia).
  destruct (decide _); simpl; Z.div_mod_to_equations; lia.
Qed.

Lemma chunk_sizes_length n : 0 <= n → Z.of_nat (length (chunk_sizes n)) = (n + 254) / 255.
Proof.
  intros Hn. unfold chunk_sizes. rewrite length_app, length_replicate, Nat2Z.inj_add.
  rewrite Z2Nat.id by (apply Z.div_pos; lia).
  destruct (decide _); simpl; Z.div_mod_to_equations; lia.
Qed.

Lemma writes_to_chunks `{spim_hw} r txbuffer rxbuffer (g : Z → list Z) sizes :
  (∀ c, (filter (λ p, p.1 = r) (chunk_writes txbuffer rxbuffer c)).*2 = g c) →
  (filter (λ p, p.1 = r) (concat (chunk_writes txbuffer rxbuffer <$> sizes))).*2
  = concat (g <$> sizes).
Proof.
  intros Hg. induction sizes as [|c sizes IH]; [done|].
  rewrite !fmap_cons. cbn [concat]. by rewrite filter_app, fmap_app, Hg, IH.
Qed.

Lemma concat_singletons {A B} (h : A → B) l : concat ((λ c, [h c]) <$> l) = h <$> l.
Proof. induction l as [|a l IH]; [done|]. rewrite !fmap_cons. cbn [concat]. by rewrite IH. Qed.

Lemma concat_nils {A B} (l : list A) : concat ((λ _, @nil B) <$> l) = [].
Proof. induction l as [|a l IH]; [done|]. rewrite fmap_cons. cbn [concat]. by rewrite IH. Qed.

Lemma fmap_constant {A B} (b : B) (l : list A) : (λ _, b) <$> l = replicate (length l) b.
Proof. induction l as [|a l IH]; [done|]. rewrite fmap_cons. cbn. by rewrite IH. Qed.

(** The writes of a completed exchange to one register. *)
Lemma writes_to_exchange `{spim_hw} r txbuffer rxbuffer nwords new (g : Z → list Z) :
  writes new
  = setup_writes txbuffer rxbuffer nwords
      ++ concat (chunk_writes txbuffer rxbuffer <$> chunk_sizes nwords)
      ++ teardown_writes nwords →
  (∀ c, (filter (λ p, p.1 = r) (chunk_writes txbuffer rxbuffer c)).*2 = g c) →
  writes_to r new
  = (filter (λ p, p.1 = r) (setup_writes txbuffer rxbuffer nwords)).*2
      ++ concat (g <$> chunk_sizes nwords)
      ++ (filter (λ p, p.1 = r) (teardown_writes nwords)).*2.
Proof.
  intros Hw Hg. unfold writes_to. rewrite Hw.
  rewrite !filter_app, !fmap_app. by rewrite (writes_to_chunks r _ _ g).
Qed.

Lemma sample_answers_ok :
  Forall chunk_answers_ok [([0; 0], 255, [0]); ([], 45, [2])].
Proof.
  repeat constructor; unfold busy; vm_compute; discriminate.
Qed.

Lemma sample_easydma_ok buffer : easydma_ok buffer.
Proof. intros _ Hcfg. discriminate Hcfg. Qed.

(** X16.  On a device that raises [EVENTS_END] and [EVENTS_STOPPED] after
    finitely many polls, [nrf91_spi_exchange] with a transmit buffer returns
    after cutting the [nwords] words into [ceil(nwords / 255)] transfers:
    the sizes written to [TXD.MAXCNT] are between 1 and 255 and add up to
    [nwords] (followed by the final 0), and each transfer is started once and
    stopped once. *)
Theorem exchange_chunks `{spim_hw} txbuffer rxbuffer nwords answers rest w :
  0 <= nwords <= UINT_MAX →
  txbuffer ≠ 0 →
  easydma_ok txbuffer → easydma_ok rxbuffer →
  length answers = length (chunk_sizes nwords) →
  Forall chunk_answers_ok answers →
  device w = concat (chunk_answers <$> answers) ++ rest →
  ∃ new,
    nrf91_spi_exchange txbuffer rxbuffer nwords w
    = Done tt (World (priv w) rest (accesses w ++ new))
    ∧ writes_to NRF91_SPIM_TXDMAXCNT_OFFSET new = chunk_sizes nwords ++ [0]
    ∧ writes_to NRF91_SPIM_TASK_START_OFFSET new
      = replicate (length (chunk_sizes nwords)) SPIM_TASKS_START
    ∧ writes_to NRF91_SPIM_TASK_STOP_OFFSET new
      = replicate (length (chunk_sizes nwords)) SPIM_TASKS_STOP
    ∧ Forall (λ c, 1 <= c <= 255) (chunk_sizes nwords)
    ∧ foldr Z.add 0 (chunk_sizes nwords) = nwords
    ∧ Z.of_nat (length (chunk_sizes nwords)) = (nwords + 254) / 255.
Proof.
  intros Hn Htx Hok1 Hok2 Hlen Hans Hdev.
  destruct (exchange_run txbuffer rxbuffer nwords answers rest w) as (new & Hrun & Hw);
    try done.
  exists new. split; [done|].
  split; [|split; [|split; [|split; [|split]]]].
  - rewrite (writes_to_exchange _ _ _ _ _ (λ c, [c]) Hw) by chunk_select.
    rewrite concat_singletons, list_fmap_id.
    unfold setup_writes, teardown_writes.
    destruct (decide (rxbuffer ≠ 0)), (decide (txbuffer ≠ 0)), (decide (nwords > 255));
      try done; by rewrite app_nil_l.
  - rewrite (writes_to_exchange _ _ _ _ _ (λ _, [SPIM_TASKS_START]) Hw) by chunk_select.
    rewrite concat_singletons, fmap_constant.
    unfold setup_writes, teardown_writes.
    destruct (decide (rxbuffer ≠ 0)), (decide (txbuffer ≠ 0)), (decide (nwords > 255));
      try done; by rewrite app_nil_l, app_nil_r.
  - rewrite (writes_to_exchange _ _ _ _ _ (λ _, [SPIM_TASKS_STOP]) Hw) by chunk_select.
    rewrite concat_singletons, fmap_constant.
    unfold setup_writes, teardown_writes.
    destruct (decide (rxbuffer ≠ 0)), (decide (txbuffer ≠ 0)), (decide (nwords > 255));
      try done; by rewrite app_nil_l, app_nil_r.
  - apply chunk_sizes_bounds. lia.
  - apply chunk_sizes_sum. lia.
  - apply chunk_sizes_length. lia.
Qed.

Lemma exchange_chunks_witness :
  (0 <= 300 <= UINT_MAX
   ∧ 0x20001000 ≠ 0
   ∧ easydma_ok 0x20001000 ∧ easydma_ok 0x20002000
   ∧ length [([0; 0], 255, [0]); ([], 45, [2])] = length (chunk_sizes 300)
   ∧ Forall chunk_answers_ok [([0; 0], 255, [0]); ([], 45, [2])]
   ∧ device (World (Spidev 17 1000000 0) [0; 0; 1; 255; 0; 1; 1; 45; 2; 1; 9] [])
     = concat (chunk_answers <$> [([0; 0], 255, [0]); ([], 45, [2])]) ++ [9])
  ∧ ∃ new,
      nrf91_spi_exchange 0x20001000 0x20002000 300
        (World (Spidev 17 1000000 0) [0; 0; 1; 255; 0; 1; 1; 45; 2; 1; 9] [])
      = Done tt (World (Spidev 17 1000000 0) [9] ([] ++ new))
      ∧ writes_to NRF91_SPIM_TXDMAXCNT_OFFSET new = chunk_sizes 300 ++ [0]
      ∧ writes_to NRF91_SPIM_TASK_START_OFFSET new
        = replicate (length (chunk_sizes 300)) SPIM_TASKS_START
      ∧ writes_to NRF91_SPIM_TASK_STOP_OFFSET new
        = replicate (length (chunk_sizes 300)) SPIM_TASKS_STOP
      ∧ Forall (λ c, 1 <= c <= 255) (chunk_sizes 300)
      ∧ foldr Z.add 0 (chunk_sizes 300) = 300
      ∧ Z.of_nat (length (chunk_sizes 300)) = (300 + 254) / 255.
Proof.
  assert (H1 : 0 <= 300 <= UINT_MAX) by (unfold UINT_MAX; lia).
  assert (H2 : 0x20001000 ≠ 0) by discriminate.
  split.
  { split; [exact H1|]. split; [exact H2|]. split; [apply sample_easydma_ok|].
    split; [apply sample_easydma_ok|]. split; [reflexivity|].
    split; [exact sample_answers_ok|reflexivity]. }
  exact (exchange_chunks 0x20001000 0x20002000 300 [([0; 0], 255, [0]); ([], 45, [2])] [9]
           (World (Spidev 17 1000000 0) [0; 0; 1; 255; 0; 1; 1; 45; 2; 1; 9] [])
           H1 H2 (sample_easydma_ok _) (sample_easydma_ok _) eq_refl
           sample_answers_ok eq_refl).
Defined.

Lemma teardown_select r nwords :
  r ∈ [NRF91_SPIM_RXDPTR_OFFSET; NRF91_SPIM_RXDMAXCNT_OFFSET;
       NRF91_SPIM_TXDPTR_OFFSET; NRF91_SPIM_TXDMAXCNT_OFFSET] →
  (filter (λ p, p.1 = r) (teardown_writes nwords)).*2 = [0].
Proof.
  rewrite !elem_of_cons, elem_of_nil. unfold teardown_writes.
  intros [->|[->|[->|[->|[]]]]]; destruct (decide _); reflexivity.
Qed.

Lemma last_app_singleton {A} (l1 l2 : list A) x : last (l1 ++ l2 ++ [x]) = Some x.
Proof. by rewrite app_assoc, last_snoc. Qed.

(** X17.  When [nrf91_spi_exchange] returns, the last value written to
    each of [RXD.PTR], [RXD.MAXCNT], [TXD.PTR] and [TXD.MAXCNT] is 0.  List
    mode is touched only for more than 255 words: it is switched on for the
    directions that have a buffer, and switched off for both directions at
    the end. *)
Theorem exchange_cleanup `{spim_hw} txbuffer rxbuffer nwords answers rest w :
  0 <= nwords <= UINT_MAX →
  easydma_ok txbuffer → easydma_ok rxbuffer →
  length answers = length (chunk_sizes nwords) →
  Forall chunk_answers_ok answers →
  device w = concat (chunk_answers <$> answers) ++ rest →
  ∃ new,
    nrf91_spi_exchange txbuffer rxbuffer nwords w
    = Done tt (World (priv w) rest (accesses w ++ new))
    ∧ Forall (λ r, last (writes_to r new) = Some 0)
        [NRF91_SPIM_RXDPTR_OFFSET; NRF91_SPIM_RXDMAXCNT_OFFSET;
         NRF91_SPIM_TXDPTR_OFFSET; NRF91_SPIM_TXDMAXCNT_OFFSET]
    ∧ writes_to NRF91_SPIM_RXDLIST_OFFSET new
      = (if decide (nwords > 255) then (if decide (rxbuffer ≠ 0) then [1] else []) ++ [0]
         else [])
    ∧ writes_to NRF91_SPIM_TXDLIST_OFFSET new
      = (if decide (nwords > 255) then (if decide (txbuffer ≠ 0) then [1] else []) ++ [0]
         else []).
Proof.
  intros Hn Hok1 Hok2 Hlen Hans Hdev.
  destruct (exchange_run txbuffer rxbuffer nwords answers rest w) as (new & Hrun & Hw);
    try done.
  exists new. split; [done|]. split; [|split].
  - repeat constructor.
    + rewrite (writes_to_exchange _ _ _ _ _ (λ _, []) Hw) by chunk_select.
      rewrite teardown_select by (rewrite !elem_of_cons; auto). apply last_app_singleton.
    + rewrite (writes_to_exchange _ _ _ _ _
                 (λ c, if decide (rxbuffer ≠ 0) then [c] else []) Hw) by chunk_select.
      rewrite teardown_select by (rewrite !elem_of_cons; auto). apply last_app_singleton.
    + rewrite (writes_to_exchange _ _ _ _ _ (λ _, []) Hw) by chunk_select.
      rewrite teardown_select by (rewrite !elem_of_cons; auto). apply last_app_singleton.
    + rewrite (writes_to_exchange _ _ _ _ _
                 (λ c, if decide (txbuffer ≠ 0) then [c] else []) Hw) by chunk_select.
      rewrite teardown_select by (rewrite !elem_of_cons; auto 6). apply last_app_singleton.
  - rewrite (writes_to_exchange _ _ _ _ _ (λ _, []) Hw) by chunk_select.
    rewrite concat_nils. unfold setup_writes, teardown_writes.
    destruct (decide (rxbuffer ≠ 0)), (decide (txbuffer ≠ 0)), (decide (nwords > 255));
      reflexivity.
  - rewrite (writes_to_exchange _ _ _ _ _ (λ _, []) Hw) by chunk_select.
    rewrite concat_nils. unfold setup_writes, teardown_writes.
    destruct (decide (rxbuffer ≠ 0)), (decide (txbuffer ≠ 0)), (decide (nwords > 255));
      reflexivity.
Qed.

Lemma exchange_cleanup_witness :
  (0 <= 300 <= UINT_MAX
   ∧ easydma_ok 0x20001000 ∧ easydma_ok 0
   ∧ length [([0; 0], 255, [0]); ([], 45, [2])] = length (chunk_sizes 300)
   ∧ Forall chunk_answers_ok [([0; 0], 255, [0]); ([], 45, [2])]
   ∧ device (World (Spidev 17 1000000 0) [0; 0; 1; 255; 0; 1; 1; 45; 2; 1; 9] [])
     = concat (chunk_answers <$> [([0; 0], 255, [0]); ([], 45, [2])]) ++ [9])
  ∧ ∃ new,
      nrf91_spi_exchange 0x20001000 0 300
        (World (Spidev 17 1000000 0) [0; 0; 1; 255; 0; 1; 1; 45; 2; 1; 9] [])
      = Done tt (World (Spidev 17 1000000 0) [9] ([] ++ new))
      ∧ Forall (λ r, last (writes_to r new) = Some 0)
          [NRF91_SPIM_RXDPTR_OFFSET; NRF91_SPIM_RXDMAXCNT_OFFSET;
           NRF91_SPIM_TXDPTR_OFFSET; NRF91_SPIM_TXDMAXCNT_OFFSET]
      ∧ writes_to NRF91_SPIM_RXDLIST_OFFSET new
        = (if decide (300 > 255) then (if decide (0 ≠ 0) then [1] else []) ++ [0] else [])
      ∧ writes_to NRF91_SPIM_TXDLIST_OFFSET new
        = (if decide (300 > 255) then (if decide (0x20001000 ≠ 0) then [1] else []) ++ [0]
           else []).
Proof.
  assert (H1 : 0 <= 300 <= UINT_MAX) by (unfold UINT_MAX; lia).
  split.
  { split; [exact H1|]. split; [apply sample_easydma_ok|].
    split; [apply sample_easydma_ok|]. split; [reflexivity|].
    split; [exact sample_answers_ok|reflexivity]. }
  exact (exchange_cleanup 0x20001000 0 300 [([0; 0], 255, [0]); ([], 45, [2])] [9]
           (World (Spidev 17 1000000 0) [0; 0; 1; 255; 0; 1; 1; 45; 2; 1; 9] [])
           H1 (sample_easydma_ok _) (sample_easydma_ok _) eq_refl
           sample_answers_ok eq_refl).
Defined.

(** X18.  [nrf91_spi_exchange] has no time-out: with at least one word to
    transfer and a device that never raises [EVENTS_END], the call starts the
    first transfer and then polls for ever; it uses up every answer and never
    reaches [TASK_STOP]. *)
Theorem exchange_no_timeout `{spim_hw} txbuffer rxbuffer nwords w :
  0 < nwords →
  easydma_ok txbuffer → easydma_ok rxbuffer →
  Forall busy (device w) →
  ∃ new,
    nrf91_spi_exchange txbuffer rxbuffer nwords w
    = Starved (World (priv w) [] (accesses w ++ new))
    ∧ writes_to NRF91_SPIM_TASK_START_OFFSET new = [SPIM_TASKS_START]
    ∧ writes_to NRF91_SPIM_TASK_STOP_OFFSET new = [].
Proof.
  intros Hn Htx Hrx Hbusy. destruct w as [dev answers log]. simpl in Hbusy.
  unfold nrf91_spi_exchange.
  destruct (decide (rxbuffer ≠ 0)), (decide (txbuffer ≠ 0)), (decide (nwords > 255)).
  all: unfold mbind, spi_bind, mret, spi_ret; spi_unfold; cbn.
  all: rewrite ?debugassert_pass by done; cbn.
  all: rewrite transfer_loop_equation_1; rewrite decide_True by lia; cbv zeta.
  all: unfold transfer_chunk, mbind, spi_bind, mret, spi_ret; spi_unfold; cbn.
  all: repeat (first [rewrite decide_True by done | rewrite decide_False by done]; cbn).
  all: rewrite poll_event_starved by done.
  all: eexists; split; [rewrite <- !app_assoc; reflexivity|].
  all: unfold writes_to; rewrite ?writes_app, ?writes_getregs; split; reflexivity.
Qed.

Lemma exchange_no_timeout_witness :
  (0 < 4 ∧ easydma_ok 0x20001000 ∧ easydma_ok 0x20002000
   ∧ Forall busy (device (World (Spidev 17 1000000 0) [0; 0; 0] [])))
  ∧ ∃ new,
      nrf91_spi_exchange 0x20001000 0x20002000 4 (World (Spidev 17 1000000 0) [0; 0; 0] [])
      = Starved (World (Spidev 17 1000000 0) [] ([] ++ new))
      ∧ writes_to NRF91_SPIM_TASK_START_OFFSET new = [SPIM_TASKS_START]
      ∧ writes_to NRF91_SPIM_TASK_STOP_OFFSET new = [].
Proof.
  assert (H1 : 0 < 4) by lia.
  assert (H2 : Forall busy (device (World (Spidev 17 1000000 0) [0; 0; 0] [])))
    by (repeat constructor; unfold busy; vm_compute; discriminate).
  split; [split; [exact H1|split; [apply sample_easydma_ok|split;
    [apply sample_easydma_ok|exact H2]]]|].
  exact (exchange_no_timeout 0x20001000 0x20002000 4
           (World (Spidev 17 1000000 0) [0; 0; 0] [])
           H1 (sample_easydma_ok _) (sample_easydma_ok _) H2).
Defined.

(** X19.  With [nwords = 0], [nrf91_spi_exchange] starts no transfer and
    reads no register: it programs the two sides (the buffer address, or a
    count of 0 for a null buffer) and clears the pointers and counts again. *)
Theorem exchange_nothing `{spim_hw} txbuffer rxbuffer w :
  easydma_ok txbuffer → easydma_ok rxbuffer →
  ∃ new,
    nrf91_spi_exchange txbuffer rxbuffer 0 w
    = Done tt (World (priv w) (device w) (accesses w ++ new))
    ∧ writes new
      = [if decide (rxbuffer ≠ 0) then (NRF91_SPIM_RXDPTR_OFFSET, rxbuffer)
         else (NRF91_SPIM_RXDMAXCNT_OFFSET, 0);
         if decide (txbuffer ≠ 0) then (NRF91_SPIM_TXDPTR_OFFSET, txbuffer)
         else (NRF91_SPIM_TXDMAXCNT_OFFSET, 0);
         (NRF91_SPIM_RXDPTR_OFFSET, 0); (NRF91_SPIM_RXDMAXCNT_OFFSET, 0);
         (NRF91_SPIM_TXDPTR_OFFSET, 0); (NRF91_SPIM_TXDMAXCNT_OFFSET, 0)].
Proof.
  intros Htx Hrx.
  destruct (exchange_run txbuffer rxbuffer 0 [] (device w) w) as (new & Hrun & Hw);
    try done.
  exists new. split; [done|]. rewrite Hw. unfold setup_writes, teardown_writes.
  by destruct (decide (rxbuffer ≠ 0)), (decide (txbuffer ≠ 0)).
Qed.

Lemma exchange_nothing_witness :
  (easydma_ok 0x20001000 ∧ easydma_ok 0)
  ∧ ∃ new,
      nrf91_spi_exchange 0x20001000 0 0 (World (Spidev 17 1000000 0) [5] [])
      = Done tt (World (Spidev 17 1000000 0) [5] ([] ++ new))
      ∧ writes new
        = [if decide (0 ≠ 0) then (NRF91_SPIM_RXDPTR_OFFSET, 0)
           else (NRF91_SPIM_RXDMAXCNT_OFFSET, 0);
           if decide (0x20001000 ≠ 0) then (NRF91_SPIM_TXDPTR_OFFSET, 0x20001000)
           else (NRF91_SPIM_TXDMAXCNT_OFFSET, 0);
           (NRF91_SPIM_RXDPTR_OFFSET, 0); (NRF91_SPIM_RXDMAXCNT_OFFSET, 0);
           (NRF91_SPIM_TXDPTR_OFFSET, 0); (NRF91_SPIM_TXDMAXCNT_OFFSET, 0)].
Proof.
  split; [split; apply sample_easydma_ok|].
  exact (exchange_nothing 0x20001000 0 (World (Spidev 17 1000000 0) [5] [])
           (sample_easydma_ok _) (sample_easydma_ok _)).
Defined.

Lemma easydma_ok_null `{spim_hw} : easydma_ok 0.
Proof. by intros ?. Qed.

(** X20.  [nrf91_spi_sndblock] transmits only: the receive side never
    gets a buffer address and its count is held at 0, while the transmit side
    gets the buffer and the transfer sizes. *)
Theorem sndblock_transmit_only `{spim_hw} txbuffer nwords answers rest w :
  0 <= nwords <= UINT_MAX →
  txbuffer ≠ 0 → easydma_ok txbuffer →
  length answers = length (chunk_sizes nwords) →
  Forall chunk_answers_ok answers →
  device w = concat (chunk_answers <$> answers) ++ rest →
  ∃ new,
    nrf91_spi_sndblock txbuffer nwords w
    = Done tt (World (priv w) rest (accesses w ++ new))
    ∧ writes_to NRF91_SPIM_TXDPTR_OFFSET new = [txbuffer; 0]
    ∧ writes_to NRF91_SPIM_TXDMAXCNT_OFFSET new = chunk_sizes nwords ++ [0]
    ∧ writes_to NRF91_SPIM_RXDPTR_OFFSET new = [0]
    ∧ writes_to NRF91_SPIM_RXDMAXCNT_OFFSET new = [0; 0].
Proof.
  intros Hn Htx Hok Hlen Hans Hdev. unfold nrf91_spi_sndblock.
  destruct (exchange_run txbuffer 0 nwords answers rest w) as (new & Hrun & Hw);
    try done; [apply easydma_ok_null|].
  exists new. split; [done|]. split; [|split; [|split]].
  - rewrite (writes_to_exchange _ _ _ _ _ (λ _, []) Hw) by chunk_select.
    rewrite concat_nils. unfold setup_writes, teardown_writes.
    by destruct (decide (txbuffer ≠ 0)), (decide (nwords > 255)).
  - rewrite (writes_to_exchange _ _ _ _ _ (λ c, [c]) Hw) by chunk_select.
    rewrite concat_singletons, list_fmap_id. unfold setup_writes, teardown_writes.
    by destruct (decide (txbuffer ≠ 0)), (decide (nwords > 255)).
  - rewrite (writes_to_exchange _ _ _ _ _ (λ _, []) Hw) by chunk_select.
    rewrite concat_nils. unfold setup_writes, teardown_writes.
    by destruct (decide (txbuffer ≠ 0)), (decide (nwords > 255)).
  - rewrite (writes_to_exchange _ _ _ _ _ (λ _, []) Hw) by chunk_select.
    rewrite concat_nils. unfold setup_writes, teardown_writes.
    by destruct (decide (txbuffer ≠ 0)), (decide (nwords > 255)).
Qed.

Lemma sndblock_transmit_only_witness :
  (0 <= 300 <= UINT_MAX
   ∧ 0x20001000 ≠ 0 ∧ easydma_ok 0x20001000
   ∧ length [([0; 0], 255, [0]); ([], 45, [2])] = length (chunk_sizes 300)
   ∧ Forall chunk_answers_ok [([0; 0], 255, [0]); ([], 45, [2])]
   ∧ device (World (Spidev 17 1000000 0) [0; 0; 1; 255; 0; 1; 1; 45; 2; 1; 9] [])
     = concat (chunk_answers <$> [([0; 0], 255, [0]); ([], 45, [2])]) ++ [9])
  ∧ ∃ new,
      nrf91_spi_sndblock 0x20001000 300
        (World (Spidev 17 1000000 0) [0; 0; 1; 255; 0; 1; 1; 45; 2; 1; 9] [])
      = Done tt (World (Spidev 17 1000000 0) [9] ([] ++ new))
      ∧ writes_to NRF91_SPIM_TXDPTR_OFFSET new = [0x20001000; 0]
      ∧ writes_to NRF91_SPIM_TXDMAXCNT_OFFSET new = chunk_sizes 300 ++ [0]
      ∧ writes_to NRF91_SPIM_RXDPTR_OFFSET new = [0]
      ∧ writes_to NRF91_SPIM_RXDMAXCNT_OFFSET new = [0; 0].
Proof.
  assert (H1 : 0 <= 300 <= UINT_MAX) by (unfold UINT_MAX; lia).
  assert (H2 : 0x20001000 ≠ 0) by discriminate.
  split.
  { split; [exact H1|]. split; [exact H2|]. split; [apply sample_easydma_ok|].
    split; [reflexivity|]. split; [exact sample_answers_ok|reflexivity]. }
  exact (sndblock_transmit_only 0x20001000 300 [([0; 0], 255, [0]); ([], 45, [2])] [9]
           (World (Spidev 17 1000000 0) [0; 0; 1; 255; 0; 1; 1; 45; 2; 1; 9] [])
           H1 H2 (sample_easydma_ok _) eq_refl sample_answers_ok eq_refl).
Defined.

(** X21.  [nrf91_spi_recvblock] receives only: the transmit side never
    gets a buffer address and its count is held at 0, while the receive side
    gets the buffer and the transfer sizes. *)
Theorem recvblock_receive_only `{spim_hw} rxbuffer nwords answers rest w :
  0 <= nwords <= UINT_MAX →
  rxbuffer ≠ 0 → easydma_ok rxbuffer →
  length answers = length (chunk_sizes nwords) →
  Forall chunk_answers_ok answers →
  device w = concat (chunk_answers <$> answers) ++ rest →
  ∃ new,
    nrf91_spi_recvblock rxbuffer nwords w
    = Done tt (World (priv w) rest (accesses w ++ new))
    ∧ writes_to NRF91_SPIM_RXDPTR_OFFSET new = [rxbuffer; 0]
    ∧ writes_to NRF91_SPIM_RXDMAXCNT_OFFSET new = chunk_sizes nwords ++ [0]
    ∧ writes_to NRF91_SPIM_TXDPTR_OFFSET new = [0]
    ∧ writes_to NRF91_SPIM_TXDMAXCNT_OFFSET new = [0; 0].
Proof.
  intros Hn Hrx Hok Hlen Hans Hdev. unfold nrf91_spi_recvblock.
  destruct (exchange_run 0 rxbuffer nwords answers rest w) as (new & Hrun & Hw);
    try done; [apply easydma_ok_null|].
  exists new. split; [done|]. split; [|split; [|split]].
  - rewrite (writes_to_exchange _ _ _ _ _ (λ _, []) Hw) by chunk_select.
    rewrite concat_nils. unfold setup_writes, teardown_writes.
    by destruct (decide (rxbuffer ≠ 0)), (decide (nwords > 255)).
  - rewrite (writes_to_exchange _ _ _ _ _ (λ c, [c]) Hw) by chunk_select.
    rewrite concat_singletons, list_fmap_id. unfold setup_writes, teardown_writes.
    by destruct (decide (rxbuffer ≠ 0)), (decide (nwords > 255)).
  - rewrite (writes_to_exchange _ _ _ _ _ (λ _, []) Hw) by chunk_select.
    rewrite concat_nils. unfold setup_writes, teardown_writes.
    by destruct (decide (rxbuffer ≠ 0)), (decide (nwords > 255)).
  - rewrite (writes_to_exchange _ _ _ _ _ (λ _, []) Hw) by chunk_select.
    rewrite concat_nils. unfold setup_writes, teardown_writes.
    by destruct (decide (rxbuffer ≠ 0)), (decide (nwords > 255)).
Qed.

Lemma recvblock_receive_only_witness :
  (0 <= 300 <= UINT_MAX
   ∧ 0x20002000 ≠ 0 ∧ easydma_ok 0x20002000
   ∧ length [([0; 0], 255, [0]); ([], 45, [2])] = length (chunk_sizes 300)
   ∧ Forall chunk_answers_ok [([0; 0], 255, [0]); ([], 45, [2])]
   ∧ device (World (Spidev 17 1000000 0) [0; 0; 1; 255; 0; 1; 1; 45; 2; 1; 9] [])
     = concat (chunk_answers <$> [([0; 0], 255, [0]); ([], 45, [2])]) ++ [9])
  ∧ ∃ new,
      nrf91_spi_recvblock 0x20002000 300
        (World (Spidev 17 1000000 0) [0; 0; 1; 255; 0; 1; 1; 45; 2; 1; 9] [])
      = Done tt (World (Spidev 17 1000000 0) [9] ([] ++ new))
      ∧ writes_to NRF91_SPIM_RXDPTR_OFFSET new = [0x20002000; 0]
      ∧ writes_to NRF91_SPIM_RXDMAXCNT_OFFSET new = chunk_sizes 300 ++ [0]
      ∧ writes_to NRF91_SPIM_TXDPTR_OFFSET new = [0]
      ∧ writes_to NRF91_SPIM_TXDMAXCNT_OFFSET new = [0; 0].
Proof.
  assert (H1 : 0 <= 300 <= UINT_MAX) by (unfold UINT_MAX; lia).
  assert (H2 : 0x20002000 ≠ 0) by discriminate.
  split.
  { split; [exact H1|]. split; [exact H2|]. split; [apply sample_easydma_ok|].
    split; [reflexivity|]. split; [exact sample_answers_ok|reflexivity]. }
  exact (recvblock_receive_only 0x20002000 300 [([0; 0], 255, [0]); ([], 45, [2])] [9]
           (World (Spidev 17 1000000 0) [0; 0; 1; 255; 0; 1; 1; 45; 2; 1; 9] [])
           H1 H2 (sample_easydma_ok _) eq_refl sample_answers_ok eq_refl).
Defined.

(** * The SPI driver: the cached frequency *)

Lemma keeps_ret {A} (a : A) : keeps_frequency (mret a : spi A).
Proof. by intros w. Qed.

Lemma keeps_bind {A B} (m : spi A) (f : A → spi B) :
  keeps_frequency m → (∀ a, keeps_frequency (f a)) → keeps_frequency (m ≫= f).
Proof.
  intros Hm Hf w. specialize (Hm w). unfold mbind, spi_bind.
  destruct (m w) as [a w'|w'|w']; simpl in *; [|done..].
  destruct Hm as [Hm1 Hm2], (Hf a w') as [Hf1 Hf2]. split; congruence.
Qed.

Lemma keeps_putreg r v :
  r ≠ NRF91_SPIM_FREQUENCY_OFFSET → keeps_frequency (nrf91_spi_putreg r v).
Proof.
  intros Hr w. split; [done|]. simpl. rewrite writes_to_app.
  unfold writes_to at 2. simpl. rewrite filter_cons, decide_False by done.
  by rewrite app_nil_r.
Qed.

Lemma keeps_getreg r : keeps_frequency (nrf91_spi_getreg r).
Proof.
  intros w. unfold nrf91_spi_getreg. destruct (device w); [done|].
  split; [done|]. simpl. rewrite writes_to_app. by rewrite app_nil_r.
Qed.

Lemma keeps_gpio_write pinset value : keeps_frequency (nrf91_gpio_write pinset value).
Proof. intros w. split; [done|]. simpl. rewrite writes_to_app. by rewrite app_nil_r. Qed.

Lemma keeps_debugassert `{spim_hw} f : keeps_frequency (DEBUGASSERT f).
Proof. intros w. unfold DEBUGASSERT. by destruct (_ && _). Qed.

Lemma keeps_wait_event r : keeps_frequency (wait_event r).
Proof.
  intros [dev answers log]. unfold wait_event. simpl.
  revert log. induction answers as [|v answers IH]; intros log; [done|].
  cbn [poll_event].
  assert (writes_to NRF91_SPIM_FREQUENCY_OFFSET (log ++ [Getreg r (to_uint v)])
          = writes_to NRF91_SPIM_FREQUENCY_OFFSET log) as Hlog.
  { rewrite writes_to_app. by rewrite app_nil_r. }
  destruct (decide (to_uint v = 1)); [done|].
  destruct (IH (log ++ [Getreg r (to_uint v)])) as [IH1 IH2]. split; congruence.
Qed.

Lemma keeps_get_mode : keeps_frequency get_mode.
Proof. by intros w. Qed.

Lemma keeps_get_sck_pin : keeps_frequency get_sck_pin.
Proof. by intros w. Qed.

Lemma keeps_set_mode value : keeps_frequency (set_mode value).
Proof. by intros w. Qed.

Create HintDb keeps.

#[local] Hint Resolve keeps_ret keeps_bind keeps_getreg keeps_gpio_write keeps_debugassert
  keeps_wait_event keeps_get_mode keeps_get_sck_pin keeps_set_mode : keeps.
#[local] Hint Extern 1 (keeps_frequency (nrf91_spi_putreg _ _)) =>
  apply keeps_putreg; discriminate : keeps.
#[local] Hint Extern 2 (keeps_frequency (if ?c then _ else _)) => destruct c : keeps.
#[local] Hint Extern 2 (keeps_frequency (match ?c with _ => _ end)) => destruct c : keeps.

Lemma keeps_transfer_chunk `{spim_hw} txbuffer rxbuffer size :
  keeps_frequency (transfer_chunk txbuffer rxbuffer size).
Proof. unfold transfer_chunk. eauto 40 with keeps. Qed.

Lemma keeps_transfer_loop `{spim_hw} txbuffer rxbuffer nwords :
  keeps_frequency (transfer_loop txbuffer rxbuffer nwords).
Proof.
  remember (Z.to_nat nwords) as k eqn:Hk. revert nwords Hk.
  induction k as [k IH] using lt_wf_ind. intros nwords -> w.
  rewrite transfer_loop_equation_1. destruct (decide (nwords > 0)) as [Hpos|]; [|done].
  cbv zeta. set (size := if decide (nwords > 255) then 255 else nwords).
  assert (1 <= size <= nwords) as Hsize by (unfold size; destruct (decide _); lia).
  pose proof (keeps_transfer_chunk txbuffer rxbuffer size w) as Hchunk.
  destruct (transfer_chunk txbuffer rxbuffer size w) as [[] w'|w'|w']; [|done..].
  simpl in Hchunk.
  destruct (IH (Z.to_nat (to_uint (nwords - size)))
              ltac:(unfold to_uint; Z.div_mod_to_equations; lia) _ eq_refl w') as [IH1 IH2].
  destruct Hchunk. split; congruence.
Qed.

#[local] Hint Resolve keeps_transfer_loop : keeps.

Lemma keeps_exchange `{spim_hw} txbuffer rxbuffer nwords :
  keeps_frequency (nrf91_spi_exchange txbuffer rxbuffer nwords).
Proof. unfold nrf91_spi_exchange. eauto 40 with keeps. Qed.

Lemma keeps_setmode `{spim_hw} mode_req : keeps_frequency (nrf91_spi_setmode mode_req).
Proof. unfold nrf91_spi_setmode, DEBUGPANIC. eauto 40 with keeps. Qed.

Lemma keeps_hwfeatures `{spim_hw} features :
  keeps_frequency (nrf91_spi_hwfeatures features).
Proof. unfold nrf91_spi_hwfeatures. eauto 40 with keeps. Qed.

Lemma setfrequency_in_sync `{spim_hw} frequency_req w :
  frequency_in_sync w →
  frequency_in_sync (world_of (nrf91_spi_setfrequency frequency_req w)).
Proof.
  intros Hsync.
  destruct (setfrequency_outcome frequency_req w) as (w' & -> & [[-> _]|Hset]); [done|].
  destruct Hset as (_ & Hsup & regval & Hsw & ->). right. simpl. split; [done|].
  rewrite writes_to_app.
  change (writes_to NRF91_SPIM_FREQUENCY_OFFSET [Putreg NRF91_SPIM_FREQUENCY_OFFSET regval])
    with [regval].
  by rewrite last_snoc.
Qed.

Lemma in_sync_kept `{spim_hw} {A} (m : spi A) w :
  keeps_frequency m → frequency_in_sync w → frequency_in_sync (world_of (m w)).
Proof. intros Hm Hsync. destruct (Hm w) as [Hf Hw]. unfold frequency_in_sync. by rewrite Hf, Hw. Qed.

Lemma do_call_in_sync `{spim_hw} c w :
  frequency_in_sync w → frequency_in_sync (world_of (do_call c w)).
Proof.
  intros Hsync. destruct c; simpl.
  - pose proof (setfrequency_in_sync frequency_req w Hsync) as Hset.
    unfold mbind, spi_bind. by destruct (nrf91_spi_setfrequency frequency_req w).
  - by apply in_sync_kept; [apply keeps_setmode|].
  - apply in_sync_kept; [|done]. apply keeps_bind; [apply keeps_hwfeatures|].
    intros ?. apply keeps_ret.
  - by apply in_sync_kept; [apply keeps_exchange|].
  - by apply in_sync_kept; [apply keeps_exchange|].
  - by apply in_sync_kept; [apply keeps_exchange|].
Qed.

(** X22.  Whatever calls are made through the driver's operations, and
    however the last one ends, the cached frequency stays in step with the
    [FREQUENCY] register: either no frequency was ever set and the register
    was never written, or the cached frequency is one of the seven supported
    rates and the last value written to the register is the one of that
    rate. *)
Theorem driver_frequency_in_sync `{spim_hw} cs w :
  frequency_in_sync w → frequency_in_sync (world_of (do_calls cs w)).
Proof.
  revert w. induction cs as [|c cs IH]; intros w Hsync; [done|].
  cbn [do_calls]. unfold mbind, spi_bind.
  pose proof (do_call_in_sync c w Hsync) as Hc.
  destruct (do_call c w) as [[] w'|w'|w']; [|done..]. by apply IH.
Qed.

Lemma driver_frequency_in_sync_witness :
  frequency_in_sync (World (Spidev 17 0 0) [4; 0; 1; 3; 1] [])
  ∧ frequency_in_sync
      (world_of
         (do_calls [CallSetfrequency 1000000; CallSetmode 3; CallSetfrequency 9000000;
                    CallSetfrequency 300000; CallExchange 0x20001000 0 3;
                    CallSetfrequency 125000]
            (World (Spidev 17 0 0) [4; 0; 1; 3; 1] []))).
Proof.
  assert (H1 : frequency_in_sync (World (Spidev 17 0 0) [4; 0; 1; 3; 1] []))
    by (left; split; reflexivity).
  split; [exact H1|].
  exact (driver_frequency_in_sync _ _ H1).
Defined.
